(** * F1 Team Portal: the data acquisition pipeline of [js/data-fetcher.js]

    A shallow embedding of the cache / remote / fallback pipeline
    ([fetchTeamsData] and the functions it calls) and of the helpers of
    [utils.js] that duplicate parts of it, followed by the properties the
    design document states about them. The other functions of the file
    (the lookups [getTeamById], [getTeamByName] and [filterTeams],
    [isCacheExpired], [fetchDriverData], [formatNumber]) and
    [extractAllDrivers] of [js/drivers.js], which consumes the result of
    the pipeline, are embedded as well; their properties come last.

    The host (browser) is modelled in [Module Host]:
    - JavaScript values, with property lookup through own properties and
      then the members inherited from [Object.prototype];
    - the string methods the code calls, [parseInt], [JSON.stringify] and
      [JSON.parse];
    - [localStorage] as a finite map from keys to strings, with a quota:
      [setItem] throws when the store would grow past it;
    - [fetch] as a call to an environment that answers each URL, every
      call being logged; the race against the timeout timer is decided
      by the environment.
    Strings are sequences of code units below 256 and numbers are
    integers: the code under study creates no other numbers, and a JSON
    text with a fraction or an exponent is refused by [JSON_parse].
    Code runs in a state and exception monad [M]; an [await] is
    sequencing. *)

From Stdlib Require Import ZArith Lia Bool Ascii String.
From Stdlib Require Import Decimal DecimalString DecimalZ DecimalN DecimalPos DecimalFacts.
From stdpp Require Import gmap strings list.

#[local] Open Scope string_scope.
#[local] Open Scope Z_scope.

Module Host.

(** ** Strings *)

Definition char_code (c : ascii) : Z := Z.of_nat (nat_of_ascii c).
Definition from_char_code (n : Z) : ascii := ascii_of_nat (Z.to_nat n).

(** Upper-case letters with a lower-case partner at distance 32:
    A-Z and the Latin-1 range U+00C0..U+00DE without the sign U+00D7. *)
Definition is_upper (c : ascii) : bool :=
  let n := char_code c in
  ((65 <=? n) && (n <=? 90))
  || ((192 <=? n) && (n <=? 222) && negb (n =? 215)).

Definition lower_char (c : ascii) : ascii :=
  if is_upper c then from_char_code (char_code c + 32) else c.

(** [String.prototype.toLowerCase] *)
Fixpoint toLowerCase (s : string) : string :=
  match s with
  | EmptyString => EmptyString
  | String c s' => String (lower_char c) (toLowerCase s')
  end.

(** White space and line terminators: TAB, LF, VT, FF, CR, SP, NBSP. *)
Definition is_space (c : ascii) : bool :=
  let n := char_code c in
  ((9 <=? n) && (n <=? 13)) || (n =? 32) || (n =? 160).

Fixpoint trimStart (s : string) : string :=
  match s with
  | EmptyString => EmptyString
  | String c s' => if is_space c then trimStart s' else s
  end.

Fixpoint trimEnd (s : string) : string :=
  match s with
  | EmptyString => EmptyString
  | String c s' =>
      match trimEnd s' with
      | EmptyString => if is_space c then EmptyString else String c EmptyString
      | r => String c r
      end
  end.

(** [String.prototype.trim] *)
Definition trim (s : string) : string := trimEnd (trimStart s).

(** [s.replace(/\s+/g, '-')]: every maximal run of white space becomes
    one hyphen. [in_run] tells that the previous character was white. *)
Fixpoint replace_ws_go (in_run : bool) (s : string) : string :=
  match s with
  | EmptyString => EmptyString
  | String c s' =>
      if is_space c
      then (if in_run then replace_ws_go true s'
            else String "-" (replace_ws_go true s'))
      else String c (replace_ws_go false s')
  end.

Definition replace_ws_hyphen (s : string) : string := replace_ws_go false s.

(** ** Numbers and their decimal text *)

(** [Number.prototype.toString] on an integer: its digits in full, as
    the host writes the whole numbers it holds exactly (up to
    [MAX_SAFE_INTEGER] in absolute value; from 10^21 on the host writes
    an exponent). *)
Definition number_toString (n : Z) : string :=
  NilZero.string_of_int (Z.to_int n).

(** [Number.MAX_SAFE_INTEGER], 2^53 - 1. *)
Definition MAX_SAFE_INTEGER : Z := 9007199254740991.

Definition digit_value (radix : Z) (c : ascii) : option Z :=
  let n := char_code c in
  let v := if (48 <=? n) && (n <=? 57) then Some (n - 48)
           else if (97 <=? n) && (n <=? 122) then Some (n - 87)
           else if (65 <=? n) && (n <=? 90) then Some (n - 55)
           else None in
  match v with
  | Some d => if d <? radix then Some d else None
  | None => None
  end.

(** The longest prefix of digits of the radix, as digit values, and
    the rest of the string. *)
Fixpoint take_digits (radix : Z) (s : string) : list Z * string :=
  match s with
  | EmptyString => ([], EmptyString)
  | String c s' =>
      match digit_value radix c with
      | Some d => let '(ds, r) := take_digits radix s' in (d :: ds, r)
      | None => ([], s)
      end
  end.

Definition digits_value (radix : Z) (ds : list Z) : Z :=
  fold_left (fun acc d => acc * radix + d) ds 0.

Definition read_sign (s : string) : Z * string :=
  match s with
  | String "-" r => (-1, r)
  | String "+" r => (1, r)
  | _ => (1, s)
  end.

Definition read_radix (s : string) : Z * string :=
  match s with
  | String "0" (String "x" r) => (16, r)
  | String "0" (String "X" r) => (16, r)
  | _ => (10, s)
  end.

(** [parseInt(s)] without a radix argument, on a string. [None] is NaN.
    Leading white space is skipped, a sign is read, a [0x] prefix
    selects radix 16, and the longest prefix of digits is the value. *)
Definition parseInt_string (s : string) : option Z :=
  let '(sign, s2) := read_sign (trimStart s) in
  let '(radix, s3) := read_radix s2 in
  match take_digits radix s3 with
  | ([], _) => None
  | (ds, _) => Some (sign * digits_value radix ds)
  end.

(** ** Values *)

#[local] Set Warnings "-register-all".

(** JavaScript values. An object is the list of its own properties in
    insertion order; when a key occurs twice the later entry is the
    property (as [JSON.parse] resolves duplicate keys). [VFunction] is a
    host function object, known by its name. *)
Inductive value : Type :=
  | VUndefined
  | VNull
  | VBool (b : bool)
  | VNum (n : Z)
  | VStr (s : string)
  | VArr (elems : list value)
  | VObj (props : list (string * value))
  | VFunction (name : string).

(** ToBoolean *)
Definition truthy (v : value) : bool :=
  match v with
  | VUndefined | VNull => false
  | VBool b => b
  | VNum n => negb (n =? 0)
  | VStr s => negb (String.eqb s "")
  | VArr _ | VObj _ | VFunction _ => true
  end.

(** [a || b] *)
Definition js_or (a b : value) : value := if truthy a then a else b.

Fixpoint own_prop (props : list (string * value)) (k : string) : option value :=
  match props with
  | [] => None
  | (k', v) :: rest =>
      match own_prop rest k with
      | Some v' => Some v'
      | None => if String.eqb k' k then Some v else None
      end
  end.

(** The members every value inherits from [Object.prototype]; [ctor] is
    the name of the constructor of the receiver. Methods that belong to
    one type only ([map], [toLowerCase], ...) are embedded where the
    code calls them and are not listed here. *)
Definition object_prototype_methods : list string :=
  ["hasOwnProperty"; "isPrototypeOf"; "propertyIsEnumerable";
   "toLocaleString"; "toString"; "valueOf";
   "__defineGetter__"; "__defineSetter__";
   "__lookupGetter__"; "__lookupSetter__"].

Definition inherited_prop (ctor k : string) : value :=
  if String.eqb k "constructor" then VFunction ctor
  else if String.eqb k "__proto__" then VObj []
  else if existsb (String.eqb k) object_prototype_methods then VFunction k
  else VUndefined.

Definition array_index (k : string) : option nat :=
  match parseInt_string k with
  | Some i => if (0 <=? i) && String.eqb (number_toString i) k
              then Some (Z.to_nat i) else None
  | None => None
  end.

(** [v.k] and [v[k]] on a value that is neither [null] nor [undefined]
    (on those the access throws, see [member] below). *)
Definition get_prop (v : value) (k : string) : value :=
  match v with
  | VObj props =>
      match own_prop props k with
      | Some x => x
      | None => inherited_prop "Object" k
      end
  | VArr l =>
      if String.eqb k "length" then VNum (Z.of_nat (length l))
      else match array_index k with
           | Some i => nth i l VUndefined
           | None => inherited_prop "Array" k
           end
  | VStr s =>
      if String.eqb k "length" then VNum (Z.of_nat (String.length s))
      else inherited_prop "String" k
  | VNum _ => inherited_prop "Number" k
  | VBool _ => inherited_prop "Boolean" k
  | VFunction n =>
      if String.eqb k "name" then VStr n else inherited_prop "Function" k
  | VUndefined | VNull => VUndefined
  end.

Fixpoint join_comma (l : list string) : string :=
  match l with
  | [] => ""
  | [x] => x
  | x :: rest => x ++ "," ++ join_comma rest
  end.

(** ToString *)
Fixpoint toString (v : value) : string :=
  match v with
  | VUndefined => "undefined"
  | VNull => "null"
  | VBool b => if b then "true" else "false"
  | VNum n => number_toString n
  | VStr s => s
  | VArr l =>
      join_comma
        (List.map (fun x => match x with
                            | VUndefined | VNull => ""
                            | _ => toString x
                            end) l)
  | VObj _ => "[object Object]"
  | VFunction n => "function " ++ n ++ "() { [native code] }"
  end.

(** ToNumber on a string, for integer literals ([None] is NaN). *)
Definition string_toNumber (s : string) : option Z :=
  let t := trim s in
  let whole (radix sign : Z) (r : string) :=
    match take_digits radix r with
    | ([], _) => None
    | (ds, EmptyString) => Some (sign * digits_value radix ds)
    | _ => None
    end in
  match t with
  | EmptyString => Some 0
  | String "0" (String "x" r) => whole 16 1 r
  | String "0" (String "X" r) => whole 16 1 r
  | String "-" r => whole 10 (-1) r
  | String "+" r => whole 10 1 r
  | _ => whole 10 1 t
  end.

(** ToNumber *)
Definition toNumber (v : value) : option Z :=
  match v with
  | VUndefined => None
  | VNull => Some 0
  | VBool b => Some (if b then 1 else 0)
  | VNum n => Some n
  | VStr s => string_toNumber s
  | VArr _ | VObj _ | VFunction _ => string_toNumber (toString v)
  end.

(** [v > 0] *)
Definition greater_than_zero (v : value) : bool :=
  match toNumber v with
  | Some n => 0 <? n
  | None => false
  end.

(** ** JSON text *)

Definition hex_digit (n : Z) : ascii :=
  if n <? 10 then from_char_code (48 + n) else from_char_code (87 + n).

(** The text [JSON.stringify] writes for one code unit of a string. *)
Definition escape_char (c : ascii) : string :=
  let n := char_code c in
  if n =? 34 then String "\" (String c "")
  else if n =? 92 then "\\"
  else if n =? 8 then "\b"
  else if n =? 9 then "\t"
  else if n =? 10 then "\n"
  else if n =? 12 then "\f"
  else if n =? 13 then "\r"
  else if n <? 32
       then "\u00" ++ String (hex_digit (n / 16)) (String (hex_digit (n mod 16)) "")
       else String c "".

Fixpoint escape (s : string) : string :=
  match s with
  | EmptyString => EmptyString
  | String c s' => escape_char c ++ escape s'
  end.

Definition dquote : ascii := from_char_code 34.

Definition quote (s : string) : string :=
  String dquote (escape s ++ String dquote "").

(** [JSON.stringify(v)]; [None] is the result [undefined]. Inside an
    array [undefined] and functions are written as [null], inside an
    object their property is left out. *)
Fixpoint JSON_stringify (v : value) : option string :=
  match v with
  | VUndefined | VFunction _ => None
  | VNull => Some "null"
  | VBool b => Some (if b then "true" else "false")
  | VNum n => Some (number_toString n)
  | VStr s => Some (quote s)
  | VArr l =>
      Some ("[" ++ join_comma
                     (List.map (fun x => match JSON_stringify x with
                                         | Some t => t
                                         | None => "null"
                                         end) l) ++ "]")
  | VObj ps =>
      Some ("{" ++ join_comma
                     ((fix members (ps : list (string * value)) : list string :=
                         match ps with
                         | [] => []
                         | (k, x) :: rest =>
                             match JSON_stringify x with
                             | Some t => (quote k ++ ":" ++ t) :: members rest
                             | None => members rest
                             end
                         end) ps) ++ "}")
  end.

(** JSON white space: SP, TAB, LF, CR. *)
Definition is_json_space (c : ascii) : bool :=
  let n := char_code c in
  (n =? 32) || (n =? 9) || (n =? 10) || (n =? 13).

Fixpoint skip_ws (s : string) : string :=
  match s with
  | EmptyString => EmptyString
  | String c s' => if is_json_space c then skip_ws s' else s
  end.

Fixpoint strip_prefix (p s : string) : option string :=
  match p, s with
  | EmptyString, _ => Some s
  | String a p', String b s' =>
      if Ascii.eqb a b then strip_prefix p' s' else None
  | String _ _, EmptyString => None
  end.

Definition hex4 (a b c d : ascii) : option Z :=
  match digit_value 16 a, digit_value 16 b, digit_value 16 c, digit_value 16 d with
  | Some x, Some y, Some z, Some w => Some (((x * 16 + y) * 16 + z) * 16 + w)
  | _, _, _, _ => None
  end.

(** The characters of a string literal after its opening quote, up to
    and including the closing quote. *)
Fixpoint parse_string_body (s : string) : option (string * string) :=
  match s with
  | EmptyString => None
  | String c r =>
      if char_code c =? 34 then Some (EmptyString, r)
      else if char_code c =? 92 then
        match r with
        | String e r' =>
            let continue (ch : ascii) (tail : string) :=
              match parse_string_body tail with
              | Some (t, rest) => Some (String ch t, rest)
              | None => None
              end in
            let n := char_code e in
            if n =? 34 then continue e r'
            else if n =? 92 then continue e r'
            else if n =? 47 then continue e r'
            else if n =? 98 then continue (from_char_code 8) r'
            else if n =? 102 then continue (from_char_code 12) r'
            else if n =? 110 then continue (from_char_code 10) r'
            else if n =? 114 then continue (from_char_code 13) r'
            else if n =? 116 then continue (from_char_code 9) r'
            else if n =? 117 then
              match r' with
              | String h1 (String h2 (String h3 (String h4 r''))) =>
                  match hex4 h1 h2 h3 h4 with
                  | Some code =>
                      if code <? 256 then continue (from_char_code code) r''
                      else None
                  | None => None
                  end
              | _ => None
              end
            else None
        | EmptyString => None
        end
      else if char_code c <? 32 then None
      else match parse_string_body r with
           | Some (t, rest) => Some (String c t, rest)
           | None => None
           end
  end.

(** An integer literal: an optional minus sign, then digits without a
    superfluous leading zero. A fraction or an exponent is outside the
    integers modelled here and is refused. *)
Definition read_minus (s : string) : Z * string :=
  match s with
  | String "-" r => (-1, r)
  | _ => (1, s)
  end.

Definition integer_literal (sign : Z) (ds : list Z) (rest : string) : option (Z * string) :=
  match ds with
  | [] => None
  | _ =>
      let leading_zero :=
        match ds with
        | 0 :: _ :: _ => true
        | _ => false
        end in
      let continues :=
        match rest with
        | String c _ =>
            let n := char_code c in (n =? 46) || (n =? 101) || (n =? 69)
        | EmptyString => false
        end in
      if leading_zero || continues then None
      else Some (sign * digits_value 10 ds, rest)
  end.

Definition parse_number (s : string) : option (Z * string) :=
  let '(sign, s1) := read_minus s in
  let '(ds, rest) := take_digits 10 s1 in
  integer_literal sign ds rest.

(** The rest of [s] after its first character, when that character has
    code [n]. *)
Definition after_char (n : Z) (s : string) : option string :=
  match s with
  | String c r => if char_code c =? n then Some r else None
  | EmptyString => None
  end.

Definition literal (word : string) (v : value) (s : string) : option (value * string) :=
  match strip_prefix word s with
  | Some rest => Some (v, rest)
  | None => None
  end.

(** One value, after optional white space. [elements] and [members]
    read what follows an opening bracket or brace that is not closed at
    once. *)
Definition value_step
    (elements : string -> option (list value * string))
    (members : string -> option (list (string * value) * string))
    (s : string) : option (value * string) :=
  match skip_ws s with
  | EmptyString => None
  | String c r as s0 =>
      let n := char_code c in
      if n =? 110 then literal "null" VNull s0
      else if n =? 116 then literal "true" (VBool true) s0
      else if n =? 102 then literal "false" (VBool false) s0
      else if n =? 34 then
        match parse_string_body r with
        | Some (t, rest) => Some (VStr t, rest)
        | None => None
        end
      else if n =? 91 then
        let r0 := skip_ws r in
        match after_char 93 r0 with
        | Some rest => Some (VArr [], rest)
        | None =>
            match elements r0 with
            | Some (vs, rest) => Some (VArr vs, rest)
            | None => None
            end
        end
      else if n =? 123 then
        let r0 := skip_ws r in
        match after_char 125 r0 with
        | Some rest => Some (VObj [], rest)
        | None =>
            match members r0 with
            | Some (ps, rest) => Some (VObj ps, rest)
            | None => None
            end
        end
      else
        match parse_number s0 with
        | Some (z, rest) => Some (VNum z, rest)
        | None => None
        end
  end.

(** One element and what follows it: a comma and more elements, or the
    closing bracket. *)
Definition elements_step
    (value1 : string -> option (value * string))
    (elements : string -> option (list value * string))
    (s : string) : option (list value * string) :=
  match value1 s with
  | Some (v, r) =>
      let r0 := skip_ws r in
      match after_char 44 r0 with
      | Some r' =>
          match elements r' with
          | Some (vs, rest) => Some (v :: vs, rest)
          | None => None
          end
      | None =>
          match after_char 93 r0 with
          | Some rest => Some ([v], rest)
          | None => None
          end
      end
  | None => None
  end.

(** One member [key : value] and what follows it: a comma and more
    members, or the closing brace. *)
Definition members_step
    (value1 : string -> option (value * string))
    (members : string -> option (list (string * value) * string))
    (s : string) : option (list (string * value) * string) :=
  match after_char 34 (skip_ws s) with
  | Some r =>
      match parse_string_body r with
      | Some (k, r1) =>
          match after_char 58 (skip_ws r1) with
          | Some r2 =>
              match value1 r2 with
              | Some (v, r3) =>
                  let r0 := skip_ws r3 in
                  match after_char 44 r0 with
                  | Some r4 =>
                      match members r4 with
                      | Some (ps, rest) => Some ((k, v) :: ps, rest)
                      | None => None
                      end
                  | None =>
                      match after_char 125 r0 with
                      | Some rest => Some ([(k, v)], rest)
                      | None => None
                      end
                  end
              | None => None
              end
          | None => None
          end
      | None => None
      end
  | None => None
  end.

(** Recursive descent over the text; [fuel] bounds the nesting of calls. *)
Fixpoint parse_value (fuel : nat) (s : string) : option (value * string) :=
  match fuel with
  | O => None
  | S fuel' =>
      value_step (fun r => parse_elements fuel' r) (fun r => parse_members fuel' r) s
  end
with parse_elements (fuel : nat) (s : string) : option (list value * string) :=
  match fuel with
  | O => None
  | S fuel' =>
      elements_step (fun r => parse_value fuel' r) (fun r => parse_elements fuel' r) s
  end
with parse_members (fuel : nat) (s : string) : option (list (string * value) * string) :=
  match fuel with
  | O => None
  | S fuel' =>
      members_step (fun r => parse_value fuel' r) (fun r => parse_members fuel' r) s
  end.

(** [JSON.parse(text)]; [None] is a thrown [SyntaxError]. *)
Definition JSON_parse (text : string) : option value :=
  match parse_value (2 * String.length text + 2) text with
  | Some (v, rest) =>
      match skip_ws rest with
      | EmptyString => Some v
      | _ => None
      end
  | None => None
  end.

(** ** Effects: exceptions, [localStorage], the network *)

Inductive js_error : Type :=
  | Error (message : string)
  | TypeError (message : string)
  | SyntaxError (message : string)
  | QuotaExceededError.

Inductive completion (A : Type) : Type :=
  | Normal (a : A)
  | Throw (e : js_error).
Arguments Normal {A} a.
Arguments Throw {A} e.

(** What a call can observe and change: the items of [localStorage],
    the number of characters the origin may store, and the URLs passed
    to [fetch] so far, oldest first. *)
Record world : Type := mkWorld {
  storage : gmap string string;
  quota : N;
  calls : list string
}.

Definition with_storage (m : gmap string string) (w : world) : world :=
  mkWorld m (quota w) (calls w).

Definition with_call (url : string) (w : world) : world :=
  mkWorld (storage w) (quota w) (calls w ++ [url]).

(** A computation: runs in a world, completes normally or abruptly, and
    leaves a world. An [await] is sequencing. *)
Definition M (A : Type) : Type := world -> completion A * world.

Definition ret {A} (a : A) : M A := fun w => (Normal a, w).
Definition throw {A} (e : js_error) : M A := fun w => (Throw e, w).
Definition bind {A B} (m : M A) (k : A -> M B) : M B :=
  fun w => match m w with
           | (Normal a, w') => k a w'
           | (Throw e, w') => (Throw e, w')
           end.

(** [try { m } catch (e) { h e }]: what [m] did to the world before it
    threw stays done. *)
Definition try_catch {A} (m : M A) (h : js_error -> M A) : M A :=
  fun w => match m w with
           | (Normal a, w') => (Normal a, w')
           | (Throw e, w') => h e w'
           end.

Notation "'let*' x ':=' m 'in' k" := (bind m (fun x => k))
  (at level 10, x name, m at level 100, k at level 200).

Fixpoint mapM {A B} (f : A -> M B) (l : list A) : M (list B) :=
  match l with
  | [] => ret []
  | x :: rest =>
      let* y := f x in
      let* ys := mapM f rest in
      ret (y :: ys)
  end.

(** Characters held by the store: keys and values. *)
Definition usage (m : gmap string string) : N :=
  map_fold (fun k v acc => (N.of_nat (String.length k + String.length v) + acc)%N) 0%N m.

Definition getItem (k : string) : M (option string) :=
  fun w => (Normal (storage w !! k), w).

(** [localStorage.setItem]: throws and stores nothing when the new
    content would exceed the quota. *)
Definition setItem (k v : string) : M unit :=
  fun w =>
    let m := <[k := v]> (storage w) in
    if (usage m <=? quota w)%N
    then (Normal tt, with_storage m w)
    else (Throw QuotaExceededError, w).

Definition removeItem (k : string) : M unit :=
  fun w => (Normal tt, with_storage (delete k (storage w)) w).

(** [v.k] where [v] may be [null] or [undefined]. *)
Definition member (v : value) (k : string) : M value :=
  match v with
  | VUndefined | VNull => throw (TypeError "Cannot read properties")
  | _ => ret (get_prop v k)
  end.

(** The receiver of a string method. *)
Definition as_string (v : value) : M string :=
  match v with
  | VStr s => ret s
  | VUndefined | VNull => throw (TypeError "Cannot read properties")
  | _ => throw (TypeError "is not a function")
  end.

(** The receiver of [map]. *)
Definition as_array (v : value) : M (list value) :=
  match v with
  | VArr l => ret l
  | VUndefined | VNull => throw (TypeError "Cannot read properties")
  | _ => throw (TypeError "is not a function")
  end.

(** An HTTP response: the status and the body as [response.json()]
    reads it ([None]: the body is no JSON text). *)
Record response : Type := mkResponse {
  status : Z;
  body : option value
}.

Definition ok (r : response) : bool := (200 <=? status r) && (status r <=? 299).

Definition response_json (r : response) : M value :=
  match body r with
  | Some v => ret v
  | None => throw (SyntaxError "Unexpected token")
  end.

(** What lies outside one run of the pipeline: the answer of the
    network to each URL ([None]: no response at all), whether the
    timeout timer settles before the network call does, the clock when
    the cache is read and when it is written, and the current year. *)
Record env : Type := mkEnv {
  network : string -> option response;
  timer_first : bool;
  clock_read : Z;
  clock_write : Z;
  current_year : Z
}.

Definition fetch (e : env) (url : string) : M response :=
  fun w =>
    match network e url with
    | Some r => (Normal r, with_call url w)
    | None => (Throw (TypeError "Failed to fetch"), with_call url w)
    end.

(** [Promise.race([p, timer])] with a timer that rejects with [late]:
    [p] runs either way; its outcome is observed only when it settles
    before the timer. *)
Definition race_timeout {A} (e : env) (p : M A) (late : js_error) : M A :=
  fun w =>
    let '(r, w') := p w in
    if timer_first e then (Throw late, w') else (r, w').

(** ** Methods of arrays and strings used by the lookups *)

(** [Array.isArray] *)
Definition isArray (v : value) : bool :=
  match v with
  | VArr _ => true
  | _ => false
  end.

(** [v === s] where [s] is a string. *)
Definition strict_equals_string (v : value) (s : string) : bool :=
  match v with
  | VStr t => String.eqb t s
  | _ => false
  end.

Definition starts_with (p s : string) : bool :=
  match strip_prefix p s with
  | Some _ => true
  | None => false
  end.

(** [String.prototype.includes] *)
Fixpoint includes (s sub : string) : bool :=
  starts_with sub s
  || match s with
     | EmptyString => false
     | String _ r => includes r sub
     end.

(** [Array.prototype.find] with a callback that may throw: the first
    element the callback accepts, [undefined] when there is none. The
    elements after it are not visited. *)
Fixpoint array_find (f : value -> M bool) (l : list value) : M value :=
  match l with
  | [] => ret VUndefined
  | x :: rest =>
      let* b := f x in
      if b then ret x else array_find f rest
  end.

(** [Array.prototype.filter] with a callback that may throw. *)
Fixpoint array_filter (f : value -> M bool) (l : list value) : M (list value) :=
  match l with
  | [] => ret []
  | x :: rest =>
      let* b := f x in
      let* kept := array_filter f rest in
      ret (if b then x :: kept else kept)
  end.

(** ToString where the conversion goes through the members of the
    value: in a template literal and in a call of [v.toString()] on a
    value that is neither [null] nor [undefined]. An array joins the
    texts of its elements. An object without an own member [toString]
    uses the inherited method; an own member of that name hides it, and
    in data read from JSON it is nothing that can be called, so the
    conversion throws a TypeError ([None]). *)
Fixpoint to_primitive_string (v : value) : option string :=
  match v with
  | VArr l =>
      option_map join_comma
        ((fix texts (l : list value) : option (list string) :=
            match l with
            | [] => Some []
            | x :: rest =>
                match (match x with
                       | VUndefined | VNull => Some ""
                       | _ => to_primitive_string x
                       end), texts rest with
                | Some t, Some ts => Some (t :: ts)
                | _, _ => None
                end
            end) l)
  | VObj ps =>
      match own_prop ps "toString" with
      | None => Some "[object Object]"
      | Some _ => None
      end
  | _ => Some (toString v)
  end.

Definition string_of (v : value) : M string :=
  match to_primitive_string v with
  | Some t => ret t
  | None => throw (TypeError "Cannot convert object to primitive value")
  end.

(** [parseInt(v)]: the argument is converted to a string first, and
    that conversion throws where [string_of] does; [None] is NaN. *)
Definition parseInt (v : value) : M (option Z) :=
  let* text := string_of v in
  ret (parseInt_string text).

(** The own enumerable properties an object spread [{...v}] copies:
    the members of an object, the elements of an array and the
    characters of a string under their indices, nothing for the rest. *)
Fixpoint indexed {A} (from : nat) (l : list A) : list (string * A) :=
  match l with
  | [] => []
  | x :: rest => (number_toString (Z.of_nat from), x) :: indexed (S from) rest
  end.

Fixpoint characters (s : string) : list value :=
  match s with
  | EmptyString => []
  | String c r => VStr (String c EmptyString) :: characters r
  end.

Definition spread (v : value) : list (string * value) :=
  match v with
  | VObj ps => ps
  | VArr l => indexed 0 l
  | VStr s => indexed 0 (characters s)
  | _ => []
  end.

(** A decimal digit, and a word character of a regular expression
    ([\w]: letters, digits and the underscore). *)
Definition is_digit (c : ascii) : bool :=
  let n := char_code c in (48 <=? n) && (n <=? 57).

Definition is_word (c : ascii) : bool :=
  let n := char_code c in
  is_digit c || ((65 <=? n) && (n <=? 90)) || ((97 <=? n) && (n <=? 122))
  || (n =? 95).

(** The length of the longest prefix of digits. *)
Fixpoint digit_run (s : string) : nat :=
  match s with
  | EmptyString => O
  | String c r => if is_digit c then S (digit_run r) else O
  end.

(** [s.replace(/\B(?=(\d{3})+(?!\d))/g, ',')]: a comma is put at every
    position that is not a word boundary and is followed by a run of
    digits whose length is a positive multiple of three. Such a
    position has a digit after it, so it is no word boundary exactly
    when a word character comes before it; [prev_word] tells that. *)
Fixpoint group_digits_go (prev_word : bool) (s : string) : string :=
  match s with
  | EmptyString => EmptyString
  | String c r =>
      let rest := String c (group_digits_go (is_word c) r) in
      if prev_word && negb (Nat.eqb (digit_run s) 0)
         && Nat.eqb (Nat.modulo (digit_run s) 3) 0
      then String "," rest
      else rest
  end.

Definition group_digits (s : string) : string := group_digits_go false s.

End Host.
Import Host.

(** * [js/data-fetcher.js] *)

Module DataFetcher.

Definition CACHE_KEY : string := "f1_teams_cache".
Definition CACHE_TIMESTAMP_KEY : string := "f1_teams_cache_timestamp".
Definition CACHE_DURATION : Z := 24 * 60 * 60 * 1000.
Definition FETCH_TIMEOUT : Z := 5000.

Definition ERGAST_TEAMS_URL : string := "http://ergast.com/api/f1/current/teams.json".
Definition FALLBACK_URL : string := "data/teams.json".

(** The object literal [colors] of [getTeamAccentColor]. *)
Definition colors : value :=
  VObj [("mercedes", VStr "#00D4BE");
        ("red bull", VStr "#0600EF");
        ("ferrari", VStr "#FF1801");
        ("mclaren", VStr "#FF8700");
        ("alpine", VStr "#0093D0");
        ("aston martin", VStr "#006F62");
        ("williams", VStr "#005AFF");
        ("alfa romeo", VStr "#900000");
        ("haas", VStr "#FFFFFF");
        ("alpha tauri", VStr "#2B4562")].

Definition getTeamAccentColor (teamName : string) : value :=
  let normalized := trim (toLowerCase teamName) in
  js_or (get_prop colors normalized) (VStr "#FF1801").

Definition clearCache : M unit :=
  try_catch
    (let* _ := removeItem CACHE_KEY in
     removeItem CACHE_TIMESTAMP_KEY)
    (fun error => ret tt).

(** [setItem] receives a string: [JSON.stringify]'s [undefined] is
    stored as the text of that word. *)
Definition stringify_text (v : value) : string :=
  match JSON_stringify v with
  | Some t => t
  | None => "undefined"
  end.

Definition cacheTeams (now : Z) (teamsArray : value) : M unit :=
  try_catch
    (let* _ := setItem CACHE_KEY (stringify_text teamsArray) in
     setItem CACHE_TIMESTAMP_KEY (number_toString now))
    (fun error => ret tt).

(** [Date.now() - parseInt(timestamp) > CACHE_DURATION]; a comparison
    with NaN is false. *)
Definition older_than_duration (now : Z) (timestamp : string) : bool :=
  match parseInt_string timestamp with
  | Some t => CACHE_DURATION <? now - t
  | None => false
  end.

(** [!s] on the result of [getItem]: [null] and the empty string. *)
Definition item_missing (s : option string) : bool :=
  match s with
  | None => true
  | Some t => String.eqb t ""
  end.

Definition JSON_parse_or_throw (text : string) : M value :=
  match JSON_parse text with
  | Some v => ret v
  | None => throw (SyntaxError "Unexpected token")
  end.

Definition getCachedTeams (now : Z) : M value :=
  try_catch
    (let* timestamp := getItem CACHE_TIMESTAMP_KEY in
     match timestamp with
     | None => ret VNull
     | Some ts =>
         if String.eqb ts "" then ret VNull
         else if older_than_duration now ts
         then let* _ := clearCache in ret VNull
         else
           let* cachedData := getItem CACHE_KEY in
           match cachedData with
           | None => ret VNull
           | Some text =>
               if String.eqb text "" then ret VNull
               else JSON_parse_or_throw text
           end
     end)
    (fun error => let* _ := clearCache in ret VNull).

Definition isCacheExpired (now : Z) : M bool :=
  try_catch
    (let* timestamp := getItem CACHE_TIMESTAMP_KEY in
     match timestamp with
     | None => ret true
     | Some ts =>
         if String.eqb ts "" then ret true
         else ret (older_than_duration now ts)
     end)
    (fun error => ret true).

(** The callback of [Teams.map] in [fetchFromErgastAPI]. *)
Definition ergast_team (e : env) (team : value) : M value :=
  let* name0 := member team "name" in
  let* name := as_string name0 in
  let slug := replace_ws_hyphen (toLowerCase name) in
  let* established := parseInt (get_prop team "established") in
  ret (VObj
    [("id", VStr slug);
     ("name", get_prop team "name");
     ("logo", VStr ("/images/logos/" ++ slug ++ ".svg"));
     ("country", get_prop team "nationality");
     ("founded", match established with
                 | Some n => if n =? 0 then VNum (current_year e) else VNum n
                 | None => VNum (current_year e)
                 end);
     ("principal", VStr "Team Principal");
     ("powerUnit", js_or (get_prop team "constructor") (VStr "Mercedes"));
     ("championships", VNum 0);
     ("wins", VNum 0);
     ("podiums", VNum 0);
     ("accent_color", getTeamAccentColor name);
     ("drivers", VArr []);
     ("website", js_or (get_prop team "url") (VStr "#"));
     ("social", VObj [("twitter", VStr "#"); ("instagram", VStr "#")])]).

(** The first [then] callback of [fetchFromErgastAPI], on the response. *)
Definition ergast_on_response (response : response) : M value :=
  if negb (ok response)
  then throw (Error ("HTTP error! status: " ++ number_toString (status response)))
  else response_json response.

(** The second [then] callback, on the parsed body. *)
Definition ergast_on_data (e : env) (data : value) : M value :=
  let* mrdata := member data "MRData" in
  if negb (truthy mrdata)
     || negb (truthy (get_prop mrdata "TeamTable"))
     || negb (truthy (get_prop (get_prop mrdata "TeamTable") "Teams"))
  then throw (Error "Invalid API response structure")
  else
    let* teams := as_array (get_prop (get_prop mrdata "TeamTable") "Teams") in
    let* records := mapM (ergast_team e) teams in
    ret (VArr records).

(** [fetch(url).then(...).then(...)] *)
Definition ergast_chain (e : env) : M value :=
  let* response := fetch e ERGAST_TEAMS_URL in
  let* data := ergast_on_response response in
  ergast_on_data e data.

Definition fetchFromErgastAPI (e : env) : M value :=
  race_timeout e (ergast_chain e) (Error "Fetch timeout").

Definition fetchFallbackJSON (e : env) : M value :=
  try_catch
    (let* response := fetch e FALLBACK_URL in
     if negb (ok response)
     then throw (Error ("HTTP error! status: " ++ number_toString (status response)))
     else response_json response)
    (fun error => ret VNull).

(** [x && x.length > 0] *)
Definition has_items (x : value) : bool :=
  truthy x && greater_than_zero (get_prop x "length").

Definition fetchTeamsData (e : env) : M value :=
  try_catch
    (let* cachedData := getCachedTeams (clock_read e) in
     if truthy cachedData then ret cachedData
     else
       let* fromApi :=
         try_catch
           (let* apiData := fetchFromErgastAPI e in
            if has_items apiData
            then let* _ := cacheTeams (clock_write e) apiData in
                 ret (Some apiData)
            else ret None)
           (fun apiError => ret None) in
       match fromApi with
       | Some apiData => ret apiData
       | None =>
           let* fallbackData := fetchFallbackJSON e in
           if truthy fallbackData && has_items (get_prop fallbackData "teams")
           then let* _ := cacheTeams (clock_write e) (get_prop fallbackData "teams") in
                ret (get_prop fallbackData "teams")
           else ret (VArr [])
       end)
    (fun error => ret (VArr [])).

(** The callback of [find] in [getTeamById]:
    [team.id === teamId.toLowerCase()]. *)
Definition id_matches (teamId team : value) : M bool :=
  let* id := member team "id" in
  let* wanted := as_string teamId in
  ret (strict_equals_string id (toLowerCase wanted)).

Definition getTeamById (teamId teamsArray : value) : M value :=
  if negb (truthy teamsArray) || negb (isArray teamsArray) then ret VNull
  else
    let* teams := as_array teamsArray in
    let* found := array_find (id_matches teamId) teams in
    ret (js_or found VNull).

(** The callback of [find] in [getTeamByName]:
    [team.name.toLowerCase() === teamName.toLowerCase()]. *)
Definition name_matches (teamName team : value) : M bool :=
  let* name0 := member team "name" in
  let* name := as_string name0 in
  let* wanted := as_string teamName in
  ret (String.eqb (toLowerCase name) (toLowerCase wanted)).

Definition getTeamByName (teamName teamsArray : value) : M value :=
  if negb (truthy teamsArray) || negb (isArray teamsArray) then ret VNull
  else
    let* teams := as_array teamsArray in
    let* found := array_find (name_matches teamName) teams in
    ret (js_or found VNull).

(** The callback of [filter] in [filterTeams]; the country is looked at
    only when the name does not hold the query. *)
Definition team_matches (lowerQuery : string) (team : value) : M bool :=
  let* name0 := member team "name" in
  let* name := as_string name0 in
  if includes (toLowerCase name) lowerQuery then ret true
  else
    let* country0 := member team "country" in
    let* country := as_string country0 in
    ret (includes (toLowerCase country) lowerQuery).

Definition filterTeams (query teamsArray : value) : M value :=
  if negb (truthy query) || negb (truthy teamsArray) || negb (isArray teamsArray)
  then ret (js_or teamsArray (VArr []))
  else
    let* query_text := as_string query in
    let lowerQuery := toLowerCase query_text in
    let* teams := as_array teamsArray in
    let* kept := array_filter (team_matches lowerQuery) teams in
    ret (VArr kept).

Definition ERGAST_DRIVERS_URL : string := "http://ergast.com/api/f1/current/drivers.json".

(** The callback of [Drivers.map] in [fetchDriverData]. *)
Definition ergast_driver (driver : value) : M value :=
  let* id := member driver "driverId" in
  let* given := string_of (get_prop driver "givenName") in
  let* family := string_of (get_prop driver "familyName") in
  let* id_text := string_of id in
  ret (VObj
    [("id", id);
     ("name", VStr (given ++ " " ++ family));
     ("number", js_or (get_prop driver "permanentNumber") (VStr "0"));
     ("nationality", get_prop driver "nationality");
     ("image", VStr ("/images/drivers/" ++ id_text ++ ".jpg"));
     ("points", VNum 0);
     ("races", VNum 0);
     ("wins", VNum 0)]).

(** [teamId] is a parameter the body never reads. *)
Definition fetchDriverData (e : env) (teamId : value) : M value :=
  try_catch
    (let* response := race_timeout e (fetch e ERGAST_DRIVERS_URL) (Error "Fetch timeout") in
     if negb (ok response)
     then throw (Error ("HTTP error! status: " ++ number_toString (status response)))
     else
       let* data := response_json response in
       let* mrdata := member data "MRData" in
       if truthy mrdata
          && truthy (get_prop mrdata "DriverTable")
          && truthy (get_prop (get_prop mrdata "DriverTable") "Drivers")
       then
         let* drivers := as_array (get_prop (get_prop mrdata "DriverTable") "Drivers") in
         let* records := mapM ergast_driver drivers in
         ret (VArr records)
       else ret (VArr []))
    (fun error => ret (VArr [])).

End DataFetcher.

(** * [utils.js] *)

Module Utils.

Definition colors : value :=
  VObj [("mercedes", VStr "#00D4BE");
        ("red bull", VStr "#0600EF");
        ("redbull", VStr "#0600EF");
        ("ferrari", VStr "#FF1801");
        ("mclaren", VStr "#FF8700");
        ("alpine", VStr "#0093D0");
        ("aston martin", VStr "#006F62");
        ("astonmartin", VStr "#006F62");
        ("williams", VStr "#005AFF");
        ("alfa romeo", VStr "#900000");
        ("alfaromeo", VStr "#900000");
        ("haas", VStr "#FFFFFF");
        ("alpha tauri", VStr "#2B4562");
        ("alphatauri", VStr "#2B4562")].

Definition getTeamAccentColor (teamName : string) : value :=
  let normalizedName := trim (toLowerCase teamName) in
  js_or (get_prop colors normalizedName) (VStr "#FF1801").

Definition getTeamId (teamName : string) : string :=
  replace_ws_hyphen (toLowerCase teamName).

(** [timestamp && (Date.now() - timestamp) < CACHE_DURATION] on a
    number: the number itself when it is zero, else the comparison. *)
Definition isCacheValid (now : Z) (timestamp : Z) : value :=
  let CACHE_DURATION := 24 * 60 * 60 * 1000 in
  if timestamp =? 0 then VNum timestamp
  else VBool (now - timestamp <? CACHE_DURATION).

(** The callback of [Teams.map] in [parseErgastData]. *)
Definition parse_team (year : Z) (team : value) : M value :=
  let* name0 := member team "name" in
  let* name := as_string name0 in
  let* established := parseInt (get_prop team "established") in
  ret (VObj
    [("id", VStr (getTeamId name));
     ("name", get_prop team "name");
     ("country", get_prop team "nationality");
     ("founded", match established with
                 | Some n => if n =? 0 then VNum year else VNum n
                 | None => VNum year
                 end);
     ("principal", VStr "Team Principal");
     ("powerUnit", js_or (get_prop team "constructor") (VStr "Unknown"));
     ("championships", VNum 0);
     ("wins", VNum 0);
     ("podiums", VNum 0);
     ("drivers", VArr []);
     ("website", js_or (get_prop team "url") (VStr "#"));
     ("accent_color", getTeamAccentColor name)]).

Definition parseErgastData (year : Z) (apiResponse : value) : M value :=
  if negb (truthy apiResponse)
     || negb (truthy (get_prop apiResponse "MRData"))
     || negb (truthy (get_prop (get_prop apiResponse "MRData") "TeamTable"))
     || negb (truthy (get_prop (get_prop (get_prop apiResponse "MRData") "TeamTable") "Teams"))
  then ret VNull
  else
    let* teams := as_array (get_prop (get_prop (get_prop apiResponse "MRData") "TeamTable") "Teams") in
    let* records := mapM (parse_team year) teams in
    ret (VArr records).

(** [formatNumber], also in [js/ui-renderer.js]. *)
Definition formatNumber (num : value) : M string :=
  if negb (truthy num) then ret "0"
  else
    let* text := string_of num in
    ret (group_digits text).

End Utils.

(** * [js/drivers.js] *)

Module Drivers.

(** The object pushed for one driver of a team:
    [{ ...driver, teamId, teamName, teamColor, teamLogo }]. *)
Definition driver_of_team (team driver : value) : value :=
  VObj (spread driver ++
        [("teamId", get_prop team "id");
         ("teamName", get_prop team "name");
         ("teamColor", get_prop team "accent_color");
         ("teamLogo", get_prop team "logo")]).

(** The callback of [teams.forEach]: the objects it pushes. *)
Definition drivers_of_team (team : value) : M (list value) :=
  let* drivers := member team "drivers" in
  if truthy drivers && isArray drivers
  then
    let* l := as_array drivers in
    ret (List.map (driver_of_team team) l)
  else ret [].

Definition extractAllDrivers (teams : value) : M value :=
  let* l := as_array teams in
  let* pushed := mapM drivers_of_team l in
  ret (VArr (concat pushed)).

End Drivers.

(** * Predicates and runs the properties are stated with *)

Module Spec.
Import DataFetcher.

(** Storage after [clearCache]. *)
Definition purged (w : world) : world :=
  with_storage (delete CACHE_TIMESTAMP_KEY (delete CACHE_KEY (storage w))) w.

Definition has_key (k : string) (w : world) : bool :=
  match storage w !! k with
  | Some _ => true
  | None => false
  end.

(** The store accepts [setItem k v]. *)
Definition fits (k v : string) (w : world) : bool :=
  (usage (<[k := v]> (storage w)) <=? quota w)%N.

(** Storage after a cache write whose two stores both succeed. *)
Definition written (now : Z) (teams : value) (w : world) : world :=
  with_storage (<[CACHE_TIMESTAMP_KEY := number_toString now]>
                 (<[CACHE_KEY := stringify_text teams]> (storage w))) w.

(** The fallback document has no team to offer: there is no document,
    or its [teams] member is missing, [null] or an empty list. *)
Definition no_teams (d : value) : bool :=
  match d with
  | VNull => true
  | _ => match get_prop d "teams" with
         | VUndefined | VNull | VArr [] => true
         | _ => false
         end
  end.

(** The member [MRData.TeamTable.Teams] of a response body, read
    through own properties of objects; [None] when the body has no such
    nested member. *)
Definition envelope_member (data : value) : option value :=
  match data with
  | VObj ps =>
      match own_prop ps "MRData" with
      | Some (VObj m) =>
          match own_prop m "TeamTable" with
          | Some (VObj t) => own_prop t "Teams"
          | _ => None
          end
      | _ => None
      end
  | _ => None
  end.

(** The body lacks the envelope: the nested member is not there, or it
    is there with a falsy value ([null], [false], [0], empty string). *)
Definition envelope_missing (data : value) : bool :=
  match envelope_member data with
  | Some x => negb (truthy x)
  | None => true
  end.

(** The list of upstream teams of a body with the expected envelope. *)
Definition envelope_teams (data : value) : option (list value) :=
  match envelope_member data with
  | Some (VArr l) => Some l
  | _ => None
  end.

(** The own property [k] of a table of colours. *)
Definition own_color (table : value) (k : string) : option value :=
  match table with
  | VObj ps => own_prop ps k
  | _ => None
  end.

(** The string has an upper-case letter. *)
Fixpoint has_upper (s : string) : bool :=
  match s with
  | EmptyString => false
  | String c r => is_upper c || has_upper r
  end.

(** The fields of a normalized record that the design fixes. *)
Definition normalized_from (name : string) (record : value) : Prop :=
  get_prop record "id" = VStr (replace_ws_hyphen (toLowerCase name))
  /\ get_prop record "name" = VStr name
  /\ get_prop record "championships" = VNum 0
  /\ get_prop record "wins" = VNum 0
  /\ get_prop record "podiums" = VNum 0
  /\ get_prop record "drivers" = VArr []
  /\ get_prop record "accent_color" = getTeamAccentColor name.

(** The teams of a well-formed response, each with its display name. *)
Definition named (team : value) (name : string) : Prop :=
  get_prop team "name" = VStr name.

(** [parseInt] can read the founding year of the team: the member
    [established] is missing, a string, a number, or another value
    whose conversion to a string does not throw. *)
Definition year_readable (team : value) : bool :=
  match to_primitive_string (get_prop team "established") with
  | Some _ => true
  | None => false
  end.

(** Sequences of Cache Store operations. *)
Inductive cache_op : Type :=
  | Write (now : Z) (teams : value)
  | Read (now : Z)
  | Purge.

Definition run_op (op : cache_op) : M unit :=
  match op with
  | Write now teams => cacheTeams now teams
  | Read now => let* _ := getCachedTeams now in ret tt
  | Purge => clearCache
  end.

Fixpoint run_ops (ops : list cache_op) (w : world) : world :=
  match ops with
  | [] => w
  | op :: rest => run_ops rest (snd (run_op op w))
  end.

(** The timestamp is never there without the payload. *)
Definition timestamp_has_payload (w : world) : Prop :=
  has_key CACHE_TIMESTAMP_KEY w = true -> has_key CACHE_KEY w = true.

(** Runs of the pipeline, one environment per page load. *)
Fixpoint run_pipeline (es : list env) (w : world) : world :=
  match es with
  | [] => w
  | e :: rest => run_pipeline rest (snd (fetchTeamsData e w))
  end.

(** A value that is a list or is falsy. *)
Definition list_or_falsy (x : value) : bool :=
  match x with
  | VArr _ => true
  | _ => negb (truthy x)
  end.

(** The static file has the shape the design gives it: its [teams]
    member, when there is one, is a list. *)
Definition fallback_teams_is_list (e : env) : bool :=
  match network e FALLBACK_URL with
  | Some r =>
      match body r with
      | Some doc => list_or_falsy (get_prop doc "teams")
      | None => true
      end
  | None => true
  end.

(** The payload key, when present, holds the text of a non-empty list. *)
Definition payload_is_list (w : world) : Prop :=
  match storage w !! CACHE_KEY with
  | None => True
  | Some text => exists x l, text = stringify_text (VArr (x :: l))
  end.

(** The last stage of the pipeline, from the fallback fetch on. *)
Definition fallback_stage (e : env) : M value :=
  let* fallbackData := fetchFallbackJSON e in
  if truthy fallbackData && has_items (get_prop fallbackData "teams")
  then let* _ := cacheTeams (clock_write e) (get_prop fallbackData "teams") in
       ret (get_prop fallbackData "teams")
  else ret (VArr []).

(** The string has a white space character. *)
Fixpoint has_space (s : string) : bool :=
  match s with
  | EmptyString => false
  | String c r => is_space c || has_space r
  end.

(** The string is made of decimal digits. *)
Fixpoint all_digits (s : string) : bool :=
  match s with
  | EmptyString => true
  | String c r => is_digit c && all_digits r
  end.

(** The string without its commas. *)
Fixpoint strip_commas (s : string) : string :=
  match s with
  | EmptyString => EmptyString
  | String c r => if Ascii.eqb c "," then strip_commas r else String c (strip_commas r)
  end.

(** The character of a decimal digit, and the last three decimal digits
    of a number. *)
Definition digit_char (d : Z) : ascii := from_char_code (48 + d).

Definition last_three (n : Z) : string :=
  String (digit_char (n / 100 mod 10))
    (String (digit_char (n / 10 mod 10))
       (String (digit_char (n mod 10)) EmptyString)).

(** A team record with a display name and a country, both strings. *)
Definition team_texts (team : value) (name country : string) : Prop :=
  get_prop team "name" = VStr name /\ get_prop team "country" = VStr country.

(** The team holds the lower-case query in its name or in its country. *)
Definition holds_query (lowerQuery : string) (team : value) : Prop :=
  exists name, get_prop team "name" = VStr name
    /\ (includes (toLowerCase name) lowerQuery = true
        \/ exists country, get_prop team "country" = VStr country
             /\ includes (toLowerCase country) lowerQuery = true).

(** The member [MRData.DriverTable.Drivers] of a response body. *)
Definition drivers_member (data : value) : value :=
  get_prop (get_prop (get_prop data "MRData") "DriverTable") "Drivers".

(** An upstream driver with the three texts the record is built from. *)
Definition driver_texts (driver : value) (id given family : string) : Prop :=
  get_prop driver "driverId" = VStr id
  /\ get_prop driver "givenName" = VStr given
  /\ get_prop driver "familyName" = VStr family.

(** The record [fetchDriverData] makes of an upstream driver. *)
Definition driver_record (driver record : value) : Prop :=
  exists id given family,
    driver_texts driver id given family
    /\ get_prop record "id" = VStr id
    /\ get_prop record "name" = VStr (given ++ " " ++ family)
    /\ get_prop record "image" = VStr ("/images/drivers/" ++ id ++ ".jpg")
    /\ get_prop record "number" = js_or (get_prop driver "permanentNumber") (VStr "0")
    /\ get_prop record "points" = VNum 0
    /\ get_prop record "races" = VNum 0
    /\ get_prop record "wins" = VNum 0.

(** The drivers a team record lists. *)
Definition listed_drivers (team : value) : list value :=
  match get_prop team "drivers" with
  | VArr l => l
  | _ => []
  end.

(** The object made of a driver of a team: the [id], [name],
    [accent_color] and [logo] of that team under the four tag names,
    and under every other name what the driver has there (for a driver
    that is an object). *)
Definition tag_names : list string := ["teamId"; "teamName"; "teamColor"; "teamLogo"].

Definition tagged (team driver object : value) : Prop :=
  get_prop object "teamId" = get_prop team "id"
  /\ get_prop object "teamName" = get_prop team "name"
  /\ get_prop object "teamColor" = get_prop team "accent_color"
  /\ get_prop object "teamLogo" = get_prop team "logo"
  /\ (forall ps k, driver = VObj ps -> ~ In k tag_names ->
        get_prop object k = get_prop driver k).

(** Neither [null] nor [undefined]. *)
Definition defined (v : value) : bool :=
  match v with
  | VUndefined | VNull => false
  | _ => true
  end.

End Spec.

(** * The image of a value under [JSON.stringify] and [JSON.parse] *)

Module JsonText.

(** The digits of a decimal numeral, most significant first. *)
Fixpoint udigits (d : Decimal.uint) : list Z :=
  match d with
  | Nil => []
  | D0 d' => 0 :: udigits d'
  | D1 d' => 1 :: udigits d'
  | D2 d' => 2 :: udigits d'
  | D3 d' => 3 :: udigits d'
  | D4 d' => 4 :: udigits d'
  | D5 d' => 5 :: udigits d'
  | D6 d' => 6 :: udigits d'
  | D7 d' => 7 :: udigits d'
  | D8 d' => 8 :: udigits d'
  | D9 d' => 9 :: udigits d'
  end.

(** The text after a numeral does not go on as a numeral. *)
Definition stops (rest : string) : bool :=
  match rest with
  | EmptyString => true
  | String c _ =>
      match digit_value 10 c with
      | Some _ => false
      | None => let n := char_code c in
                negb ((n =? 46) || (n =? 101) || (n =? 69))
      end
  end.

Definition step10 (acc d : Z) : Z := acc * 10 + d.

(** What [JSON.parse] makes of the text of a value: the value itself,
    except that [undefined] and functions have become [null] in arrays
    and have left objects. *)
Fixpoint json_image (v : value) : value :=
  match v with
  | VArr l =>
      VArr (List.map (fun x => match x with
                               | VUndefined | VFunction _ => VNull
                               | _ => json_image x
                               end) l)
  | VObj ps =>
      VObj ((fix members (ps : list (string * value)) : list (string * value) :=
               match ps with
               | [] => []
               | (k, x) :: rest =>
                   match x with
                   | VUndefined | VFunction _ => members rest
                   | _ => (k, json_image x) :: members rest
                   end
               end) ps)
  | _ => v
  end.

(** The first character of the text of a value. *)
Definition value_start (c : ascii) : bool :=
  let n := char_code c in
  (n =? 110) || (n =? 116) || (n =? 102) || (n =? 34) || (n =? 91) || (n =? 123)
  || (n =? 45) || ((48 <=? n) && (n <=? 57)).

(** The text and the image of an array element and of the members of
    an object. *)
Definition elem_text (x : value) : string :=
  match JSON_stringify x with
  | Some t => t
  | None => "null"
  end.

Definition elem_image (x : value) : value :=
  match x with
  | VUndefined | VFunction _ => VNull
  | _ => json_image x
  end.

Definition written_out (x : value) : bool :=
  match x with
  | VUndefined | VFunction _ => false
  | _ => true
  end.

Definition kept (ps : list (string * value)) : list (string * value) :=
  List.filter (fun kx => written_out (snd kx)) ps.

Definition member_text (kx : string * value) : string :=
  quote (fst kx) ++ ":" ++ elem_text (snd kx).

Definition member_image (kx : string * value) : string * value :=
  (fst kx, json_image (snd kx)).

Definition reads_back (v : value) : Prop :=
  forall text rest fuel,
    JSON_stringify v = Some text -> stops rest = true ->
    (String.length text < fuel)%nat ->
    parse_value fuel (text ++ rest) = Some (json_image v, rest).

Definition element_reads_back (x : value) : Prop :=
  forall rest fuel,
    stops rest = true -> (String.length (elem_text x) < fuel)%nat ->
    parse_value fuel (elem_text x ++ rest) = Some (elem_image x, rest).

End JsonText.

(** * Stores and environments used as examples *)

Module Examples.
Import DataFetcher.

(** A store that holds a one-element list written at 1700000000000. *)
Definition boundary_world : world :=
  mkWorld (<[CACHE_TIMESTAMP_KEY := "1700000000000"]>
            (<[CACHE_KEY := "[1]"]> ∅)) 5000000 [].

(** A fresh origin: nothing stored, no call made. *)
Definition empty_world : world := mkWorld ∅ 5000000 [].

(** No network at all. *)
Definition offline : env :=
  mkEnv (fun _ => None) false 1700000000000 1700000000100 2024.

(** A network that answers every request with a team list the cache
    does not hold. *)
Definition online : env :=
  mkEnv (fun _ => Some (mkResponse 200
           (Some (VObj [("teams", VArr [VNum 2])]))))
        false 1700000000000 1700000000100 2024.

(** The remote source is unreachable and the static file holds two teams. *)
Definition fallback_only : env :=
  mkEnv (fun url => if String.eqb url FALLBACK_URL
                    then Some (mkResponse 200
                           (Some (VObj [("teams",
                              VArr [VObj [("id", VStr "ferrari")];
                                    VObj [("id", VStr "mclaren")]])])))
                    else None)
        false 1700000000000 1700000000100 2024.

(** The remote source is unreachable and the [teams] member of the
    static file is a text, not a list. *)
Definition fallback_text : env :=
  mkEnv (fun url => if String.eqb url FALLBACK_URL
                    then Some (mkResponse 200 (Some (VObj [("teams", VStr "ab")])))
                    else None)
        false 1700000000000 1700000000100 2024.

(** A store with a payload and no timestamp, and one with a fresh
    timestamp and no payload. *)
Definition payload_only_world : world :=
  mkWorld (<[CACHE_KEY := "[1]"]> ∅) 5000000 [].

Definition timestamp_only_world : world :=
  mkWorld (<[CACHE_TIMESTAMP_KEY := "1700000000000"]> ∅) 5000000 [].

(** An entry whose payload is cut off. *)
Definition corrupt_world : world :=
  mkWorld (<[CACHE_TIMESTAMP_KEY := "1700000000000"]>
            (<[CACHE_KEY := "[1,"]> ∅)) 5000000 [].

(** The service answers every request with the given response. *)
Definition answering (r : response) : env :=
  mkEnv (fun _ => Some r) false 1700000000000 1700000000100 2024.

(** The remote service lists one team, whose display name is the word
    constructor. *)
Definition team_named_constructor : value := VObj [("name", VStr "constructor")].

Definition constructor_response : response :=
  mkResponse 200
    (Some (VObj [("MRData",
       VObj [("TeamTable", VObj [("Teams", VArr [team_named_constructor])])])])).

(** A store with room for the payload and no room for the timestamp. *)
Definition tight_world : world := mkWorld ∅ 40 [].

(** A well-formed answer of the remote service with two teams. *)
Definition ergast_two_teams : response :=
  mkResponse 200
    (Some (VObj [("MRData",
       VObj [("TeamTable",
          VObj [("Teams",
             VArr [VObj [("name", VStr "Red Bull"); ("nationality", VStr "Austrian")];
                   VObj [("name", VStr "Ferrari"); ("nationality", VStr "Italian")]])])])])).

(** A store that holds the theme preference of the pages and no cache. *)
Definition themed_world : world :=
  mkWorld (<["f1_theme" := "light"]> ∅) 5000000 [].

(** The remote service answers well, after the timeout timer. *)
Definition slow_network : env :=
  mkEnv (fun _ => Some ergast_two_teams) true 1700000000000 1700000000100 2024.

(** An entry whose timestamp is no number. *)
Definition undated_world : world :=
  mkWorld (<[CACHE_TIMESTAMP_KEY := "yesterday"]>
            (<[CACHE_KEY := "[1]"]> ∅)) 5000000 [].

(** The remote service lists no team. *)
Definition ergast_no_teams : response :=
  mkResponse 200
    (Some (VObj [("MRData", VObj [("TeamTable", VObj [("Teams", VArr [])])])])).

(** Two teams as the static file lists them. *)
Definition ferrari : value :=
  VObj [("id", VStr "ferrari"); ("name", VStr "Ferrari"); ("country", VStr "Italy")].

Definition red_bull : value :=
  VObj [("id", VStr "red-bull"); ("name", VStr "Red Bull Racing"); ("country", VStr "Austria")].

(** A team whose id was stored with a capital letter. *)
Definition capital_id : value :=
  VObj [("id", VStr "McLaren"); ("name", VStr "McLaren"); ("country", VStr "United Kingdom")].

(** A team record without a country. *)
Definition stateless : value :=
  VObj [("id", VStr "haas"); ("name", VStr "Haas")].

(** An answer of the remote service with two drivers, the second
    without a permanent number. *)
Definition verstappen : value :=
  VObj [("driverId", VStr "max_verstappen"); ("permanentNumber", VStr "33");
        ("givenName", VStr "Max"); ("familyName", VStr "Verstappen");
        ("nationality", VStr "Dutch")].

Definition rookie : value :=
  VObj [("driverId", VStr "rookie"); ("givenName", VStr "A"); ("familyName", VStr "B")].

(** An upstream team whose founding year is an object that hides
    [toString]: [parseInt] cannot convert it. *)
Definition unreadable_year_team : value :=
  VObj [("name", VStr "Ferrari"); ("established", VObj [("toString", VNum 1)])].

Definition drivers_response (drivers : list value) : response :=
  mkResponse 200
    (Some (VObj [("MRData", VObj [("DriverTable", VObj [("Drivers", VArr drivers)])])])).

End Examples.

(** * Properties *)

Import DataFetcher Spec JsonText Examples.

(** Case analysis on the eight bits of a character. *)
Ltac ascii_cases c := destruct c as [[] [] [] [] [] [] [] []].

Section Cache.

Lemma clearCache_run (w : world) : clearCache w = (Normal tt, purged w).
Proof. reflexivity. Qed.

Lemma eqb_empty_false (s : string) : s <> "" -> String.eqb s "" = false.
Proof. intros H. now apply String.eqb_neq. Qed.

(** What a read does on a store that holds both keys. *)
Lemma getCachedTeams_entry (now : Z) (w : world) (ts text : string) :
  storage w !! CACHE_TIMESTAMP_KEY = Some ts -> ts <> "" ->
  storage w !! CACHE_KEY = Some text -> text <> "" ->
  getCachedTeams now w =
    if older_than_duration now ts then (Normal VNull, purged w)
    else match JSON_parse text with
         | Some v => (Normal v, w)
         | None => (Normal VNull, purged w)
         end.
Proof.
  intros Hts Hne Htext Hne'.
  unfold getCachedTeams, try_catch, bind, getItem.
  rewrite Hts, (eqb_empty_false _ Hne).
  destruct (older_than_duration now ts); [reflexivity|].
  rewrite Htext, (eqb_empty_false _ Hne').
  unfold JSON_parse_or_throw.
  destruct (JSON_parse text); reflexivity.
Qed.

End Cache.

(** C1. At an age of exactly 24 hours [getCachedTeams] still returns the
    stored payload, although the entry is no longer valid by the strict
    comparison that [isCacheValid] of [utils.js] makes at that moment. *)
Theorem getCachedTeams_age_24h_returns_payload
    (w : world) (ts text : string) (t : Z) (v : value) :
  storage w !! CACHE_TIMESTAMP_KEY = Some ts -> ts <> "" ->
  parseInt_string ts = Some t -> t <> 0 ->
  storage w !! CACHE_KEY = Some text -> text <> "" ->
  JSON_parse text = Some v ->
  getCachedTeams (t + CACHE_DURATION) w = (Normal v, w)
  /\ Utils.isCacheValid (t + CACHE_DURATION) t = VBool false.
Proof.
  intros Hts Hne Ht Ht0 Htext Hne' Hv. split.
  - rewrite (getCachedTeams_entry _ _ _ _ Hts Hne Htext Hne').
    unfold older_than_duration. rewrite Ht.
    replace (t + CACHE_DURATION - t) with CACHE_DURATION by lia.
    rewrite Z.ltb_irrefl, Hv. reflexivity.
  - unfold Utils.isCacheValid.
    destruct (Z.eqb_spec t 0) as [->|_]; [contradiction|].
    replace (t + CACHE_DURATION - t) with CACHE_DURATION by lia.
    reflexivity.
Qed.

Lemma getCachedTeams_age_24h_witness :
  getCachedTeams 1700086400000 boundary_world = (Normal (VArr [VNum 1]), boundary_world)
  /\ Utils.isCacheValid 1700086400000 1700000000000 = VBool false.
Proof.
  apply (getCachedTeams_age_24h_returns_payload boundary_world
           "1700000000000" "[1]" 1700000000000 (VArr [VNum 1]));
    try reflexivity; try discriminate.
Defined.

Section Pipeline.

Lemma mapM_world {A B} (f : A -> M B) (l : list A) (w : world) :
  (forall x w', snd (f x w') = w') -> snd (mapM f l w) = w.
Proof.
  intros Hf. revert w. induction l as [|x l IH]; intros w; simpl; [reflexivity|].
  unfold bind. specialize (Hf x w).
  destruct (f x w) as [[y|err] w1]; simpl in Hf; subst w1; [|reflexivity].
  specialize (IH w). destruct (mapM f l w) as [[ys|err] w2]; simpl in IH; subst; reflexivity.
Qed.

Lemma member_world (v : value) (k : string) (w : world) : snd (member v k w) = w.
Proof. destruct v; reflexivity. Qed.

Lemma as_string_world (v : value) (w : world) : snd (as_string v w) = w.
Proof. destruct v; reflexivity. Qed.

Lemma as_array_world (v : value) (w : world) : snd (as_array v w) = w.
Proof. destruct v; reflexivity. Qed.

Lemma parseInt_run (v : value) (w : world) :
  parseInt v w
    = match to_primitive_string v with
      | Some text => (Normal (parseInt_string text), w)
      | None => (Throw (TypeError "Cannot convert object to primitive value"), w)
      end.
Proof.
  unfold parseInt, string_of, bind. destruct (to_primitive_string v); reflexivity.
Qed.

Lemma parseInt_world (v : value) (w : world) : snd (parseInt v w) = w.
Proof. rewrite parseInt_run. destruct (to_primitive_string v); reflexivity. Qed.

Lemma ergast_team_world (e : env) (team : value) (w : world) :
  snd (ergast_team e team w) = w.
Proof.
  unfold ergast_team, bind.
  pose proof (member_world team "name" w) as H1.
  destruct (member team "name" w) as [[n|err] w1]; simpl in H1; subst; [|reflexivity].
  pose proof (as_string_world n w) as H2.
  destruct (as_string n w) as [[s|err] w1]; simpl in H2; subst; [|reflexivity].
  pose proof (parseInt_world (get_prop team "established") w) as H3.
  destruct (parseInt (get_prop team "established") w) as [[y|err] w1];
    simpl in H3; subst; reflexivity.
Qed.

(** The remote fetch calls the network once and touches nothing else. *)
Lemma fetchFromErgastAPI_world (e : env) (w : world) :
  snd (fetchFromErgastAPI e w) = with_call ERGAST_TEAMS_URL w.
Proof.
  unfold fetchFromErgastAPI, race_timeout.
  assert (H : snd (ergast_chain e w) = with_call ERGAST_TEAMS_URL w).
  { unfold ergast_chain, ergast_on_response, ergast_on_data, bind, fetch.
    destruct (network e ERGAST_TEAMS_URL) as [r|]; [|reflexivity].
    set (w1 := with_call ERGAST_TEAMS_URL w).
    destruct (ok r); simpl.
    - unfold response_json. destruct (body r) as [d|]; [|reflexivity]. simpl.
      pose proof (member_world d "MRData" w1) as H1.
      destruct (member d "MRData" w1) as [[m|err] w2]; simpl in H1; subst w2; [|reflexivity].
      match goal with |- context [if ?c then _ else _] => destruct c end; [reflexivity|].
      match goal with |- context [as_array ?x w1] =>
        pose proof (as_array_world x w1) as H2; destruct (as_array x w1) as [[l|err] w2] end;
        simpl in H2; subst w2; [|reflexivity].
      pose proof (mapM_world (ergast_team e) l w1 (ergast_team_world e)) as H3.
      destruct (mapM (ergast_team e) l w1) as [[rs|err] w2]; simpl in H3; subst w2; reflexivity.
    - reflexivity. }
  destruct (ergast_chain e w) as [r w1]. simpl in H. subst w1.
  destruct (timer_first e); reflexivity.
Qed.

(** The fallback fetch never throws: a failure is the value [null]. *)
Lemma fetchFallbackJSON_run (e : env) (w : world) :
  exists d, fetchFallbackJSON e w = (Normal d, with_call FALLBACK_URL w).
Proof.
  unfold fetchFallbackJSON, try_catch, bind, fetch.
  destruct (network e FALLBACK_URL) as [r|]; [|eexists; reflexivity].
  destruct (ok r); simpl; [|eexists; reflexivity].
  unfold response_json. destruct (body r); eexists; reflexivity.
Qed.

(** A cache write never throws and leaves the call log alone. *)
Lemma cacheTeams_run (now : Z) (v : value) (w : world) :
  exists w', cacheTeams now v w = (Normal tt, w')
             /\ calls w' = calls w /\ quota w' = quota w.
Proof.
  unfold cacheTeams, try_catch, bind, setItem.
  destruct (_ <=? _)%N; [|eexists; split; [reflexivity|split; reflexivity]].
  simpl. destruct (_ <=? _)%N; eexists; (split; [reflexivity|split; reflexivity]).
Qed.

Lemma cacheTeams_fits (now : Z) (v : value) (w : world) :
  fits CACHE_KEY (stringify_text v) w = true ->
  fits CACHE_TIMESTAMP_KEY (number_toString now)
       (with_storage (<[CACHE_KEY := stringify_text v]> (storage w)) w) = true ->
  cacheTeams now v w = (Normal tt, written now v w).
Proof.
  unfold fits, cacheTeams, try_catch, bind, setItem. intros H1 H2.
  rewrite H1. simpl in *. rewrite H2. reflexivity.
Qed.

(** A read never throws and calls nothing. *)
Lemma getCachedTeams_run (now : Z) (w : world) :
  exists v w', getCachedTeams now w = (Normal v, w')
               /\ calls w' = calls w /\ quota w' = quota w
               /\ (storage w' = storage w \/ w' = purged w).
Proof.
  unfold getCachedTeams, try_catch, bind, getItem.
  destruct (storage w !! CACHE_TIMESTAMP_KEY) as [ts|]; [|eauto 10].
  destruct (String.eqb ts ""); [eauto 10|].
  destruct (older_than_duration now ts); [simpl; eauto 10|].
  destruct (storage w !! CACHE_KEY) as [text|]; [|eauto 10].
  destruct (String.eqb text ""); [eauto 10|].
  unfold JSON_parse_or_throw. destruct (JSON_parse text); simpl; eauto 10.
Qed.

(** The pipeline once the cache has missed and the remote stage has
    thrown: only the fallback document decides. *)
Lemma fetchTeamsData_fallback_stage (e : env) (w w1 : world) (v d : value) (err : js_error) :
  getCachedTeams (clock_read e) w = (Normal v, w1) -> truthy v = false ->
  fst (fetchFromErgastAPI e w1) = Throw err ->
  fst (fetchFallbackJSON e (with_call ERGAST_TEAMS_URL w1)) = Normal d ->
  fetchTeamsData e w =
    let w3 := with_call FALLBACK_URL (with_call ERGAST_TEAMS_URL w1) in
    if truthy d && has_items (get_prop d "teams")
    then (Normal (get_prop d "teams"),
          snd (cacheTeams (clock_write e) (get_prop d "teams") w3))
    else (Normal (VArr []), w3).
Proof.
  intros Hread Hv Hapi Hfb.
  unfold fetchTeamsData, try_catch at 1, bind at 1. rewrite Hread, Hv.
  unfold bind at 1, try_catch at 1, bind at 1.
  pose proof (fetchFromErgastAPI_world e w1) as Hw.
  destruct (fetchFromErgastAPI e w1) as [r w2]. simpl in Hapi, Hw. subst r w2.
  destruct (fetchFallbackJSON_run e (with_call ERGAST_TEAMS_URL w1)) as [d' Hd].
  rewrite Hd in Hfb. simpl in Hfb. injection Hfb as ->.
  cbv zeta. unfold ret at 1. cbv beta iota.
  unfold bind at 1. rewrite Hd.
  destruct (truthy d && has_items (get_prop d "teams")); [|reflexivity].
  unfold bind.
  destruct (cacheTeams_run (clock_write e) (get_prop d "teams")
              (with_call FALLBACK_URL (with_call ERGAST_TEAMS_URL w1))) as (w' & -> & _).
  reflexivity.
Qed.

End Pipeline.

Section PipelineStages.

Lemma fetchTeamsData_never_throws (e : env) (w : world) :
  exists v w', fetchTeamsData e w = (Normal v, w').
Proof.
  unfold fetchTeamsData, try_catch at 1.
  match goal with |- context [match ?m with _ => _ end] => destruct m as [[v|err] w'] end;
    eexists; eexists; reflexivity.
Qed.

Lemma no_teams_no_items (d : value) :
  no_teams d = true -> truthy d && has_items (get_prop d "teams") = false.
Proof.
  unfold no_teams. destruct d; try reflexivity;
    (destruct (get_prop _ "teams") as [| | | | |[|x l]| |] eqn:E; try discriminate; intros _;
     rewrite ?andb_false_r; try reflexivity).
Qed.

Lemma has_items_cons (x : value) (l : list value) : has_items (VArr (x :: l)) = true.
Proof.
  unfold has_items, greater_than_zero. simpl truthy.
  change (get_prop (VArr (x :: l)) "length") with (VNum (Z.of_nat (length (x :: l)))).
  simpl toNumber. simpl length. apply Z.ltb_lt. lia.
Qed.

Lemma inherited_prop_not_array (ctor k : string) (l : list value) :
  inherited_prop ctor k <> VArr l.
Proof.
  unfold inherited_prop.
  destruct (String.eqb k "constructor"); [discriminate|].
  destruct (String.eqb k "__proto__"); [discriminate|].
  destruct (existsb _ _); discriminate.
Qed.

Lemma get_prop_array_truthy (d : value) (k : string) (l : list value) :
  get_prop d k = VArr l -> truthy d = true.
Proof.
  destruct d; simpl; try reflexivity; try discriminate; intros H; exfalso.
  - exact (inherited_prop_not_array _ _ _ H).
  - exact (inherited_prop_not_array _ _ _ H).
  - destruct (String.eqb k "length"); [discriminate|].
    exact (inherited_prop_not_array _ _ _ H).
Qed.

Lemma fetchFallbackJSON_document (e : env) (w : world) (r : response) (doc : value) :
  network e FALLBACK_URL = Some r -> ok r = true -> body r = Some doc ->
  fetchFallbackJSON e w = (Normal doc, with_call FALLBACK_URL w).
Proof.
  intros Hn Hok Hb. unfold fetchFallbackJSON, try_catch, bind, fetch.
  rewrite Hn, Hok. simpl. unfold response_json. rewrite Hb. reflexivity.
Qed.

End PipelineStages.



(** C3. Cache hit: when the cache read returns a list, [fetchTeamsData]
    returns that list and the call makes no [fetch] at all, neither to
    the remote source nor to the static fallback. *)
Theorem fetchTeamsData_cache_hit (e : env) (w w1 : world) (v : value) :
  getCachedTeams (clock_read e) w = (Normal v, w1) -> truthy v = true ->
  fetchTeamsData e w = (Normal v, w1)
  /\ calls (snd (fetchTeamsData e w)) = calls w.
Proof.
  intros Hread Hv.
  assert (Hrun : fetchTeamsData e w = (Normal v, w1)).
  { unfold fetchTeamsData, try_catch at 1, bind at 1. rewrite Hread, Hv. reflexivity. }
  split; [exact Hrun|]. rewrite Hrun.
  destruct (getCachedTeams_run (clock_read e) w) as (v' & w' & H & Hc & _).
  rewrite Hread in H. injection H as -> ->. exact Hc.
Qed.

Lemma fetchTeamsData_cache_hit_witness :
  fetchTeamsData online boundary_world = (Normal (VArr [VNum 1]), boundary_world)
  /\ calls (snd (fetchTeamsData online boundary_world)) = calls boundary_world.
Proof.
  apply (fetchTeamsData_cache_hit online boundary_world boundary_world (VArr [VNum 1]));
    reflexivity.
Defined.

Section CacheRead.

Lemma purged_keys (w : world) :
  has_key CACHE_KEY (purged w) = false /\ has_key CACHE_TIMESTAMP_KEY (purged w) = false.
Proof.
  unfold has_key, purged. simpl. split.
  - rewrite lookup_delete_ne by discriminate. rewrite lookup_delete_eq. reflexivity.
  - rewrite lookup_delete_eq. reflexivity.
Qed.

Lemma getCachedTeams_no_timestamp (now : Z) (w : world) :
  item_missing (storage w !! CACHE_TIMESTAMP_KEY) = true ->
  getCachedTeams now w = (Normal VNull, w).
Proof.
  unfold getCachedTeams, try_catch, bind, getItem, item_missing.
  destruct (storage w !! CACHE_TIMESTAMP_KEY) as [ts|]; [|reflexivity].
  intros ->. reflexivity.
Qed.

Lemma getCachedTeams_expired (now : Z) (w : world) (ts : string) :
  storage w !! CACHE_TIMESTAMP_KEY = Some ts -> ts <> "" ->
  older_than_duration now ts = true ->
  getCachedTeams now w = (Normal VNull, purged w).
Proof.
  intros Hts Hne Hold. unfold getCachedTeams, try_catch, bind, getItem.
  rewrite Hts, (eqb_empty_false _ Hne), Hold. reflexivity.
Qed.

Lemma getCachedTeams_no_payload (now : Z) (w : world) (ts : string) :
  storage w !! CACHE_TIMESTAMP_KEY = Some ts -> ts <> "" ->
  older_than_duration now ts = false ->
  item_missing (storage w !! CACHE_KEY) = true ->
  getCachedTeams now w = (Normal VNull, w).
Proof.
  intros Hts Hne Hold. unfold getCachedTeams, try_catch, bind, getItem, item_missing.
  rewrite Hts, (eqb_empty_false _ Hne), Hold.
  destruct (storage w !! CACHE_KEY) as [text|]; [|reflexivity].
  intros ->. reflexivity.
Qed.

End CacheRead.

(** C5, as stated, fails: a read that finds no timestamp, or a fresh
    timestamp and no payload, returns absent and deletes nothing. *)
Lemma read_absent_keeps_lone_key :
  (getCachedTeams 1700000000100 payload_only_world = (Normal VNull, payload_only_world)
   /\ storage payload_only_world !! CACHE_KEY = Some "[1]")
  /\ (getCachedTeams 1700000000100 timestamp_only_world = (Normal VNull, timestamp_only_world)
      /\ storage timestamp_only_world !! CACHE_TIMESTAMP_KEY = Some "1700000000000").
Proof. repeat split. Qed.

(** C5, amended. A read that returns absent because the entry is older
    than 24 hours, or because the payload does not deserialize, deletes
    both keys; a read that returns absent because the timestamp or the
    payload is missing or empty leaves the store as it found it. *)
Theorem getCachedTeams_absent_cases (now : Z) (w : world) :
  (forall ts, storage w !! CACHE_TIMESTAMP_KEY = Some ts -> ts <> "" ->
     older_than_duration now ts = true ->
     getCachedTeams now w = (Normal VNull, purged w))
  /\ (forall ts text, storage w !! CACHE_TIMESTAMP_KEY = Some ts -> ts <> "" ->
        older_than_duration now ts = false ->
        storage w !! CACHE_KEY = Some text -> text <> "" ->
        JSON_parse text = None ->
        getCachedTeams now w = (Normal VNull, purged w))
  /\ (has_key CACHE_KEY (purged w) = false
      /\ has_key CACHE_TIMESTAMP_KEY (purged w) = false)
  /\ (item_missing (storage w !! CACHE_TIMESTAMP_KEY) = true ->
      getCachedTeams now w = (Normal VNull, w))
  /\ (forall ts, storage w !! CACHE_TIMESTAMP_KEY = Some ts -> ts <> "" ->
        older_than_duration now ts = false ->
        item_missing (storage w !! CACHE_KEY) = true ->
        getCachedTeams now w = (Normal VNull, w)).
Proof.
  split; [|split; [|split; [|split]]].
  - intros ts. apply getCachedTeams_expired.
  - intros ts text Hts Hne Hold Htext Hne' Hparse.
    rewrite (getCachedTeams_entry now w ts text Hts Hne Htext Hne'), Hold, Hparse.
    reflexivity.
  - apply purged_keys.
  - apply getCachedTeams_no_timestamp.
  - intros ts. apply getCachedTeams_no_payload.
Qed.

Lemma getCachedTeams_absent_cases_witness :
  getCachedTeams 1700086400001 boundary_world = (Normal VNull, purged boundary_world)
  /\ getCachedTeams 1700000000100 corrupt_world = (Normal VNull, purged corrupt_world)
  /\ storage (purged corrupt_world) = ∅.
Proof.
  split; [|split].
  - apply (proj1 (getCachedTeams_absent_cases 1700086400001 boundary_world)
             "1700000000000"); try reflexivity; discriminate.
  - apply (proj1 (proj2 (getCachedTeams_absent_cases 1700000000100 corrupt_world))
             "1700000000000" "[1,"); try reflexivity; discriminate.
  - reflexivity.
Defined.

Section RemoteSource.

Variable e : env.
Variable r : response.
Hypothesis Hresponse : network e ERGAST_TEAMS_URL = Some r.


(** A member that no prototype defines, read from a value that is not
    an object. *)
Lemma get_prop_envelope_key (x : value) (k : string) :
  k = "MRData" \/ k = "TeamTable" \/ k = "Teams" ->
  match x with VObj _ => True | _ => get_prop x k = VUndefined end.
Proof. intros [->|[->| ->]]; destruct x; try exact I; reflexivity. Qed.

Lemma get_prop_own (ps : list (string * value)) (k : string) :
  k = "MRData" \/ k = "TeamTable" \/ k = "Teams" ->
  get_prop (VObj ps) k = match own_prop ps k with Some x => x | None => VUndefined end.
Proof. intros [->|[->| ->]]; simpl; destruct (own_prop ps _); reflexivity. Qed.

(** The guard of the [then] callback, in terms of [envelope_member]. *)
Lemma envelope_guard (data : value) :
  data <> VNull -> data <> VUndefined ->
  let mrdata := get_prop data "MRData" in
  negb (truthy mrdata)
  || negb (truthy (get_prop mrdata "TeamTable"))
  || negb (truthy (get_prop (get_prop mrdata "TeamTable") "Teams"))
  = match envelope_member data with
    | Some x => negb (truthy x)
    | None => true
    end
  /\ (forall x, envelope_member data = Some x ->
        get_prop (get_prop mrdata "TeamTable") "Teams" = x).
Proof.
  intros Hn Hu mrdata. subst mrdata. unfold envelope_member.
  destruct data as [| | | | | |ps|]; try contradiction;
    try (split; [reflexivity|discriminate]).
  rewrite (get_prop_own ps "MRData") by auto.
  destruct (own_prop ps "MRData") as [m|]; [|split; [reflexivity|discriminate]].
  pose proof (get_prop_envelope_key m "TeamTable") as Hm.
  destruct m as [| | | | | |ms|];
    try (rewrite Hm by auto; split; [simpl; rewrite ?orb_true_r; reflexivity|discriminate]).
  rewrite (get_prop_own ms "TeamTable") by auto.
  destruct (own_prop ms "TeamTable") as [t|]; [|split; [reflexivity|discriminate]].
  pose proof (get_prop_envelope_key t "Teams") as Ht.
  destruct t as [| | | | | |ts|];
    try (rewrite Ht by auto; split; [simpl; rewrite ?orb_true_r; reflexivity|discriminate]).
  rewrite (get_prop_own ts "Teams") by auto.
  destruct (own_prop ts "Teams") as [x|]; split; try reflexivity; try discriminate.
  intros y [= ->]. reflexivity.
Qed.

(** The chain on a successful response is the second callback on its
    parsed body. *)
Lemma ergast_chain_data (w : world) (data : value) :
  ok r = true -> body r = Some data ->
  ergast_chain e w = ergast_on_data e data (with_call ERGAST_TEAMS_URL w).
Proof.
  intros Hok Hbody. unfold ergast_chain, ergast_on_response, bind at 1, fetch.
  rewrite Hresponse, Hok. cbn [negb]. unfold bind at 1, response_json.
  rewrite Hbody. reflexivity.
Qed.

(** The second callback in terms of [envelope_member]. *)
Lemma ergast_on_data_member (w : world) (data : value) :
  data <> VNull -> data <> VUndefined ->
  ergast_on_data e data w =
    match envelope_member data with
    | Some x =>
        if truthy x
        then (let* teams := as_array x in
              let* records := mapM (ergast_team e) teams in
              ret (VArr records)) w
        else (Throw (Error "Invalid API response structure"), w)
    | None => (Throw (Error "Invalid API response structure"), w)
    end.
Proof.
  intros Hn Hu. unfold ergast_on_data, bind at 1.
  assert (Hmem : member data "MRData" w = (Normal (get_prop data "MRData"), w))
    by (destruct data; try reflexivity; contradiction).
  rewrite Hmem. destruct (envelope_guard data Hn Hu) as [Hg Hx]. cbv zeta in Hg, Hx.
  rewrite Hg. destruct (envelope_member data) as [x|]; [|reflexivity].
  rewrite (Hx x eq_refl). destruct (truthy x); reflexivity.
Qed.



End RemoteSource.



Section AccentColor.

Lemma lower_char_not_upper (c : ascii) : is_upper (lower_char c) = false.
Proof. ascii_cases c; reflexivity. Qed.

Lemma toLowerCase_no_upper (s : string) : has_upper (toLowerCase s) = false.
Proof.
  induction s as [|c s IH]; simpl; [reflexivity|].
  rewrite lower_char_not_upper, IH. reflexivity.
Qed.

Lemma trimStart_no_upper (s : string) :
  has_upper s = false -> has_upper (trimStart s) = false.
Proof.
  induction s as [|c s IH]; simpl; [reflexivity|].
  intros H. apply orb_false_iff in H as [Hc Hs].
  destruct (is_space c); [auto|]. simpl. rewrite Hc, Hs. reflexivity.
Qed.

Lemma trimEnd_no_upper (s : string) :
  has_upper s = false -> has_upper (trimEnd s) = false.
Proof.
  induction s as [|c s IH]; simpl; [reflexivity|].
  intros H. apply orb_false_iff in H as [Hc Hs]. specialize (IH Hs).
  destruct (trimEnd s) as [|c' r'].
  - destruct (is_space c); simpl; [reflexivity|]. rewrite Hc. reflexivity.
  - simpl in *. rewrite Hc, IH. reflexivity.
Qed.

Lemma normalized_no_upper (name : string) :
  has_upper (trim (toLowerCase name)) = false.
Proof.
  unfold trim. apply trimEnd_no_upper, trimStart_no_upper, toLowerCase_no_upper.
Qed.

(** A lower-cased name is none of the camel-case methods of
    [Object.prototype]. *)
Lemma no_upper_not_method (k : string) :
  has_upper k = false -> existsb (String.eqb k) object_prototype_methods = false.
Proof.
  intros H. unfold object_prototype_methods. simpl.
  repeat match goal with
  | |- context [String.eqb k ?m] =>
      destruct (String.eqb_spec k m) as [->|_]; [discriminate H|]
  end.
  reflexivity.
Qed.

(** The lookup [table[normalized] || '#FF1801'] on a table of colours,
    for a key the table does not hold. *)
Lemma lookup_default (ps : list (string * value)) (name : string) :
  let k := trim (toLowerCase name) in
  own_prop ps k = None -> k <> "constructor" -> k <> "__proto__" ->
  js_or (get_prop (VObj ps) k) (VStr "#FF1801") = VStr "#FF1801".
Proof.
  intros k Hown Hc Hp. simpl. rewrite Hown. unfold inherited_prop.
  apply String.eqb_neq in Hc, Hp. rewrite Hc, Hp.
  rewrite (no_upper_not_method k (normalized_no_upper name)). reflexivity.
Qed.

(** What [getTeamAccentColor] does as the design describes it: the two
    spellings of Red Bull, and the default for every name that is
    neither a key of the table nor a member that [colors] inherits. *)
Lemma getTeamAccentColor_lookup :
  getTeamAccentColor "Red Bull" = VStr "#0600EF"
  /\ getTeamAccentColor " red bull " = VStr "#0600EF"
  /\ Utils.getTeamAccentColor "Red Bull" = VStr "#0600EF"
  /\ Utils.getTeamAccentColor " red bull " = VStr "#0600EF"
  /\ (forall name,
        own_color colors (trim (toLowerCase name)) = None ->
        trim (toLowerCase name) <> "constructor" ->
        trim (toLowerCase name) <> "__proto__" ->
        getTeamAccentColor name = VStr "#FF1801")
  /\ (forall name,
        own_color Utils.colors (trim (toLowerCase name)) = None ->
        trim (toLowerCase name) <> "constructor" ->
        trim (toLowerCase name) <> "__proto__" ->
        Utils.getTeamAccentColor name = VStr "#FF1801").
Proof.
  repeat split; try reflexivity.
  - intros name. apply lookup_default.
  - intros name. apply lookup_default.
Qed.

End AccentColor.

(** C8. For the unrecognized team name [constructor] the lookup does not
    return the default colour: [colors] inherits a member of that name,
    the function [Object], and the lookup returns it (in both copies of
    [getTeamAccentColor], and in any letter case and with surrounding
    blanks); for [__proto__] it returns the prototype object. *)
Theorem getTeamAccentColor_inherited_member :
  getTeamAccentColor "constructor" = VFunction "Object"
  /\ getTeamAccentColor " Constructor " = VFunction "Object"
  /\ Utils.getTeamAccentColor "constructor" = VFunction "Object"
  /\ getTeamAccentColor "__proto__" = VObj []
  /\ getTeamAccentColor "constructor" <> VStr "#FF1801".
Proof. repeat split; discriminate. Qed.

Section Normalization.

Lemma member_name (team : value) (name : string) (w : world) :
  get_prop team "name" = VStr name ->
  member team "name" w = (Normal (VStr name), w).
Proof. destruct team; simpl; try discriminate; intros ->; reflexivity. Qed.

Lemma parseInt_readable (team : value) (w : world) :
  year_readable team = true ->
  exists year, parseInt (get_prop team "established") w = (Normal year, w).
Proof.
  unfold year_readable. rewrite parseInt_run.
  destruct (to_primitive_string (get_prop team "established")); [eauto|discriminate].
Qed.

(** A team whose founding year cannot be converted stops the callback,
    as it stops [parseInt] in the code. *)
Lemma ergast_team_unreadable (e : env) (team : value) (name : string) (w : world) :
  get_prop team "name" = VStr name -> year_readable team = false ->
  exists message, ergast_team e team w = (Throw (TypeError message), w).
Proof.
  intros Hname Hyear. unfold ergast_team, bind.
  rewrite (member_name team name w Hname). simpl as_string. cbv iota beta.
  unfold ret at 1. rewrite parseInt_run. unfold year_readable in Hyear.
  destruct (to_primitive_string (get_prop team "established")); [discriminate|].
  eexists. reflexivity.
Qed.

Lemma ergast_team_fields (e : env) (team : value) (name : string) (w : world) :
  get_prop team "name" = VStr name -> year_readable team = true ->
  exists record, ergast_team e team w = (Normal record, w) /\ normalized_from name record.
Proof.
  intros Hname Hyear. unfold ergast_team, bind.
  rewrite (member_name team name w Hname). simpl as_string. cbv iota beta.
  unfold ret at 1. destruct (parseInt_readable team w Hyear) as [year ->].
  unfold ret. eexists. split; [reflexivity|].
  rewrite Hname. repeat split.
Qed.

Lemma parse_team_fields (year : Z) (team : value) (name : string) (w : world) :
  get_prop team "name" = VStr name -> year_readable team = true ->
  exists record, Utils.parse_team year team w = (Normal record, w)
    /\ get_prop record "id" = VStr (replace_ws_hyphen (toLowerCase name))
    /\ get_prop record "championships" = VNum 0
    /\ get_prop record "wins" = VNum 0
    /\ get_prop record "podiums" = VNum 0
    /\ get_prop record "drivers" = VArr []
    /\ get_prop record "accent_color" = Utils.getTeamAccentColor name.
Proof.
  intros Hname Hyear. unfold Utils.parse_team, bind.
  rewrite (member_name team name w Hname). simpl as_string. cbv iota beta.
  unfold ret at 1. destruct (parseInt_readable team w Hyear) as [established ->].
  unfold ret. eexists. split; [reflexivity|].
  repeat split.
Qed.

Lemma mapM_ergast_team (e : env) (teams : list value) (names : list string) (w : world) :
  Forall2 named teams names -> forallb year_readable teams = true ->
  exists records, mapM (ergast_team e) teams w = (Normal records, w)
    /\ Forall2 normalized_from names records.
Proof.
  intros H. induction H as [|team name teams names Hn _ IH]; intros Hyears.
  - exists []. split; [reflexivity|constructor].
  - cbn [forallb] in Hyears. apply andb_true_iff in Hyears as [Hyear Hyears].
    destruct (ergast_team_fields e team name w Hn Hyear) as (rec & Hrec & Hfields).
    destruct (IH Hyears) as (recs & Hrecs & Hall).
    exists (rec :: recs). split; [|constructor; assumption].
    simpl. unfold bind. rewrite Hrec, Hrecs. reflexivity.
Qed.

(** The remote fetch on a successful, well-formed response whose teams
    have a name and a founding year that [parseInt] can read: one record
    per upstream team, in order, with the fixed fields of the design and
    the accent colour that [getTeamAccentColor] gives for its name. *)
Lemma fetchFromErgastAPI_normalizes
    (e : env) (w : world) (r : response) (data : value)
    (teams : list value) (names : list string) :
  network e ERGAST_TEAMS_URL = Some r -> timer_first e = false ->
  ok r = true -> body r = Some data ->
  envelope_teams data = Some teams -> Forall2 named teams names ->
  forallb year_readable teams = true ->
  exists records,
    fetchFromErgastAPI e w = (Normal (VArr records), with_call ERGAST_TEAMS_URL w)
    /\ Forall2 normalized_from names records.
Proof.
  intros Hr Htimer Hok Hbody Henv Hnames Hyears.
  unfold envelope_teams in Henv.
  destruct (envelope_member data) as [x|] eqn:Hmember; [|discriminate].
  destruct x; try discriminate. injection Henv as ->.
  assert (Hn : data <> VNull) by (intros ->; discriminate).
  assert (Hu : data <> VUndefined) by (intros ->; discriminate).
  destruct (mapM_ergast_team e teams names (with_call ERGAST_TEAMS_URL w) Hnames Hyears)
    as (records & Hrecords & Hall).
  exists records. split; [|exact Hall].
  unfold fetchFromErgastAPI, race_timeout. rewrite Htimer.
  rewrite (ergast_chain_data e r Hr w data Hok Hbody).
  rewrite (ergast_on_data_member e _ data Hn Hu), Hmember.
  cbn [truthy]. unfold bind. cbn [as_array]. unfold ret at 1. rewrite Hrecords. reflexivity.
Qed.

End Normalization.

(** C7. The record normalized from an upstream team named [constructor]
    has the slug, the zero statistics and the empty driver list of the
    design, but its accent colour is not the default [#FF1801] for an
    unrecognized name: it is the function [Object] that the colour table
    inherits. [parseErgastData] of [utils.js] does the same. *)
Theorem normalized_accent_of_inherited_name :
  exists record,
    fetchFromErgastAPI (answering constructor_response) empty_world
      = (Normal (VArr [record]), with_call ERGAST_TEAMS_URL empty_world)
    /\ get_prop record "id" = VStr "constructor"
    /\ get_prop record "championships" = VNum 0
    /\ get_prop record "wins" = VNum 0
    /\ get_prop record "podiums" = VNum 0
    /\ get_prop record "drivers" = VArr []
    /\ get_prop record "accent_color" = VFunction "Object"
    /\ (exists record',
          Utils.parseErgastData 2024
            (VObj [("MRData",
               VObj [("TeamTable", VObj [("Teams", VArr [team_named_constructor])])])])
            empty_world = (Normal (VArr [record']), empty_world)
          /\ get_prop record' "accent_color" = VFunction "Object").
Proof.
  eexists. split; [reflexivity|]. repeat split.
  eexists. split; reflexivity.
Qed.

Section KeyPair.

Lemma has_key_insert_eq (k v : string) (m : gmap string string) (w : world) :
  has_key k (with_storage (<[k := v]> m) w) = true.
Proof. unfold has_key. simpl. rewrite lookup_insert_eq. reflexivity. Qed.

Lemma has_key_insert_ne (k k' v : string) (m : gmap string string) (w : world) :
  k <> k' ->
  has_key k' (with_storage (<[k := v]> m) w) = has_key k' (with_storage m w).
Proof. intros H. unfold has_key. simpl. rewrite lookup_insert_ne by exact H. reflexivity. Qed.

Lemma cacheTeams_keeps_invariant (now : Z) (v : value) (w : world) :
  timestamp_has_payload w -> timestamp_has_payload (snd (cacheTeams now v w)).
Proof.
  intros Hinv. unfold cacheTeams, try_catch, bind, setItem.
  destruct (_ <=? _)%N; [|exact Hinv].
  simpl. destruct (_ <=? _)%N; simpl.
  - intros _. unfold has_key. simpl.
    rewrite lookup_insert_ne by discriminate. rewrite lookup_insert_eq. reflexivity.
  - intros _. apply has_key_insert_eq.
Qed.

Lemma purged_invariant (w : world) : timestamp_has_payload (purged w).
Proof.
  intros H. destruct (purged_keys w) as [_ Hts]. rewrite Hts in H. discriminate.
Qed.

Lemma getCachedTeams_keeps_invariant (now : Z) (w : world) :
  timestamp_has_payload w -> timestamp_has_payload (snd (getCachedTeams now w)).
Proof.
  intros Hinv.
  destruct (getCachedTeams_run now w) as (v & w' & Hrun & _ & _ & [Hst| ->]);
    rewrite Hrun; simpl.
  - unfold timestamp_has_payload, has_key in *. rewrite Hst. exact Hinv.
  - apply purged_invariant.
Qed.

Lemma run_op_keeps_invariant (op : cache_op) (w : world) :
  timestamp_has_payload w -> timestamp_has_payload (snd (run_op op w)).
Proof.
  intros Hinv. destruct op as [now v|now|]; unfold run_op.
  - apply cacheTeams_keeps_invariant, Hinv.
  - unfold bind. pose proof (getCachedTeams_keeps_invariant now w Hinv) as H.
    destruct (getCachedTeams now w) as [[x|err] w']; exact H.
  - rewrite clearCache_run. apply purged_invariant.
Qed.

Lemma run_ops_keeps_invariant (ops : list cache_op) (w : world) :
  timestamp_has_payload w -> timestamp_has_payload (run_ops ops w).
Proof.
  revert w. induction ops as [|op ops IH]; intros w Hinv; simpl; [exact Hinv|].
  apply IH, run_op_keeps_invariant, Hinv.
Qed.

End KeyPair.

(** C9, as stated, fails: after one write into a store that accepts the
    payload and refuses the timestamp, the payload key is there and the
    timestamp key is not. *)
Lemma write_leaves_payload_alone :
  let w := run_ops [Write 1700000000000 (VArr [VNum 1])] tight_world in
  storage w !! CACHE_KEY = Some "[1]" /\ storage w !! CACHE_TIMESTAMP_KEY = None.
Proof. split; reflexivity. Qed.

(** C9, amended. In every store reached from one without the two keys by
    writes, reads and purges, the timestamp key is never present without
    the payload key; a write whose two stores are accepted sets both
    keys, a purge deletes both; and a store without the timestamp key,
    payload or not, is read as absent and left as it is. *)
Theorem key_pair_invariant (ops : list cache_op) (w0 : world) :
  has_key CACHE_KEY w0 = false -> has_key CACHE_TIMESTAMP_KEY w0 = false ->
  let w := run_ops ops w0 in
  timestamp_has_payload w
  /\ (forall now v,
        fits CACHE_KEY (stringify_text v) w = true ->
        fits CACHE_TIMESTAMP_KEY (number_toString now)
          (with_storage (<[CACHE_KEY := stringify_text v]> (storage w)) w) = true ->
        snd (run_op (Write now v) w) = written now v w
        /\ has_key CACHE_KEY (written now v w) = true
        /\ has_key CACHE_TIMESTAMP_KEY (written now v w) = true)
  /\ (has_key CACHE_KEY (snd (run_op Purge w)) = false
      /\ has_key CACHE_TIMESTAMP_KEY (snd (run_op Purge w)) = false)
  /\ (forall now, has_key CACHE_TIMESTAMP_KEY w = false ->
        getCachedTeams now w = (Normal VNull, w)).
Proof.
  intros Hk Ht w. split; [|split; [|split]].
  - apply run_ops_keeps_invariant. intros H. rewrite Ht in H. discriminate.
  - intros now v F1 F2. split; [|split].
    + simpl. rewrite (cacheTeams_fits now v w F1 F2). reflexivity.
    + unfold written. rewrite has_key_insert_ne by discriminate. apply has_key_insert_eq.
    + apply has_key_insert_eq.
  - unfold run_op. rewrite clearCache_run. apply purged_keys.
  - intros now Hno. apply getCachedTeams_no_timestamp.
    unfold has_key in Hno. destruct (storage w !! CACHE_TIMESTAMP_KEY); [discriminate|reflexivity].
Qed.

Lemma key_pair_invariant_witness :
  let w := run_ops [Write 1700000000000 (VArr [VNum 1]); Read 1700000000100;
                    Write 1700000000200 (VArr [VNum 2]); Purge;
                    Write 1700000000300 (VArr [VNum 3])] tight_world in
  timestamp_has_payload w
  /\ storage w !! CACHE_KEY = Some "[3]"
  /\ getCachedTeams 1700000000400 w = (Normal VNull, w).
Proof.
  intros w.
  destruct (key_pair_invariant
              [Write 1700000000000 (VArr [VNum 1]); Read 1700000000100;
               Write 1700000000200 (VArr [VNum 2]); Purge;
               Write 1700000000300 (VArr [VNum 3])] tight_world eq_refl eq_refl)
    as (Hinv & _ & _ & Hread).
  split; [exact Hinv|]. split; [reflexivity|].
  apply Hread. reflexivity.
Defined.

(** * The JSON text of a value reads back *)

Section DecimalText.

Lemma stops_no_digit (rest : string) :
  stops rest = true -> take_digits 10 rest = ([], rest).
Proof.
  destruct rest as [|c r]; [reflexivity|]. simpl.
  destruct (digit_value 10 c); [discriminate|reflexivity].
Qed.

Lemma take_digits_uint (d : Decimal.uint) (rest : string) :
  stops rest = true ->
  take_digits 10 (NilEmpty.string_of_uint d ++ rest) = (udigits d, rest).
Proof.
  intros H. induction d; simpl; try (rewrite IHd; reflexivity).
  apply stops_no_digit, H.
Qed.

Lemma fold_uint_acc (d : Decimal.uint) (acc : positive) :
  fold_left step10 (udigits d) (Z.pos acc) = Z.pos (Pos.of_uint_acc d acc).
Proof.
  revert acc. induction d; intros acc; simpl; [reflexivity|..];
    (etransitivity; [|apply IHd]); f_equal; unfold step10; lia.
Qed.

Lemma fold_uint (d : Decimal.uint) :
  fold_left step10 (udigits d) 0 = Z.of_N (Pos.of_uint d).
Proof.
  induction d; simpl; [reflexivity|exact IHd|..];
    (etransitivity; [|apply fold_uint_acc]); reflexivity.
Qed.

Lemma digits_value_uint (d : Decimal.uint) :
  digits_value 10 (udigits d) = Z.of_N (Pos.of_uint d).
Proof. apply fold_uint. Qed.

Lemma to_uint_head (p : positive) :
  match udigits (Pos.to_uint p) with
  | [] => False
  | 0 :: _ => False
  | _ => True
  end.
Proof.
  pose proof (Unsigned.to_of (Pos.to_uint p)) as H.
  rewrite Unsigned.of_to in H. simpl in H.
  pose proof (Unsigned.to_uint_nonzero p) as Hnz.
  assert (Hhead : nzhead (Pos.to_uint p) = Pos.to_uint p).
  { unfold unorm in H. destruct (nzhead (Pos.to_uint p)) eqn:E; try (symmetry; exact H).
    exfalso. apply Hnz. exact H. }
  pose proof (nzhead_nonzero (Pos.to_uint p)) as Hd0.
  pose proof (Unsigned.to_uint_nonnil p) as Hnil.
  rewrite Hhead in Hd0.
  destruct (Pos.to_uint p); simpl; auto.
  exact (Hd0 u eq_refl).
Qed.

End DecimalText.

Section NumberText.

Lemma stops_not_fraction (c : ascii) (r : string) :
  stops (String c r) = true ->
  (char_code c =? 46) || (char_code c =? 101) || (char_code c =? 69) = false.
Proof.
  simpl. destruct (digit_value 10 c); [discriminate|].
  intros H. apply negb_true_iff in H. exact H.
Qed.

Lemma integer_literal_digits (sign : Z) (ds : list Z) (rest : string) :
  stops rest = true ->
  match ds with [] => False | 0 :: _ :: _ => False | _ => True end ->
  integer_literal sign ds rest = Some (sign * digits_value 10 ds, rest).
Proof.
  intros Hstop Hds. unfold integer_literal.
  assert (Hc : match rest with
               | String c _ => (char_code c =? 46) || (char_code c =? 101) || (char_code c =? 69)
               | EmptyString => false
               end = false).
  { destruct rest as [|c r]; [reflexivity|]. apply (stops_not_fraction c r Hstop). }
  destruct ds as [|d ds]; [contradiction|].
  cbv zeta. rewrite Hc, orb_false_r.
  destruct d as [|p|p]; try reflexivity.
  destruct ds; [reflexivity|contradiction].
Qed.

Lemma uint_text_nonnil (d : Decimal.uint) :
  d <> Nil -> NilZero.string_of_uint d = NilEmpty.string_of_uint d.
Proof. destruct d; [contradiction|reflexivity..]. Qed.

Lemma read_minus_uint (d : Decimal.uint) (rest : string) :
  d <> Nil ->
  read_minus (NilEmpty.string_of_uint d ++ rest) = (1, NilEmpty.string_of_uint d ++ rest).
Proof. destruct d; [contradiction|reflexivity..]. Qed.

Lemma parse_digits_pos (sign : Z) (p : positive) (rest : string) :
  stops rest = true ->
  (let '(ds, rest') := take_digits 10 (NilEmpty.string_of_uint (Pos.to_uint p) ++ rest) in
   integer_literal sign ds rest') = Some (sign * Z.pos p, rest).
Proof.
  intros Hstop. rewrite (take_digits_uint _ _ Hstop).
  pose proof (to_uint_head p) as Hhead.
  rewrite integer_literal_digits; [|exact Hstop|].
  - rewrite digits_value_uint, Unsigned.of_to. reflexivity.
  - destruct (udigits (Pos.to_uint p)) as [|d ds]; [contradiction|].
    destruct d; first [exact I | contradiction].
Qed.

Lemma parse_number_text (z : Z) (rest : string) :
  stops rest = true ->
  parse_number (number_toString z ++ rest) = Some (z, rest).
Proof.
  intros Hstop. unfold number_toString.
  destruct z as [|p|p]; simpl Z.to_int; unfold NilZero.string_of_int.
  - change (parse_number (String "0" rest) = Some (0, rest)).
    unfold parse_number, read_minus.
    change (take_digits 10 (String "0" rest))
      with (let '(ds, r) := take_digits 10 rest in (0 :: ds, r)).
    rewrite (stops_no_digit rest Hstop).
    apply integer_literal_digits; [exact Hstop|exact I].
  - rewrite (uint_text_nonnil _ (Unsigned.to_uint_nonnil p)). unfold parse_number.
    rewrite (read_minus_uint _ rest (Unsigned.to_uint_nonnil p)).
    rewrite (parse_digits_pos 1 p rest Hstop). reflexivity.
  - rewrite (uint_text_nonnil _ (Unsigned.to_uint_nonnil p)).
    change (String "-" (NilEmpty.string_of_uint (Pos.to_uint p)) ++ rest)
      with (String "-" (NilEmpty.string_of_uint (Pos.to_uint p) ++ rest)).
    unfold parse_number, read_minus.
    rewrite (parse_digits_pos (-1) p rest Hstop). reflexivity.
Qed.

End NumberText.

Section StringText.

Lemma append_cons (c : ascii) (a b : string) : String c a ++ b = String c (a ++ b).
Proof. reflexivity. Qed.

Lemma append_assoc (a b c : string) : (a ++ b) ++ c = a ++ (b ++ c).
Proof.
  induction a as [|x a IH]; [reflexivity|]. rewrite !append_cons, IH. reflexivity.
Qed.

Lemma append_length (a b : string) :
  String.length (a ++ b) = (String.length a + String.length b)%nat.
Proof.
  induction a as [|x a IH]; [reflexivity|]. rewrite append_cons. cbn. rewrite IH. reflexivity.
Qed.

Lemma parse_escape_char (c : ascii) (tail : string) :
  parse_string_body (escape_char c ++ tail) =
    match parse_string_body tail with
    | Some (t, r) => Some (String c t, r)
    | None => None
    end.
Proof. ascii_cases c; reflexivity. Qed.

(** A string literal reads back as the string. *)
Lemma parse_string_escaped (s rest : string) :
  parse_string_body (escape s ++ String dquote rest) = Some (s, rest).
Proof.
  induction s as [|c s IH]; [reflexivity|].
  change (escape (String c s)) with (escape_char c ++ escape s).
  rewrite append_assoc, parse_escape_char, IH. reflexivity.
Qed.

Lemma value_start_facts (c : ascii) :
  value_start c = true ->
  is_json_space c = false /\ (char_code c =? 93) = false
  /\ (char_code c =? 125) = false /\ (char_code c =? 44) = false.
Proof. ascii_cases c; intros H; try discriminate H; repeat split. Qed.

Lemma skip_ws_value_start (c : ascii) (t : string) :
  value_start c = true -> skip_ws (String c t) = String c t.
Proof.
  intros H. destruct (value_start_facts c H) as [Hs _]. cbn. rewrite Hs. reflexivity.
Qed.

Lemma number_text_head (z : Z) :
  exists c t, number_toString z = String c t
    /\ (char_code c = 45 \/ 48 <= char_code c <= 57).
Proof.
  unfold number_toString. destruct z as [|p|p]; cbn [Z.to_int NilZero.string_of_int].
  - exists "0"%char, EmptyString.
    split; [reflexivity|right; split; apply Z.leb_le; reflexivity].
  - rewrite (uint_text_nonnil _ (Unsigned.to_uint_nonnil p)).
    pose proof (Unsigned.to_uint_nonnil p) as Hn.
    destruct (Pos.to_uint p); [contradiction|..];
      (eexists; eexists; split; [reflexivity|right; split; apply Z.leb_le; reflexivity]).
  - eexists; eexists; split; [reflexivity|left; reflexivity].
Qed.

Lemma value_step_number elements members (c : ascii) (t : string) :
  char_code c = 45 \/ 48 <= char_code c <= 57 ->
  value_step elements members (String c t) =
    match parse_number (String c t) with
    | Some (z, rest) => Some (VNum z, rest)
    | None => None
    end.
Proof.
  intros H.
  assert (Hb : (char_code c =? 45) || ((48 <=? char_code c) && (char_code c <=? 57)) = true).
  { destruct H as [->|[H1 H2]]; [reflexivity|].
    apply Z.leb_le in H1, H2. rewrite H1, H2. apply orb_true_r. }
  clear H. ascii_cases c; try discriminate Hb; reflexivity.
Qed.

End StringText.

Section TextShape.

Lemma value_induction (P : value -> Prop) :
  P VUndefined -> P VNull -> (forall b, P (VBool b)) -> (forall n, P (VNum n)) ->
  (forall s, P (VStr s)) ->
  (forall l, Forall P l -> P (VArr l)) ->
  (forall ps, Forall (fun kx => P (snd kx)) ps -> P (VObj ps)) ->
  (forall n, P (VFunction n)) ->
  forall v, P v.
Proof.
  intros Hu Hn Hb Hz Hs Ha Ho Hf. fix IH 1. intros v.
  destruct v as [| |b|n|s|l|ps|n].
  - exact Hu.
  - exact Hn.
  - apply Hb.
  - apply Hz.
  - apply Hs.
  - apply Ha. induction l as [|x l IHl]; constructor; [apply IH|exact IHl].
  - apply Ho. induction ps as [|[k x] ps IHps]; constructor; [apply IH|exact IHps].
  - apply Hf.
Qed.

Lemma stringify_array (l : list value) :
  JSON_stringify (VArr l) = Some ("[" ++ join_comma (List.map elem_text l) ++ "]").
Proof. reflexivity. Qed.

Lemma stringify_object (ps : list (string * value)) :
  JSON_stringify (VObj ps) =
    Some ("{" ++ join_comma (List.map member_text (kept ps)) ++ "}").
Proof.
  cbn [JSON_stringify].
  match goal with
  | |- Some (_ ++ join_comma ?a ++ _) = _ =>
      enough (H : a = List.map member_text (kept ps)) by (rewrite H; reflexivity)
  end.
  unfold kept. induction ps as [|[k x] ps IH]; [reflexivity|].
  simpl. rewrite IH. destruct x; reflexivity.
Qed.

Lemma json_image_array (l : list value) :
  json_image (VArr l) = VArr (List.map elem_image l).
Proof. reflexivity. Qed.

Lemma json_image_object (ps : list (string * value)) :
  json_image (VObj ps) = VObj (List.map member_image (kept ps)).
Proof.
  cbn [json_image].
  match goal with
  | |- VObj ?a = _ =>
      enough (H : a = List.map member_image (kept ps)) by (rewrite H; reflexivity)
  end.
  unfold kept. induction ps as [|[k x] ps IH]; [reflexivity|].
  simpl. rewrite IH. destruct x; reflexivity.
Qed.

Lemma stringify_written_out (x : value) :
  written_out x = true -> exists t, JSON_stringify x = Some t /\ elem_text x = t.
Proof.
  unfold elem_text. destruct x; try discriminate; intros _; eexists; split; reflexivity.
Qed.

Lemma elem_text_head (x : value) :
  exists c t, elem_text x = String c t /\ value_start c = true.
Proof.
  unfold elem_text. destruct x as [| |b|n|s|l|ps|n];
    try (eexists; eexists; split; reflexivity).
  - destruct b; eexists; eexists; split; reflexivity.
  - cbn [JSON_stringify]. destruct (number_text_head n) as (c & t & -> & Hc).
    exists c, t. split; [reflexivity|].
    unfold value_start. destruct Hc as [->|[H1 H2]]; [reflexivity|].
    apply Z.leb_le in H1, H2. rewrite H1, H2. apply orb_true_r.
Qed.

Lemma join_head (l : list value) :
  l <> [] ->
  exists c t, join_comma (List.map elem_text l) = String c t /\ value_start c = true.
Proof.
  destruct l as [|x l]; [contradiction|]. intros _.
  destruct (elem_text_head x) as (c & t & Hx & Hc).
  cbn [List.map join_comma]. rewrite Hx.
  destruct (List.map elem_text l); eexists; eexists; split; try reflexivity; exact Hc.
Qed.

Lemma append_nil_r (s : string) : s ++ "" = s.
Proof. induction s as [|c s IH]; [reflexivity|]. rewrite append_cons, IH. reflexivity. Qed.

End TextShape.

Section ReadBack.

Lemma parse_value_S (fuel : nat) (s : string) :
  parse_value (S fuel) s =
    value_step (fun r => parse_elements fuel r) (fun r => parse_members fuel r) s.
Proof. reflexivity. Qed.

Lemma parse_elements_S (fuel : nat) (s : string) :
  parse_elements (S fuel) s =
    elements_step (fun r => parse_value fuel r) (fun r => parse_elements fuel r) s.
Proof. reflexivity. Qed.

Lemma parse_members_S (fuel : nat) (s : string) :
  parse_members (S fuel) s =
    members_step (fun r => parse_value fuel r) (fun r => parse_members fuel r) s.
Proof. reflexivity. Qed.

Lemma element_of_value (x : value) : reads_back x -> element_reads_back x.
Proof.
  intros Hx rest fuel Hstop Hfuel.
  destruct (written_out x) eqn:Hw.
  - destruct (stringify_written_out x Hw) as (t & Ht & Het).
    rewrite Het in *.
    replace (elem_image x) with (json_image x) by (destruct x; try discriminate; reflexivity).
    apply Hx; assumption.
  - assert (Ht : elem_text x = "null") by (destruct x; try discriminate; reflexivity).
    assert (Hi : elem_image x = VNull) by (destruct x; try discriminate; reflexivity).
    rewrite Ht, Hi in *. destruct fuel as [|fuel]; [inversion Hfuel|]. reflexivity.
Qed.

Lemma stops_close_bracket (rest : string) : stops (String "]" rest) = true.
Proof. reflexivity. Qed.

Lemma stops_close_brace (rest : string) : stops (String "}" rest) = true.
Proof. reflexivity. Qed.

Lemma stops_comma (rest : string) : stops (String "," rest) = true.
Proof. reflexivity. Qed.

Lemma join_cons2 (a b : string) (l : list string) :
  join_comma (a :: b :: l) = a ++ String "," (join_comma (b :: l)).
Proof. reflexivity. Qed.

Lemma after_comma (r : string) : after_char 44 (skip_ws (String "," r)) = Some r.
Proof. reflexivity. Qed.

Lemma after_close_bracket (r : string) :
  after_char 44 (skip_ws (String "]" r)) = None
  /\ after_char 93 (skip_ws (String "]" r)) = Some r.
Proof. split; reflexivity. Qed.

Lemma after_close_brace (r : string) :
  after_char 44 (skip_ws (String "}" r)) = None
  /\ after_char 125 (skip_ws (String "}" r)) = Some r.
Proof. split; reflexivity. Qed.

Lemma after_colon (r : string) : after_char 58 (skip_ws (String ":" r)) = Some r.
Proof. reflexivity. Qed.

Lemma after_dquote (r : string) : after_char 34 (skip_ws (String dquote r)) = Some r.
Proof. reflexivity. Qed.

(** The elements of a non-empty array, up to the closing bracket. *)
Lemma elements_read_back (l : list value) :
  Forall element_reads_back l -> l <> [] ->
  forall rest fuel,
    (String.length (join_comma (List.map elem_text l)) + 1 < fuel)%nat ->
    parse_elements fuel (join_comma (List.map elem_text l) ++ String "]" rest)
      = Some (List.map elem_image l, rest).
Proof.
  intros Hall. induction Hall as [|x l Hx Hl IH]; [contradiction|]. intros _ rest fuel Hfuel.
  destruct fuel as [|fuel]; [inversion Hfuel|].
  rewrite parse_elements_S. unfold elements_step.
  destruct l as [|y l].
  - cbn [List.map join_comma] in *.
    rewrite (Hx (String "]" rest) fuel (stops_close_bracket rest)) by lia.
    cbv zeta. destruct (after_close_bracket rest) as [-> ->]. reflexivity.
  - change (List.map elem_text (x :: y :: l))
      with (elem_text x :: elem_text y :: List.map elem_text l) in *.
    rewrite join_cons2 in *. rewrite append_length in Hfuel. cbn [String.length] in Hfuel.
    rewrite append_assoc, append_cons.
    rewrite (Hx _ fuel (stops_comma _)) by lia.
    cbv zeta. rewrite after_comma.
    change (elem_text y :: List.map elem_text l) with (List.map elem_text (y :: l)) in *.
    rewrite IH; [reflexivity|discriminate|lia].
Qed.

Lemma value_step_array elements members (body : string) :
  value_step elements members (String "[" body) =
    match after_char 93 (skip_ws body) with
    | Some rest => Some (VArr [], rest)
    | None =>
        match elements (skip_ws body) with
        | Some (vs, rest) => Some (VArr vs, rest)
        | None => None
        end
    end.
Proof. reflexivity. Qed.

Lemma value_step_object elements members (body : string) :
  value_step elements members (String "{" body) =
    match after_char 125 (skip_ws body) with
    | Some rest => Some (VObj [], rest)
    | None =>
        match members (skip_ws body) with
        | Some (ps, rest) => Some (VObj ps, rest)
        | None => None
        end
    end.
Proof. reflexivity. Qed.

Lemma value_step_string elements members (body : string) :
  value_step elements members (String dquote body) =
    match parse_string_body body with
    | Some (t, rest) => Some (VStr t, rest)
    | None => None
    end.
Proof. reflexivity. Qed.

Lemma after_value_start (n : Z) (c : ascii) (t : string) :
  value_start c = true -> n = 93 \/ n = 125 ->
  skip_ws (String c t) = String c t /\ after_char n (String c t) = None.
Proof.
  intros Hc Hn. split; [apply skip_ws_value_start, Hc|].
  destruct (value_start_facts c Hc) as (_ & H1 & H2 & _).
  unfold after_char. destruct Hn as [->| ->]; [rewrite H1|rewrite H2]; reflexivity.
Qed.

Lemma wrap_text (o c : ascii) (body rest : string) :
  (String o "" ++ body ++ String c "") ++ rest = String o (body ++ String c rest)
  /\ String.length (String o "" ++ body ++ String c "") = (String.length body + 2)%nat.
Proof.
  split.
  - rewrite append_cons. change ("" ++ body ++ String c "") with (body ++ String c "").
    rewrite append_cons, append_assoc. reflexivity.
  - rewrite append_cons. change ("" ++ body ++ String c "") with (body ++ String c "").
    cbn [String.length]. rewrite append_length. cbn [String.length]. lia.
Qed.

Lemma reads_back_array (l : list value) : Forall reads_back l -> reads_back (VArr l).
Proof.
  intros Hall text rest fuel Htext Hstop Hfuel.
  rewrite stringify_array in Htext. injection Htext as <-.
  rewrite json_image_array.
  destruct (wrap_text "[" "]" (join_comma (List.map elem_text l)) rest) as [Ht Hlen].
  change (String "[" "") with "[" in *. change (String "]" "") with "]" in *.
  rewrite Ht. rewrite Hlen in Hfuel. clear Ht Hlen.
  destruct fuel as [|fuel]; [inversion Hfuel|].
  rewrite parse_value_S, value_step_array.
  destruct l as [|x l].
  - reflexivity.
  - destruct (join_head (x :: l)) as (c & t & Hj & Hc); [discriminate|].
    assert (Hel : Forall element_reads_back (x :: l)).
    { eapply Forall_impl; [exact Hall|]. apply element_of_value. }
    pose proof (elements_read_back (x :: l) Hel ltac:(discriminate) rest fuel ltac:(lia)) as Hp.
    rewrite Hj in *. rewrite !append_cons in *.
    destruct (after_value_start 93 c (t ++ String "]" rest) Hc ltac:(auto)) as [-> ->].
    rewrite Hp. reflexivity.
Qed.

Lemma member_text_shape (k : string) (x : value) (rest : string) :
  member_text (k, x) ++ rest
    = String dquote (escape k ++ String dquote (String ":" (elem_text x ++ rest)))
  /\ (String.length (elem_text x) < String.length (member_text (k, x)))%nat.
Proof.
  unfold member_text, quote. cbn [fst snd]. split.
  - rewrite !append_cons, !append_assoc, !append_cons. reflexivity.
  - rewrite !append_cons. change ("" ++ elem_text x) with (elem_text x).
    cbn [String.length]. rewrite !append_length. cbn [String.length]. lia.
Qed.

Lemma member_join_head (ms : list (string * value)) :
  ms <> [] -> exists t, join_comma (List.map member_text ms) = String dquote t.
Proof.
  destruct ms as [|[k x] ms]; [contradiction|]. intros _. destruct ms as [|m ms].
  - cbn [List.map join_comma]. unfold member_text, quote. cbn [fst snd].
    rewrite !append_cons. eexists. reflexivity.
  - change (List.map member_text ((k, x) :: m :: ms))
      with (member_text (k, x) :: member_text m :: List.map member_text ms).
    rewrite join_cons2. unfold member_text at 1, quote. cbn [fst snd].
    rewrite !append_cons. eexists. reflexivity.
Qed.

Lemma dquote_not_close (t : string) :
  skip_ws (String dquote t) = String dquote t /\ after_char 125 (String dquote t) = None.
Proof. split; reflexivity. Qed.

(** The members of a non-empty object, up to the closing brace. *)
Lemma members_read_back (ms : list (string * value)) :
  Forall (fun kx => reads_back (snd kx) /\ written_out (snd kx) = true) ms -> ms <> [] ->
  forall rest fuel,
    (String.length (join_comma (List.map member_text ms)) + 1 < fuel)%nat ->
    parse_members fuel (join_comma (List.map member_text ms) ++ String "}" rest)
      = Some (List.map member_image ms, rest).
Proof.
  intros Hall. induction Hall as [|[k x] ms [Hx Hw] Hms IH]; [contradiction|].
  intros _ rest fuel Hfuel. cbn [snd] in Hx, Hw.
  destruct (stringify_written_out x Hw) as (tx & Htx & Hex).
  destruct fuel as [|fuel]; [inversion Hfuel|].
  rewrite parse_members_S. unfold members_step.
  destruct ms as [|m ms].
  - cbn [List.map join_comma] in *.
    destruct (member_text_shape k x (String "}" rest)) as [-> Hlen].
    rewrite after_dquote, parse_string_escaped, after_colon.
    rewrite Hex in *.
    rewrite (Hx tx (String "}" rest) fuel Htx (stops_close_brace rest)) by lia.
    cbv zeta. destruct (after_close_brace rest) as [-> ->]. reflexivity.
  - change (List.map member_text ((k, x) :: m :: ms))
      with (member_text (k, x) :: member_text m :: List.map member_text ms) in *.
    rewrite join_cons2 in *. rewrite append_length in Hfuel. cbn [String.length] in Hfuel.
    rewrite append_assoc.
    destruct (member_text_shape k x
                (String "," (join_comma (member_text m :: List.map member_text ms))
                   ++ String "}" rest)) as [-> Hlen].
    rewrite after_dquote, parse_string_escaped, after_colon.
    rewrite Hex in *. rewrite append_cons.
    rewrite (Hx tx _ fuel Htx (stops_comma _)) by lia.
    cbv zeta. rewrite after_comma.
    change (member_text m :: List.map member_text ms) with (List.map member_text (m :: ms)) in *.
    rewrite IH; [reflexivity|discriminate|lia].
Qed.

Lemma reads_back_object (ps : list (string * value)) :
  Forall (fun kx => reads_back (snd kx)) ps -> reads_back (VObj ps).
Proof.
  intros Hall text rest fuel Htext Hstop Hfuel.
  rewrite stringify_object in Htext. injection Htext as <-.
  rewrite json_image_object.
  destruct (wrap_text "{" "}" (join_comma (List.map member_text (kept ps))) rest) as [Ht Hlen].
  change (String "{" "") with "{" in *. change (String "}" "") with "}" in *.
  rewrite Ht. rewrite Hlen in Hfuel. clear Ht Hlen.
  destruct fuel as [|fuel]; [inversion Hfuel|].
  rewrite parse_value_S, value_step_object.
  assert (Hkept : Forall (fun kx => reads_back (snd kx) /\ written_out (snd kx) = true) (kept ps)).
  { unfold kept. clear -Hall. induction Hall as [|kx ps Hx _ IH]; [constructor|].
    cbn [List.filter]. destruct (written_out (snd kx)) eqn:Hw; [constructor; auto|exact IH]. }
  destruct (kept ps) as [|m ms] eqn:Hk.
  - reflexivity.
  - destruct (member_join_head (m :: ms)) as (t & Hj); [discriminate|].
    pose proof (members_read_back (m :: ms) Hkept ltac:(discriminate) rest fuel ltac:(lia)) as Hp.
    rewrite Hj in *. rewrite !append_cons in *.
    destruct (dquote_not_close (t ++ String "}" rest)) as [-> ->].
    rewrite Hp. reflexivity.
Qed.

Lemma reads_back_number (n : Z) : reads_back (VNum n).
Proof.
  intros text rest fuel Htext Hstop Hfuel. cbn [JSON_stringify] in Htext.
  injection Htext as <-. destruct fuel as [|fuel]; [inversion Hfuel|].
  rewrite parse_value_S.
  destruct (number_text_head n) as (c & t & Hn & Hc).
  pose proof (parse_number_text n rest Hstop) as Hp.
  rewrite Hn in *. rewrite append_cons in *.
  rewrite (value_step_number _ _ c (t ++ rest) Hc), Hp. reflexivity.
Qed.

Lemma reads_back_string (s : string) : reads_back (VStr s).
Proof.
  intros text rest fuel Htext Hstop Hfuel. cbn [JSON_stringify] in Htext.
  injection Htext as <-. destruct fuel as [|fuel]; [inversion Hfuel|].
  rewrite parse_value_S. unfold quote.
  rewrite append_cons, append_assoc, append_cons.
  change ("" ++ rest) with rest.
  rewrite value_step_string, parse_string_escaped. reflexivity.
Qed.

(** The text of a value, followed by anything that does not continue
    a numeral, reads back as the image of the value. *)
Lemma value_reads_back (v : value) : reads_back v.
Proof.
  induction v using value_induction.
  - intros text rest fuel H. discriminate H.
  - intros text rest fuel [= <-] _ Hfuel.
    destruct fuel as [|fuel]; [inversion Hfuel|]. reflexivity.
  - intros text rest fuel [= <-] _ Hfuel.
    destruct fuel as [|fuel]; [destruct b; inversion Hfuel|]. destruct b; reflexivity.
  - apply reads_back_number.
  - apply reads_back_string.
  - apply reads_back_array. assumption.
  - apply reads_back_object. assumption.
  - intros text rest fuel H. discriminate H.
Qed.

(** [JSON.parse(JSON.stringify(v))] *)
Theorem JSON_parse_stringify (v : value) (text : string) :
  JSON_stringify v = Some text -> JSON_parse text = Some (json_image v).
Proof.
  intros Htext. unfold JSON_parse.
  pose proof (value_reads_back v text "" (2 * String.length text + 2)%nat Htext eq_refl
                ltac:(lia)) as H.
  rewrite append_nil_r in H. rewrite H. reflexivity.
Qed.

End ReadBack.

Section NonEmptyCache.

Lemma cacheTeams_payload (now : Z) (x : value) (l : list value) (w : world) :
  payload_is_list w -> payload_is_list (snd (cacheTeams now (VArr (x :: l)) w)).
Proof.
  intros Hinv. unfold cacheTeams, try_catch, bind, setItem.
  destruct (_ <=? _)%N; [|exact Hinv].
  cbn [fst snd storage quota with_storage].
  destruct (_ <=? _)%N; unfold payload_is_list, ret; cbn [fst snd storage with_storage].
  - rewrite lookup_insert_ne by discriminate. rewrite lookup_insert_eq. eauto.
  - rewrite lookup_insert_eq. eauto.
Qed.

Lemma purged_payload (w : world) : payload_is_list (purged w).
Proof.
  unfold payload_is_list, purged. cbn [storage with_storage].
  rewrite lookup_delete_ne by discriminate. rewrite lookup_delete_eq. exact I.
Qed.

Lemma getCachedTeams_payload (now : Z) (w : world) :
  payload_is_list w -> payload_is_list (snd (getCachedTeams now w)).
Proof.
  intros Hinv.
  destruct (getCachedTeams_run now w) as (v & w' & Hrun & _ & _ & [Hst| ->]);
    rewrite Hrun; cbn [snd].
  - unfold payload_is_list in *. rewrite Hst. exact Hinv.
  - apply purged_payload.
Qed.

(** What the remote fetch completes with is a list. *)
Lemma fetchFromErgastAPI_list (e : env) (w w' : world) (v : value) :
  fetchFromErgastAPI e w = (Normal v, w') -> exists l, v = VArr l.
Proof.
  unfold fetchFromErgastAPI, race_timeout.
  destruct (ergast_chain e w) as [r w1] eqn:Hchain.
  destruct (timer_first e); [discriminate|]. intros [= -> ->].
  revert Hchain. unfold ergast_chain, ergast_on_response, ergast_on_data, bind, fetch.
  destruct (network e ERGAST_TEAMS_URL) as [resp|]; [|discriminate].
  destruct (ok resp); cbn [negb]; [|discriminate].
  unfold response_json. destruct (body resp) as [d|]; [|discriminate].
  unfold ret at 1.
  destruct (member d "MRData" _) as [[m|err] w2]; [|discriminate].
  match goal with |- context [if ?c then _ else _] => destruct c end; [discriminate|].
  match goal with |- context [as_array ?x ?w] => destruct (as_array x w) as [[l|err] w3] end;
    [|discriminate].
  destruct (mapM (ergast_team e) l w3) as [[rs|err] w4]; [|discriminate].
  intros [= <- _]. eauto.
Qed.

Lemma has_items_list (l : list value) :
  has_items (VArr l) = true -> exists x l', l = x :: l'.
Proof. destruct l as [|x l]; [discriminate|eauto]. Qed.

Lemma has_items_list_or_falsy (x : value) :
  list_or_falsy x = true -> has_items x = true -> exists y l, x = VArr (y :: l).
Proof.
  intros Hl Hi. destruct x; unfold has_items in Hi; cbn [list_or_falsy] in Hl;
    try (apply negb_true_iff in Hl; rewrite Hl in Hi; discriminate Hi).
  destruct (has_items_list elems) as (y & l & ->); [exact Hi|eauto].
Qed.

Lemma fetchFallbackJSON_shape (e : env) (w : world) :
  fallback_teams_is_list e = true ->
  exists d, fetchFallbackJSON e w = (Normal d, with_call FALLBACK_URL w)
            /\ (truthy d = false \/ list_or_falsy (get_prop d "teams") = true).
Proof.
  unfold fallback_teams_is_list, fetchFallbackJSON, try_catch, bind, fetch.
  destruct (network e FALLBACK_URL) as [r|]; [|intros _; eexists; split; [reflexivity|auto]].
  destruct (ok r); cbn [negb]; [|intros _; eexists; split; [reflexivity|auto]].
  unfold response_json.
  destruct (body r) as [doc|]; intros H; eexists; (split; [reflexivity|auto]).
Qed.

Lemma fallback_stage_payload (e : env) (w : world) :
  fallback_teams_is_list e = true -> payload_is_list w ->
  payload_is_list (snd (fallback_stage e w)).
Proof.
  intros Hshape Hinv. unfold fallback_stage, bind at 1.
  destruct (fetchFallbackJSON_shape e w Hshape) as (d & -> & Hd).
  destruct (truthy d) eqn:Ht; cbn [andb]; [|exact Hinv].
  destruct Hd as [Hd|Hd]; [discriminate|].
  destruct (has_items (get_prop d "teams")) eqn:Hi; [|exact Hinv].
  destruct (has_items_list_or_falsy _ Hd Hi) as (y & l & ->).
  unfold bind.
  pose proof (cacheTeams_payload (clock_write e) y l (with_call FALLBACK_URL w) Hinv) as Hc.
  destruct (cacheTeams_run (clock_write e) (VArr (y :: l)) (with_call FALLBACK_URL w))
    as (w' & Hrun & _).
  rewrite Hrun in *. exact Hc.
Qed.

Lemma fallback_stage_normal (e : env) (w : world) :
  exists v w', fallback_stage e w = (Normal v, w').
Proof.
  unfold fallback_stage, bind at 1.
  destruct (fetchFallbackJSON_run e w) as (d & ->).
  destruct (truthy d && has_items (get_prop d "teams")); [|eexists; eexists; reflexivity].
  unfold bind.
  destruct (cacheTeams_run (clock_write e) (get_prop d "teams") (with_call FALLBACK_URL w))
    as (w' & -> & _).
  eexists; eexists; reflexivity.
Qed.

(** One run of the pipeline keeps the payload a non-empty list. *)
Lemma fetchTeamsData_payload (e : env) (w : world) :
  fallback_teams_is_list e = true -> payload_is_list w ->
  payload_is_list (snd (fetchTeamsData e w)).
Proof.
  intros Hshape Hinv.
  unfold fetchTeamsData. fold (fallback_stage e).
  unfold try_catch at 1, bind at 1.
  pose proof (getCachedTeams_payload (clock_read e) w Hinv) as Hread.
  destruct (getCachedTeams_run (clock_read e) w) as (v & w1 & Hrun & _).
  rewrite Hrun in *. cbn [snd] in Hread.
  destruct (truthy v); [exact Hread|].
  unfold bind at 1, try_catch at 1, bind at 1.
  pose proof (fetchFromErgastAPI_world e w1) as Hw.
  pose proof (fallback_stage_payload e (with_call ERGAST_TEAMS_URL w1) Hshape Hread) as Hfb.
  destruct (fallback_stage_normal e (with_call ERGAST_TEAMS_URL w1)) as (fv & fw & Hfbn).
  destruct (fetchFromErgastAPI e w1) as [[api|err] w2] eqn:Hapi; cbn [snd] in Hw; subst w2.
  - destruct (fetchFromErgastAPI_list e w1 _ api Hapi) as [l ->].
    destruct (has_items (VArr l)) eqn:Hitems.
    + destruct (has_items_list l Hitems) as (x & l' & ->).
      unfold bind at 1.
      pose proof (cacheTeams_payload (clock_write e) x l'
                    (with_call ERGAST_TEAMS_URL w1) Hread) as Hc.
      destruct (cacheTeams_run (clock_write e) (VArr (x :: l')) (with_call ERGAST_TEAMS_URL w1))
        as (w3 & Hrun3 & _).
      rewrite Hrun3 in *. exact Hc.
    + unfold ret at 1. cbv iota beta. rewrite Hfbn in *. exact Hfb.
  - unfold ret at 1. cbv iota beta. rewrite Hfbn in *. exact Hfb.
Qed.

Lemma run_pipeline_payload (es : list env) (w : world) :
  forallb fallback_teams_is_list es = true -> payload_is_list w ->
  payload_is_list (run_pipeline es w).
Proof.
  revert w. induction es as [|e es IH]; intros w Hs Hinv; [exact Hinv|].
  cbn [forallb] in Hs. apply andb_true_iff in Hs as [He Hes].
  cbn [run_pipeline]. apply IH; [exact Hes|]. apply fetchTeamsData_payload; assumption.
Qed.

(** What a read returns is [null] or the parsed payload. *)
Lemma getCachedTeams_result (now : Z) (w w' : world) (v : value) :
  getCachedTeams now w = (Normal v, w') ->
  v = VNull \/ exists text, storage w !! CACHE_KEY = Some text /\ JSON_parse text = Some v.
Proof.
  unfold getCachedTeams, try_catch, bind, getItem.
  destruct (storage w !! CACHE_TIMESTAMP_KEY) as [ts|]; [|intros [= <- _]; auto].
  destruct (String.eqb ts ""); [intros [= <- _]; auto|].
  destruct (older_than_duration now ts); [cbn; intros [= <- _]; auto|].
  destruct (storage w !! CACHE_KEY) as [text|]; [|intros [= <- _]; auto].
  destruct (String.eqb text ""); [intros [= <- _]; auto|].
  unfold JSON_parse_or_throw. destruct (JSON_parse text) as [x|] eqn:E.
  - intros [= <- _]. right. eauto.
  - cbn. intros [= <- _]. auto.
Qed.

End NonEmptyCache.

(** C10, as stated, fails: the length check before the cache write
    does not ask for a list. A static file whose [teams] member is the
    text [ab] passes it, the text is cached, and the next cache read,
    and the next run of the pipeline, return that text. *)
Lemma cache_hit_can_be_a_text :
  has_key CACHE_KEY empty_world = false
  /\ fst (getCachedTeams 1700000000200 (run_pipeline [fallback_text] empty_world))
     = Normal (VStr "ab")
  /\ fst (fetchTeamsData offline (run_pipeline [fallback_text] empty_world))
     = Normal (VStr "ab").
Proof. repeat split. Qed.

(** C10, amended. With a static file whose [teams] member, when
    present, is a list, the pipeline writes only non-empty lists to the
    cache: in every store reached from one without a payload by runs of
    [fetchTeamsData] the payload key holds the text of a non-empty
    list, and a cache read that returns a value returns a non-empty
    list. *)
Theorem cache_hit_is_nonempty_list (es : list env) (w0 : world) :
  has_key CACHE_KEY w0 = false ->
  forallb fallback_teams_is_list es = true ->
  payload_is_list (run_pipeline es w0)
  /\ (forall now v w',
        getCachedTeams now (run_pipeline es w0) = (Normal v, w') -> v <> VNull ->
        exists x l, v = VArr (x :: l)).
Proof.
  intros Hk Hs.
  assert (Hinv : payload_is_list (run_pipeline es w0)).
  { apply run_pipeline_payload; [exact Hs|].
    unfold payload_is_list. unfold has_key in Hk.
    destruct (storage w0 !! CACHE_KEY); [discriminate|exact I]. }
  split; [exact Hinv|].
  intros now v w' Hread Hv.
  destruct (getCachedTeams_result now _ w' v Hread) as [->|(text & Htext & Hparse)];
    [contradiction|].
  unfold payload_is_list in Hinv. rewrite Htext in Hinv.
  destruct Hinv as (x & l & ->).
  unfold stringify_text in Hparse. rewrite stringify_array in Hparse.
  rewrite (JSON_parse_stringify (VArr (x :: l)) _ (stringify_array (x :: l))) in Hparse.
  injection Hparse as <-. eexists. eexists. reflexivity.
Qed.

Lemma cache_hit_is_nonempty_list_witness :
  exists x l,
    fst (getCachedTeams 1700000000200
           (run_pipeline [fallback_only; answering ergast_two_teams; offline] empty_world))
      = Normal (VArr (x :: l)).
Proof.
  destruct (cache_hit_is_nonempty_list
              [fallback_only; answering ergast_two_teams; offline] empty_world
              eq_refl eq_refl) as [_ H].
  destruct (getCachedTeams 1700000000200
              (run_pipeline [fallback_only; answering ergast_two_teams; offline] empty_world))
    as [[v|err] w'] eqn:E.
  - destruct (H 1700000000200 v w' E) as (x & l & ->).
    + intros ->. vm_compute in E. discriminate E.
    + exists x, l. reflexivity.
  - vm_compute in E. discriminate E.
Defined.

Section WriteThenRead.

Lemma read_radix_uint (p : positive) :
  read_radix (NilEmpty.string_of_uint (Pos.to_uint p))
    = (10, NilEmpty.string_of_uint (Pos.to_uint p)).
Proof.
  pose proof (to_uint_head p) as H.
  destruct (Pos.to_uint p) as [|u|u|u|u|u|u|u|u|u|u]; try reflexivity.
  cbn [udigits] in H. contradiction.
Qed.

Lemma read_sign_uint (d : Decimal.uint) :
  d <> Nil -> read_sign (NilEmpty.string_of_uint d) = (1, NilEmpty.string_of_uint d).
Proof. destruct d; [contradiction|reflexivity..]. Qed.

Lemma parseInt_digits (sign : Z) (p : positive) :
  match take_digits 10 (NilEmpty.string_of_uint (Pos.to_uint p)) with
  | ([], _) => None
  | (ds, _) => Some (sign * digits_value 10 ds)
  end = Some (sign * Z.pos p).
Proof.
  pose proof (take_digits_uint (Pos.to_uint p) "" eq_refl) as H.
  rewrite append_nil_r in H. rewrite H.
  pose proof (to_uint_head p) as Hhead.
  assert (Hval : digits_value 10 (udigits (Pos.to_uint p)) = Z.pos p)
    by (rewrite digits_value_uint, Unsigned.of_to; reflexivity).
  destruct (udigits (Pos.to_uint p)); [contradiction|]. rewrite Hval. reflexivity.
Qed.

(** The text of a number reads back as the number. *)
Lemma parseInt_number_toString (n : Z) : parseInt_string (number_toString n) = Some n.
Proof.
  unfold parseInt_string, number_toString.
  destruct n as [|p|p]; cbn [Z.to_int NilZero.string_of_int]; [reflexivity|..].
  - rewrite (uint_text_nonnil _ (Unsigned.to_uint_nonnil p)).
    assert (Ht : trimStart (NilEmpty.string_of_uint (Pos.to_uint p))
                 = NilEmpty.string_of_uint (Pos.to_uint p)).
    { pose proof (Unsigned.to_uint_nonnil p) as Hn.
      destruct (Pos.to_uint p); [contradiction|reflexivity..]. }
    rewrite Ht, (read_sign_uint _ (Unsigned.to_uint_nonnil p)), read_radix_uint.
    rewrite (parseInt_digits 1 p). reflexivity.
  - rewrite (uint_text_nonnil _ (Unsigned.to_uint_nonnil p)).
    change (trimStart (String "-" (NilEmpty.string_of_uint (Pos.to_uint p))))
      with (String "-" (NilEmpty.string_of_uint (Pos.to_uint p))).
    change (read_sign (String "-" (NilEmpty.string_of_uint (Pos.to_uint p))))
      with (-1, NilEmpty.string_of_uint (Pos.to_uint p)).
    cbv iota beta. rewrite read_radix_uint, (parseInt_digits (-1) p). reflexivity.
Qed.

Lemma number_toString_nonempty (n : Z) : number_toString n <> "".
Proof. destruct (number_text_head n) as (c & t & -> & _). discriminate. Qed.

Lemma stringify_nonempty (v : value) (text : string) :
  JSON_stringify v = Some text -> text <> "".
Proof.
  intros H. destruct (elem_text_head v) as (c & t & Ht & _).
  unfold elem_text in Ht. rewrite H in Ht. subst text. discriminate.
Qed.

(** Cache overwrite: a second write replaces the first, it does not
    merge with it. *)
Lemma written_twice (a b : Z) (u v : value) (w : world) :
  written b v (written a u w) = written b v w.
Proof.
  unfold written, with_storage. cbn [storage quota calls]. f_equal.
  apply map_eq. intros k. rewrite !lookup_insert.
  repeat case_decide; reflexivity.
Qed.

(** A list written at [now] and read at most 24 hours later comes back
    as its JSON image, and the store stays as written. *)
Lemma read_after_write (now later : Z) (v : value) (text : string) (w : world) :
  JSON_stringify v = Some text ->
  later - now <= CACHE_DURATION ->
  getCachedTeams later (written now v w) = (Normal (json_image v), written now v w).
Proof.
  intros Htext Hage.
  rewrite (getCachedTeams_entry later (written now v w) (number_toString now) text).
  - unfold older_than_duration. rewrite parseInt_number_toString.
    destruct (Z.ltb_spec CACHE_DURATION (later - now)); [lia|].
    rewrite (JSON_parse_stringify v text Htext). reflexivity.
  - unfold written. cbn [storage with_storage]. apply lookup_insert_eq.
  - apply number_toString_nonempty.
  - unfold written, stringify_text. cbn [storage with_storage]. rewrite Htext.
    rewrite lookup_insert_ne by discriminate. apply lookup_insert_eq.
  - exact (stringify_nonempty v text Htext).
Qed.

End WriteThenRead.

(** * The fallthrough and its cache write *)

(** C4, as stated, fails where the store has no room: the remote fetch
    has failed, the static file lists two teams, the run returns them,
    and no cache write is left, neither payload nor timestamp. *)
Lemma fallthrough_without_cache_write :
  fst (fetchTeamsData fallback_only tight_world)
    = Normal (VArr [VObj [("id", VStr "ferrari")]; VObj [("id", VStr "mclaren")]])
  /\ storage (snd (fetchTeamsData fallback_only tight_world)) !! CACHE_KEY = None
  /\ storage (snd (fetchTeamsData fallback_only tight_world)) !! CACHE_TIMESTAMP_KEY = None.
Proof. repeat split. Qed.

(** C4, amended. Fallthrough: when the cache read yields absent and the
    remote fetch throws, a fallback document whose [teams] member is a
    non-empty list makes [fetchTeamsData] return exactly that list,
    whether or not the store takes the cache write. When the store
    accepts the two items of the write (the JSON text of the list and
    the decimal text of the write time), the payload key holds that
    JSON text, which parses back to the list (its JSON image), the
    timestamp key holds a text that reads as the write time, and a
    cache read at most 24 hours after the write returns the list. A
    document whose [teams] member is missing, [null] or empty yields
    the empty list and no cache write. *)
Theorem fetchTeamsData_fallthrough
    (e : env) (w w1 : world) (v doc : value) (err : js_error) (r : response) :
  getCachedTeams (clock_read e) w = (Normal v, w1) -> truthy v = false ->
  fst (fetchFromErgastAPI e w1) = Throw err ->
  network e FALLBACK_URL = Some r -> ok r = true -> body r = Some doc ->
  let w3 := with_call FALLBACK_URL (with_call ERGAST_TEAMS_URL w1) in
  (forall t ts, get_prop doc "teams" = VArr (t :: ts) ->
     exists w',
       fetchTeamsData e w = (Normal (VArr (t :: ts)), w')
       /\ (forall text,
             JSON_stringify (VArr (t :: ts)) = Some text ->
             fits CACHE_KEY text w3 = true ->
             fits CACHE_TIMESTAMP_KEY (number_toString (clock_write e))
               (with_storage (<[CACHE_KEY := text]> (storage w3)) w3) = true ->
             storage w' !! CACHE_KEY = Some text
             /\ JSON_parse text = Some (json_image (VArr (t :: ts)))
             /\ (exists stamp,
                   storage w' !! CACHE_TIMESTAMP_KEY = Some stamp
                   /\ parseInt_string stamp = Some (clock_write e))
             /\ (forall later, later - clock_write e <= CACHE_DURATION ->
                   getCachedTeams later w'
                     = (Normal (json_image (VArr (t :: ts))), w'))))
  /\ (no_teams doc = true -> fetchTeamsData e w = (Normal (VArr []), w3)).
Proof.
  intros Hread Hv Hapi Hn Hok Hb w3.
  pose proof (fetchFallbackJSON_document e (with_call ERGAST_TEAMS_URL w1) r doc Hn Hok Hb) as Hdoc.
  assert (Hfb : fst (fetchFallbackJSON e (with_call ERGAST_TEAMS_URL w1)) = Normal doc)
    by (rewrite Hdoc; reflexivity).
  pose proof (fetchTeamsData_fallback_stage e w w1 v doc err Hread Hv Hapi Hfb) as Hstage.
  cbv zeta in Hstage. fold w3 in Hstage. split.
  - intros t ts Hteams. rewrite Hteams in Hstage.
    rewrite (get_prop_array_truthy doc "teams" _ Hteams), has_items_cons in Hstage.
    exists (snd (cacheTeams (clock_write e) (VArr (t :: ts)) w3)).
    split; [exact Hstage|].
    intros text Htext F1 F2.
    assert (Hst : stringify_text (VArr (t :: ts)) = text)
      by (unfold stringify_text; rewrite Htext; reflexivity).
    rewrite cacheTeams_fits by (rewrite Hst; assumption). cbn [snd].
    split; [|split; [|split]].
    + unfold written. cbn [storage with_storage]. rewrite Hst.
      rewrite lookup_insert_ne by discriminate. apply lookup_insert_eq.
    + exact (JSON_parse_stringify _ _ Htext).
    + exists (number_toString (clock_write e)). split.
      * unfold written. cbn [storage with_storage]. apply lookup_insert_eq.
      * apply parseInt_number_toString.
    + intros later Hage.
      exact (read_after_write (clock_write e) later (VArr (t :: ts)) text w3 Htext Hage).
  - intros Hno. rewrite (no_teams_no_items doc Hno) in Hstage. exact Hstage.
Qed.

Lemma fetchTeamsData_fallthrough_witness :
  exists w',
    fetchTeamsData fallback_only empty_world
      = (Normal (VArr [VObj [("id", VStr "ferrari")]; VObj [("id", VStr "mclaren")]]), w')
    /\ (exists text,
          storage w' !! CACHE_KEY = Some text
          /\ JSON_parse text
             = Some (VArr [VObj [("id", VStr "ferrari")]; VObj [("id", VStr "mclaren")]]))
    /\ getCachedTeams 1700086400100 w'
       = (Normal (VArr [VObj [("id", VStr "ferrari")]; VObj [("id", VStr "mclaren")]]), w').
Proof.
  pose proof (fetchTeamsData_fallthrough fallback_only empty_world empty_world VNull
                (VObj [("teams",
                   VArr [VObj [("id", VStr "ferrari")]; VObj [("id", VStr "mclaren")]])])
                (TypeError "Failed to fetch")
                (mkResponse 200 (Some (VObj [("teams",
                   VArr [VObj [("id", VStr "ferrari")]; VObj [("id", VStr "mclaren")]])])))
                eq_refl eq_refl eq_refl eq_refl eq_refl eq_refl) as [H _].
  destruct (H (VObj [("id", VStr "ferrari")]) [VObj [("id", VStr "mclaren")]] eq_refl)
    as (w' & Hrun & Hwrite).
  destruct (JSON_stringify (VArr [VObj [("id", VStr "ferrari")]; VObj [("id", VStr "mclaren")]]))
    as [text|] eqn:Htext; [|discriminate Htext].
  destruct (Hwrite text eq_refl) as (Hkey & Hparse & _ & Hlater).
  - vm_compute in Htext. injection Htext as <-. reflexivity.
  - vm_compute in Htext. injection Htext as <-. reflexivity.
  - exists w'. split; [exact Hrun|]. split.
    + exists text. split; [exact Hkey|exact Hparse].
    + apply Hlater. vm_compute. discriminate.
Defined.

(** * Further properties of the code *)

(** ** The pipeline and the store around it *)

Section PipelineEffects.

(** The stages of the pipeline change no key of the store but the two
    of the cache. *)
Lemma purged_frame (w : world) (k : string) :
  k <> CACHE_KEY -> k <> CACHE_TIMESTAMP_KEY ->
  storage (purged w) !! k = storage w !! k.
Proof.
  intros H1 H2. unfold purged. cbn [storage with_storage].
  rewrite lookup_delete_ne by congruence. apply lookup_delete_ne. congruence.
Qed.

Lemma cacheTeams_frame (now : Z) (v : value) (w : world) (k : string) :
  k <> CACHE_KEY -> k <> CACHE_TIMESTAMP_KEY ->
  storage (snd (cacheTeams now v w)) !! k = storage w !! k.
Proof.
  intros H1 H2. unfold cacheTeams, try_catch, bind, setItem.
  destruct (_ <=? _)%N; [|reflexivity].
  cbn [storage with_storage quota].
  destruct (_ <=? _)%N; cbn [snd storage with_storage].
  - rewrite lookup_insert_ne by congruence. apply lookup_insert_ne. congruence.
  - apply lookup_insert_ne. congruence.
Qed.

Lemma getCachedTeams_frame (now : Z) (w : world) (k : string) :
  k <> CACHE_KEY -> k <> CACHE_TIMESTAMP_KEY ->
  storage (snd (getCachedTeams now w)) !! k = storage w !! k.
Proof.
  intros H1 H2.
  destruct (getCachedTeams_run now w) as (v & w' & -> & _ & _ & [Hs| ->]); cbn [snd].
  - rewrite Hs. reflexivity.
  - apply purged_frame; assumption.
Qed.

Lemma fallback_stage_effects (e : env) (w : world) :
  exists v w', fallback_stage e w = (Normal v, w')
    /\ quota w' = quota w
    /\ calls w' = (calls w ++ [FALLBACK_URL])%list
    /\ forall k, k <> CACHE_KEY -> k <> CACHE_TIMESTAMP_KEY ->
         storage w' !! k = storage w !! k.
Proof.
  unfold fallback_stage, bind at 1.
  destruct (fetchFallbackJSON_run e w) as (d & ->).
  destruct (truthy d && has_items (get_prop d "teams")).
  - unfold bind.
    pose proof (cacheTeams_frame (clock_write e) (get_prop d "teams")
                  (with_call FALLBACK_URL w)) as Hf.
    destruct (cacheTeams_run (clock_write e) (get_prop d "teams") (with_call FALLBACK_URL w))
      as (w' & Hrun & Hc & Hq).
    rewrite Hrun in *. cbn [snd] in Hf.
    exists (get_prop d "teams"), w'. repeat split; [exact Hq|exact Hc|exact Hf].
  - exists (VArr []), (with_call FALLBACK_URL w). repeat split.
Qed.

End PipelineEffects.

(** X1. The footprint of a run of [fetchTeamsData]: it never throws,
    whatever the store holds and whatever the network does; it makes
    no request at all, or one request to the remote source, or one
    request to the remote source followed by one to the static file
    (the fallback is never asked before the remote source, and no
    source is asked twice); and of [localStorage] it touches its two
    keys only: every other key (the theme preference, the contact
    messages) keeps its value through the reads, writes and purges of
    the run. *)
Theorem fetchTeamsData_footprint (e : env) (w : world) :
  exists v w', fetchTeamsData e w = (Normal v, w')
    /\ quota w' = quota w
    /\ (calls w' = calls w
        \/ calls w' = (calls w ++ [ERGAST_TEAMS_URL])%list
        \/ calls w' = (calls w ++ [ERGAST_TEAMS_URL; FALLBACK_URL])%list)
    /\ forall k, k <> CACHE_KEY -> k <> CACHE_TIMESTAMP_KEY ->
         storage w' !! k = storage w !! k.
Proof.
  unfold fetchTeamsData. fold (fallback_stage e).
  unfold try_catch at 1, bind at 1.
  pose proof (getCachedTeams_frame (clock_read e) w) as Hframe.
  destruct (getCachedTeams_run (clock_read e) w) as (v & w1 & Hrun & Hc1 & Hq1 & _).
  rewrite Hrun in *. cbn [snd] in Hframe.
  destruct (truthy v).
  { exists v, w1. repeat split; [exact Hq1|left; exact Hc1|exact Hframe]. }
  unfold bind at 1, try_catch at 1, bind at 1.
  pose proof (fetchFromErgastAPI_world e w1) as Hw.
  destruct (fallback_stage_effects e (with_call ERGAST_TEAMS_URL w1))
    as (fv & fw & Hfb & Hfq & Hfc & Hff).
  assert (Hfall : exists v' w', (Normal fv, fw) = (Normal v', w')
            /\ quota w' = quota w
            /\ (calls w' = calls w
                \/ calls w' = (calls w ++ [ERGAST_TEAMS_URL])%list
                \/ calls w' = (calls w ++ [ERGAST_TEAMS_URL; FALLBACK_URL])%list)
            /\ forall k, k <> CACHE_KEY -> k <> CACHE_TIMESTAMP_KEY ->
                 storage w' !! k = storage w !! k).
  { exists fv, fw. split; [reflexivity|]. split; [rewrite Hfq; exact Hq1|]. split.
    - right; right. rewrite Hfc. cbn [calls with_call]. rewrite Hc1, <- app_assoc. reflexivity.
    - intros k H1 H2. rewrite (Hff k H1 H2). cbn [storage with_call]. exact (Hframe k H1 H2). }
  destruct (fetchFromErgastAPI e w1) as [[api|err] w2] eqn:Hapi; cbn [snd] in Hw; subst w2.
  - destruct (has_items api).
    + unfold bind at 1.
      pose proof (cacheTeams_frame (clock_write e) api (with_call ERGAST_TEAMS_URL w1)) as Hcf.
      destruct (cacheTeams_run (clock_write e) api (with_call ERGAST_TEAMS_URL w1))
        as (w3 & Hrun3 & Hc3 & Hq3).
      rewrite Hrun3 in *. cbn [snd] in Hcf.
      exists api, w3. split; [reflexivity|]. split; [rewrite Hq3; exact Hq1|]. split.
      * right; left. rewrite Hc3. cbn [calls with_call]. rewrite Hc1. reflexivity.
      * intros k H1 H2. rewrite (Hcf k H1 H2). cbn [storage with_call]. exact (Hframe k H1 H2).
    + unfold ret at 1. cbv iota beta. rewrite Hfb. exact Hfall.
  - unfold ret at 1. cbv iota beta. rewrite Hfb. exact Hfall.
Qed.

Lemma fetchTeamsData_footprint_witness :
  exists v w', fetchTeamsData fallback_only themed_world = (Normal v, w')
    /\ calls w' = [ERGAST_TEAMS_URL; FALLBACK_URL]
    /\ storage w' !! "f1_theme" = Some "light".
Proof.
  destruct (fetchTeamsData_footprint fallback_only themed_world)
    as (v & w' & Hrun & _ & _ & Hkeys).
  exists v, w'. split; [exact Hrun|].
  assert (Hw : w' = snd (fetchTeamsData fallback_only themed_world))
    by (rewrite Hrun; reflexivity).
  split; [rewrite Hw; reflexivity|].
  rewrite (Hkeys "f1_theme") by discriminate. reflexivity.
Defined.
Section RemoteStage.

(** After a cache miss, a remote stage that throws or yields nothing
    to keep hands the run over to the fallback stage. *)
Lemma fetchTeamsData_to_fallback (e : env) (w w1 : world) (v : value) :
  getCachedTeams (clock_read e) w = (Normal v, w1) -> truthy v = false ->
  match fst (fetchFromErgastAPI e w1) with
  | Normal api => has_items api = false
  | Throw _ => True
  end ->
  fetchTeamsData e w = fallback_stage e (with_call ERGAST_TEAMS_URL w1).
Proof.
  intros Hread Hv Hapi.
  unfold fetchTeamsData. fold (fallback_stage e).
  unfold try_catch at 1, bind at 1. rewrite Hread, Hv.
  unfold bind at 1, try_catch at 1, bind at 1.
  pose proof (fetchFromErgastAPI_world e w1) as Hw.
  destruct (fallback_stage_normal e (with_call ERGAST_TEAMS_URL w1)) as (fv & fw & Hfb).
  destruct (fetchFromErgastAPI e w1) as [[api|err] w2]; cbn [fst snd] in Hapi, Hw; subst w2.
  - rewrite Hapi. unfold ret at 1. cbv iota beta. rewrite Hfb. reflexivity.
  - unfold ret at 1. cbv iota beta. rewrite Hfb. reflexivity.
Qed.

Lemma fetchFromErgastAPI_late (e : env) (w : world) :
  timer_first e = true ->
  fetchFromErgastAPI e w = (Throw (Error "Fetch timeout"), with_call ERGAST_TEAMS_URL w).
Proof.
  intros Ht. pose proof (fetchFromErgastAPI_world e w) as Hw. revert Hw.
  unfold fetchFromErgastAPI, race_timeout.
  destruct (ergast_chain e w) as [r w1]. rewrite Ht. cbn [snd]. intros ->. reflexivity.
Qed.

End RemoteStage.

(** X2. Timeout race: when the timer settles before the remote request
    does, [fetchFromErgastAPI] throws the error [Fetch timeout] whatever
    the network would have answered; the request has been issued all the
    same. A run of [fetchTeamsData] whose cache read gave nothing then
    goes on with the static fallback. *)
Theorem fetchFromErgastAPI_timeout (e : env) (w : world) :
  timer_first e = true ->
  fetchFromErgastAPI e w = (Throw (Error "Fetch timeout"), with_call ERGAST_TEAMS_URL w)
  /\ (forall v w1,
        getCachedTeams (clock_read e) w = (Normal v, w1) -> truthy v = false ->
        fetchTeamsData e w = fallback_stage e (with_call ERGAST_TEAMS_URL w1)).
Proof.
  intros Ht. split; [exact (fetchFromErgastAPI_late e w Ht)|].
  intros v w1 Hread Hv. apply (fetchTeamsData_to_fallback e w w1 v Hread Hv).
  rewrite (fetchFromErgastAPI_late e w1 Ht). exact I.
Qed.

Lemma fetchFromErgastAPI_timeout_witness :
  fetchFromErgastAPI slow_network empty_world
    = (Throw (Error "Fetch timeout"), with_call ERGAST_TEAMS_URL empty_world)
  /\ fetchTeamsData slow_network empty_world
     = fallback_stage slow_network (with_call ERGAST_TEAMS_URL empty_world).
Proof.
  pose proof (fetchFromErgastAPI_timeout slow_network empty_world eq_refl) as [H1 H2].
  split; [exact H1|]. exact (H2 VNull empty_world eq_refl eq_refl).
Defined.

(** X3. Remote success: after a cache miss, a remote answer in time
    with a well-formed, non-empty team list, each team with a string
    name and a founding year that [parseInt] can read, makes
    [fetchTeamsData] return the normalized records of that list, one
    per upstream team and in the same order; the world it leaves is the
    one of the cache write of these records after the single remote
    request, so the static fallback is not asked; and when the store
    accepts the two items of that write, a cache read at most 24 hours
    later returns the records (their JSON image). *)
Theorem fetchTeamsData_remote_success
    (e : env) (w w1 : world) (v : value) (r : response) (data : value)
    (team : value) (teams : list value) (names : list string) :
  getCachedTeams (clock_read e) w = (Normal v, w1) -> truthy v = false ->
  network e ERGAST_TEAMS_URL = Some r -> timer_first e = false ->
  ok r = true -> body r = Some data ->
  envelope_teams data = Some (team :: teams) -> Forall2 named (team :: teams) names ->
  forallb year_readable (team :: teams) = true ->
  exists records,
    fetchTeamsData e w
      = (Normal (VArr records),
         snd (cacheTeams (clock_write e) (VArr records) (with_call ERGAST_TEAMS_URL w1)))
    /\ Forall2 normalized_from names records
    /\ calls (snd (fetchTeamsData e w)) = (calls w ++ [ERGAST_TEAMS_URL])%list
    /\ (forall text later,
          JSON_stringify (VArr records) = Some text ->
          fits CACHE_KEY text (with_call ERGAST_TEAMS_URL w1) = true ->
          fits CACHE_TIMESTAMP_KEY (number_toString (clock_write e))
            (with_storage (<[CACHE_KEY := text]> (storage w1))
               (with_call ERGAST_TEAMS_URL w1)) = true ->
          later - clock_write e <= CACHE_DURATION ->
          storage (snd (fetchTeamsData e w)) !! CACHE_KEY = Some text
          /\ getCachedTeams later (snd (fetchTeamsData e w))
             = (Normal (json_image (VArr records)), snd (fetchTeamsData e w))).
Proof.
  intros Hread Hv Hnet Ht Hok Hbody Henv Hnames Hyears.
  destruct (fetchFromErgastAPI_normalizes e w1 r data (team :: teams) names
              Hnet Ht Hok Hbody Henv Hnames Hyears) as (records & Hapi & Hrec).
  exists records.
  assert (Hitems : has_items (VArr records) = true).
  { inversion Hnames; subst. inversion Hrec; subst. apply has_items_cons. }
  assert (Hrun : fetchTeamsData e w
      = (Normal (VArr records),
         snd (cacheTeams (clock_write e) (VArr records) (with_call ERGAST_TEAMS_URL w1)))).
  { unfold fetchTeamsData, try_catch at 1, bind at 1. rewrite Hread, Hv.
    unfold bind at 1, try_catch at 1, bind at 1. rewrite Hapi, Hitems.
    unfold bind at 1.
    destruct (cacheTeams_run (clock_write e) (VArr records) (with_call ERGAST_TEAMS_URL w1))
      as (w3 & -> & _). reflexivity. }
  split; [exact Hrun|]. split; [exact Hrec|].
  rewrite Hrun. cbn [snd]. split.
  - destruct (cacheTeams_run (clock_write e) (VArr records) (with_call ERGAST_TEAMS_URL w1))
      as (w3 & -> & Hc & _). cbn [snd]. rewrite Hc. cbn [calls with_call].
    destruct (getCachedTeams_run (clock_read e) w) as (v' & w' & H & Hc' & _).
    rewrite Hread in H. injection H as -> ->. rewrite Hc'. reflexivity.
  - intros text later Htext F1 F2 Hage.
    assert (Hst : stringify_text (VArr records) = text)
      by (unfold stringify_text; rewrite Htext; reflexivity).
    rewrite cacheTeams_fits by (rewrite Hst; assumption). cbn [snd]. split.
    + unfold written. cbn [storage with_storage with_call]. rewrite Hst.
      rewrite lookup_insert_ne by discriminate. apply lookup_insert_eq.
    + exact (read_after_write (clock_write e) later (VArr records) text _ Htext Hage).
Qed.

Lemma fetchTeamsData_remote_success_witness :
  exists records,
    fetchTeamsData (answering ergast_two_teams) empty_world
      = (Normal (VArr records),
         snd (cacheTeams 1700000000100 (VArr records)
                (with_call ERGAST_TEAMS_URL empty_world)))
    /\ Forall2 normalized_from ["Red Bull"; "Ferrari"] records
    /\ calls (snd (fetchTeamsData (answering ergast_two_teams) empty_world))
       = [ERGAST_TEAMS_URL].
Proof.
  cut (exists records,
    fetchTeamsData (answering ergast_two_teams) empty_world
      = (Normal (VArr records),
         snd (cacheTeams (clock_write (answering ergast_two_teams)) (VArr records)
                (with_call ERGAST_TEAMS_URL empty_world)))
    /\ Forall2 normalized_from ["Red Bull"; "Ferrari"] records
    /\ calls (snd (fetchTeamsData (answering ergast_two_teams) empty_world))
       = (calls empty_world ++ [ERGAST_TEAMS_URL])%list
    /\ (forall text later,
          JSON_stringify (VArr records) = Some text ->
          fits CACHE_KEY text (with_call ERGAST_TEAMS_URL empty_world) = true ->
          fits CACHE_TIMESTAMP_KEY
            (number_toString (clock_write (answering ergast_two_teams)))
            (with_storage (<[CACHE_KEY := text]> (storage empty_world))
               (with_call ERGAST_TEAMS_URL empty_world)) = true ->
          later - clock_write (answering ergast_two_teams) <= CACHE_DURATION ->
          storage (snd (fetchTeamsData (answering ergast_two_teams) empty_world))
            !! CACHE_KEY = Some text
          /\ getCachedTeams later
               (snd (fetchTeamsData (answering ergast_two_teams) empty_world))
             = (Normal (json_image (VArr records)),
                snd (fetchTeamsData (answering ergast_two_teams) empty_world)))).
  { intros (records & H1 & H2 & H3 & _). exists records. auto. }
  apply (fetchTeamsData_remote_success (answering ergast_two_teams) empty_world empty_world
           VNull ergast_two_teams
           (VObj [("MRData",
              VObj [("TeamTable",
                 VObj [("Teams",
                    VArr [VObj [("name", VStr "Red Bull"); ("nationality", VStr "Austrian")];
                          VObj [("name", VStr "Ferrari"); ("nationality", VStr "Italian")]])])])])
           (VObj [("name", VStr "Red Bull"); ("nationality", VStr "Austrian")])
           [VObj [("name", VStr "Ferrari"); ("nationality", VStr "Italian")]]
           ["Red Bull"; "Ferrari"]);
    try reflexivity.
  repeat constructor.
Defined.

(** X4. An empty remote list is no result: when the remote source
    answers in time with a well-formed envelope whose team list is
    empty, nothing is cached from it and the run goes on with the static
    fallback exactly as after a failed request. *)
Theorem fetchTeamsData_remote_empty
    (e : env) (w w1 : world) (v : value) (r : response) (data : value) :
  getCachedTeams (clock_read e) w = (Normal v, w1) -> truthy v = false ->
  network e ERGAST_TEAMS_URL = Some r -> timer_first e = false ->
  ok r = true -> body r = Some data ->
  envelope_teams data = Some [] ->
  fetchFromErgastAPI e w1 = (Normal (VArr []), with_call ERGAST_TEAMS_URL w1)
  /\ fetchTeamsData e w = fallback_stage e (with_call ERGAST_TEAMS_URL w1).
Proof.
  intros Hread Hv Hnet Ht Hok Hbody Henv.
  destruct (fetchFromErgastAPI_normalizes e w1 r data [] [] Hnet Ht Hok Hbody Henv
              (List.Forall2_nil _) eq_refl) as (records & Hapi & Hrec).
  inversion Hrec; subst. split; [exact Hapi|].
  apply (fetchTeamsData_to_fallback e w w1 v Hread Hv). rewrite Hapi. reflexivity.
Qed.

Lemma fetchTeamsData_remote_empty_witness :
  fetchFromErgastAPI (answering ergast_no_teams) empty_world
    = (Normal (VArr []), with_call ERGAST_TEAMS_URL empty_world)
  /\ fetchTeamsData (answering ergast_no_teams) empty_world
     = fallback_stage (answering ergast_no_teams) (with_call ERGAST_TEAMS_URL empty_world).
Proof.
  apply (fetchTeamsData_remote_empty (answering ergast_no_teams) empty_world empty_world VNull
           ergast_no_teams
           (VObj [("MRData", VObj [("TeamTable", VObj [("Teams", VArr [])])])]));
    reflexivity.
Defined.
Section CacheRoundTrip.

Lemma stringify_text_some (v : value) (text : string) :
  JSON_stringify v = Some text -> stringify_text v = text.
Proof. unfold stringify_text. intros ->. reflexivity. Qed.

(** What a cache write leaves: nothing, the payload alone, or both
    items. *)
Lemma cacheTeams_storage (now : Z) (v : value) (w : world) :
  exists m, snd (cacheTeams now v w) = with_storage m w
    /\ (m = storage w
        \/ m = <[CACHE_KEY := stringify_text v]> (storage w)
        \/ m = <[CACHE_TIMESTAMP_KEY := number_toString now]>
                 (<[CACHE_KEY := stringify_text v]> (storage w))).
Proof.
  unfold cacheTeams, try_catch, bind, setItem.
  destruct (_ <=? _)%N.
  - cbn [storage with_storage quota]. destruct (_ <=? _)%N; cbn [snd].
    + eexists. split; [reflexivity|]. right; right. reflexivity.
    + eexists. split; [reflexivity|]. right; left. reflexivity.
  - exists (storage w). split; [destruct w; reflexivity|left; reflexivity].
Qed.

Lemma written_over (a b : Z) (u v : value) (w : world) :
  written b v (snd (cacheTeams a u w)) = written b v w.
Proof.
  destruct (cacheTeams_storage a u w) as (m & -> & Hm).
  unfold written, with_storage. cbn [storage quota calls]. f_equal.
  destruct Hm as [->|[->| ->]]; [reflexivity| |];
    apply map_eq; intros k; rewrite !lookup_insert; repeat case_decide; reflexivity.
Qed.

End CacheRoundTrip.

(** X5. Round trip through the cache: a value whose two items the store
    accepts, written by [cacheTeams] and read by [getCachedTeams] at
    most 24 hours later, comes back as its JSON image (the value
    without its [undefined] and function members), and the read leaves
    the store as the write left it. *)
Theorem cacheTeams_then_getCachedTeams
    (now later : Z) (v : value) (text : string) (w : world) :
  JSON_stringify v = Some text ->
  fits CACHE_KEY text w = true ->
  fits CACHE_TIMESTAMP_KEY (number_toString now)
       (with_storage (<[CACHE_KEY := text]> (storage w)) w) = true ->
  later - now <= CACHE_DURATION ->
  getCachedTeams later (snd (cacheTeams now v w))
    = (Normal (json_image v), snd (cacheTeams now v w)).
Proof.
  intros Htext H1 H2 Hage.
  rewrite cacheTeams_fits by (rewrite (stringify_text_some v text Htext); assumption).
  cbn [snd]. exact (read_after_write now later v text w Htext Hage).
Qed.

Lemma cacheTeams_then_getCachedTeams_witness :
  getCachedTeams 1700086400000
      (snd (cacheTeams 1700000000000 (VArr [VNum 7; VUndefined]) empty_world))
    = (Normal (json_image (VArr [VNum 7; VUndefined])),
       snd (cacheTeams 1700000000000 (VArr [VNum 7; VUndefined]) empty_world)).
Proof.
  apply (cacheTeams_then_getCachedTeams 1700000000000 1700086400000
           (VArr [VNum 7; VUndefined]) "[7,null]" empty_world);
    [reflexivity|vm_compute; reflexivity|vm_compute; reflexivity|vm_compute; discriminate].
Defined.

(** X6. Cache overwrite: a write whose two items the store accepts
    replaces whatever an earlier write left, be it both items, the
    payload alone or nothing; the store is the one a single write would
    have made, and a read within 24 hours returns the image of the
    second value only. *)
Theorem cacheTeams_overwrites
    (a b later : Z) (u v : value) (text : string) (w : world) :
  JSON_stringify v = Some text ->
  fits CACHE_KEY text (snd (cacheTeams a u w)) = true ->
  fits CACHE_TIMESTAMP_KEY (number_toString b)
       (with_storage (<[CACHE_KEY := text]> (storage (snd (cacheTeams a u w))))
          (snd (cacheTeams a u w))) = true ->
  later - b <= CACHE_DURATION ->
  snd (cacheTeams b v (snd (cacheTeams a u w))) = written b v w
  /\ getCachedTeams later (written b v w) = (Normal (json_image v), written b v w).
Proof.
  intros Htext H1 H2 Hage. split.
  - rewrite cacheTeams_fits by (rewrite (stringify_text_some v text Htext); assumption).
    cbn [snd]. apply written_over.
  - exact (read_after_write b later v text w Htext Hage).
Qed.

Lemma cacheTeams_overwrites_witness :
  snd (cacheTeams 1700000000200 (VArr [VStr "B"])
         (snd (cacheTeams 1700000000100 (VArr [VStr "A"; VStr "A"]) empty_world)))
    = written 1700000000200 (VArr [VStr "B"]) empty_world
  /\ getCachedTeams 1700000000300 (written 1700000000200 (VArr [VStr "B"]) empty_world)
     = (Normal (json_image (VArr [VStr "B"])),
        written 1700000000200 (VArr [VStr "B"]) empty_world).
Proof.
  apply (cacheTeams_overwrites 1700000000100 1700000000200 1700000000300
           (VArr [VStr "A"; VStr "A"]) (VArr [VStr "B"])
           (String "[" (String dquote (String "B" (String dquote "]")))) empty_world);
    [reflexivity|vm_compute; reflexivity|vm_compute; reflexivity|vm_compute; discriminate].
Defined.

(** X7. The next page load is served from the cache: on a store that
    holds a cache write of a list made at most 24 hours before the
    read, [fetchTeamsData] returns the JSON image of that list, asks no
    source and leaves the store alone. *)
Theorem fetchTeamsData_served_from_cache
    (e : env) (now : Z) (l : list value) (w : world) :
  clock_read e - now <= CACHE_DURATION ->
  fetchTeamsData e (written now (VArr l) w)
    = (Normal (json_image (VArr l)), written now (VArr l) w).
Proof.
  intros Hage.
  pose proof (read_after_write now (clock_read e) (VArr l) _ w (stringify_array l) Hage)
    as Hread.
  unfold fetchTeamsData, try_catch at 1, bind at 1. rewrite Hread. reflexivity.
Qed.

Lemma fetchTeamsData_served_from_cache_witness :
  fetchTeamsData offline (written 1699990000000 (VArr [ferrari; red_bull]) empty_world)
    = (Normal (json_image (VArr [ferrari; red_bull])),
       written 1699990000000 (VArr [ferrari; red_bull]) empty_world).
Proof.
  apply (fetchTeamsData_served_from_cache offline 1699990000000 [ferrari; red_bull]
           empty_world).
  vm_compute. discriminate.
Defined.

Section PowerUnit.

Lemma own_prop_image_dropped (ps : list (string * value)) (k : string) :
  Forall (fun kx => String.eqb (fst kx) k = true -> written_out (snd kx) = false) ps ->
  own_prop (List.map member_image (kept ps)) k = None.
Proof.
  induction 1 as [|[k' x] ps Hx _ IH]; [reflexivity|].
  unfold kept in *. cbn [List.filter snd fst] in *.
  destruct (written_out x) eqn:Hw; [|exact IH].
  cbn [List.map own_prop member_image fst snd]. rewrite IH.
  destruct (String.eqb k' k) eqn:Hk; [|reflexivity].
  specialize (Hx eq_refl). congruence.
Qed.

End PowerUnit.

(** X8. The power unit is never the default: for an upstream team that
    is an object without an own member [constructor] (the remote
    service sends none), with a string name and a founding year that
    [parseInt] can read, [team.constructor] is the constructor every
    object inherits, so the normalized record holds the function
    [Object] as [powerUnit], never the text [Mercedes]; serialized into
    the cache, the record has no [powerUnit] at all. *)
Theorem ergast_team_powerUnit
    (e : env) (ps : list (string * value)) (name : string) (w : world) :
  own_prop ps "constructor" = None -> get_prop (VObj ps) "name" = VStr name ->
  year_readable (VObj ps) = true ->
  exists record,
    ergast_team e (VObj ps) w = (Normal record, w)
    /\ get_prop record "powerUnit" = VFunction "Object"
    /\ get_prop (json_image record) "powerUnit" = VUndefined.
Proof.
  intros Hctor Hname Hyear. unfold ergast_team, bind.
  rewrite (member_name (VObj ps) name w Hname). simpl as_string. cbv iota beta.
  unfold ret at 1. destruct (parseInt_readable (VObj ps) w Hyear) as [year ->].
  unfold ret. eexists. split; [reflexivity|].
  assert (Hpu : js_or (get_prop (VObj ps) "constructor") (VStr "Mercedes")
                = VFunction "Object").
  { cbn [get_prop]. rewrite Hctor. reflexivity. }
  rewrite Hpu. split; [reflexivity|].
  rewrite json_image_object. cbn [get_prop].
  rewrite own_prop_image_dropped; [reflexivity|].
  repeat (constructor; [cbn [fst snd]; first [intros _; reflexivity|intros H; discriminate H]|]).
  constructor.
Qed.

Lemma ergast_team_powerUnit_witness :
  exists record,
    ergast_team online
      (VObj [("name", VStr "Ferrari"); ("nationality", VStr "Italian")]) empty_world
      = (Normal record, empty_world)
    /\ get_prop record "powerUnit" = VFunction "Object"
    /\ get_prop (json_image record) "powerUnit" = VUndefined.
Proof.
  apply (ergast_team_powerUnit online
           [("name", VStr "Ferrari"); ("nationality", VStr "Italian")] "Ferrari" empty_world);
    reflexivity.
Defined.

Section Expiry.

Lemma isCacheExpired_run (now : Z) (w : world) :
  isCacheExpired now w
    = (Normal (match storage w !! CACHE_TIMESTAMP_KEY with
               | None => true
               | Some ts => if String.eqb ts "" then true else older_than_duration now ts
               end), w).
Proof.
  unfold isCacheExpired, try_catch, bind, getItem.
  destruct (storage w !! CACHE_TIMESTAMP_KEY) as [ts|]; [|reflexivity].
  destruct (String.eqb ts ""); reflexivity.
Qed.

Lemma JSON_parse_nonempty (text : string) (v : value) :
  JSON_parse text = Some v -> text <> "".
Proof. intros H ->. vm_compute in H. discriminate H. Qed.

Lemma purged_twice (w : world) : purged (purged w) = purged w.
Proof.
  unfold purged, with_storage. cbn [storage quota calls]. f_equal.
  apply map_eq. intros k. rewrite !lookup_delete.
  repeat case_decide; reflexivity.
Qed.

End Expiry.

(** X9. [isCacheExpired] only looks: it never throws and leaves the
    store alone. It agrees with the read of the cache: when it says
    expired, [getCachedTeams] returns [null]; when it says not expired
    and the payload key holds a JSON text, [getCachedTeams] returns the
    value of that text and leaves the store alone. *)
Theorem isCacheExpired_agrees_with_read (now : Z) (w : world) :
  (exists b, isCacheExpired now w = (Normal b, w))
  /\ (isCacheExpired now w = (Normal true, w) ->
      fst (getCachedTeams now w) = Normal VNull)
  /\ (forall text v,
        isCacheExpired now w = (Normal false, w) ->
        storage w !! CACHE_KEY = Some text -> JSON_parse text = Some v ->
        getCachedTeams now w = (Normal v, w)).
Proof.
  rewrite isCacheExpired_run. split; [eexists; reflexivity|].
  destruct (storage w !! CACHE_TIMESTAMP_KEY) as [ts|] eqn:Hts.
  - destruct (String.eqb ts "") eqn:Hempty.
    + split.
      * intros _. rewrite getCachedTeams_no_timestamp; [reflexivity|].
        rewrite Hts. exact Hempty.
      * intros text v H. discriminate H.
    + apply String.eqb_neq in Hempty. split.
      * intros H. injection H as Hold.
        rewrite (getCachedTeams_expired now w ts Hts Hempty Hold). reflexivity.
      * intros text v H Htext Hparse. injection H as Hold.
        rewrite (getCachedTeams_entry now w ts text Hts Hempty Htext
                   (JSON_parse_nonempty text v Hparse)), Hold, Hparse.
        reflexivity.
  - split.
    + intros _. rewrite getCachedTeams_no_timestamp; [reflexivity|].
      rewrite Hts. reflexivity.
    + intros text v H. discriminate H.
Qed.

Lemma isCacheExpired_agrees_with_read_witness :
  fst (getCachedTeams 1700086400001 boundary_world) = Normal VNull
  /\ getCachedTeams 1700000000100 boundary_world = (Normal (VArr [VNum 1]), boundary_world).
Proof.
  split.
  - apply (proj1 (proj2 (isCacheExpired_agrees_with_read 1700086400001 boundary_world))).
    reflexivity.
  - apply (proj2 (proj2 (isCacheExpired_agrees_with_read 1700000000100 boundary_world))
             "[1]" (VArr [VNum 1])); reflexivity.
Defined.

(** X10. An entry whose timestamp is no number never expires: when
    [parseInt] makes nothing of the stored timestamp, the age is no
    number and the comparison with 24 hours is false, so at every time
    [isCacheExpired] says not expired and [getCachedTeams] returns the
    stored payload. *)
Theorem undated_entry_never_expires
    (now : Z) (w : world) (ts text : string) (v : value) :
  storage w !! CACHE_TIMESTAMP_KEY = Some ts -> ts <> "" ->
  parseInt_string ts = None ->
  storage w !! CACHE_KEY = Some text -> JSON_parse text = Some v ->
  isCacheExpired now w = (Normal false, w)
  /\ getCachedTeams now w = (Normal v, w).
Proof.
  intros Hts Hne Hnan Htext Hparse.
  assert (Hold : older_than_duration now ts = false).
  { unfold older_than_duration. rewrite Hnan. reflexivity. }
  split.
  - rewrite isCacheExpired_run, Hts, (eqb_empty_false ts Hne), Hold. reflexivity.
  - rewrite (getCachedTeams_entry now w ts text Hts Hne Htext
               (JSON_parse_nonempty text v Hparse)), Hold, Hparse.
    reflexivity.
Qed.

Lemma undated_entry_never_expires_witness :
  isCacheExpired 9999999999999 undated_world = (Normal false, undated_world)
  /\ getCachedTeams 9999999999999 undated_world = (Normal (VArr [VNum 1]), undated_world).
Proof.
  apply (undated_entry_never_expires 9999999999999 undated_world "yesterday" "[1]"
           (VArr [VNum 1])); try reflexivity.
  discriminate.
Defined.

(** X11. The two expiry tests of the code are not complements of each
    other: for a timestamp other than zero, stored as its decimal text,
    [isCacheExpired] of [data-fetcher.js] says expired exactly when
    [isCacheValid] of [utils.js] says not valid and the age is not
    exactly 24 hours; at that age the entry is neither valid nor
    expired. *)
Theorem isCacheValid_isCacheExpired (now t : Z) (w : world) :
  t <> 0 ->
  storage w !! CACHE_TIMESTAMP_KEY = Some (number_toString t) ->
  isCacheExpired now w
    = (Normal (negb (truthy (Utils.isCacheValid now t))
               && negb (now - t =? CACHE_DURATION)), w).
Proof.
  intros Ht Hts.
  rewrite isCacheExpired_run, Hts, (eqb_empty_false _ (number_toString_nonempty t)).
  unfold older_than_duration. rewrite parseInt_number_toString.
  unfold Utils.isCacheValid. cbv zeta.
  destruct (Z.eqb_spec t 0) as [|_]; [contradiction|].
  cbn [truthy]. change (24 * 60 * 60 * 1000) with CACHE_DURATION.
  do 2 f_equal.
  destruct (Z.ltb_spec CACHE_DURATION (now - t)), (Z.ltb_spec (now - t) CACHE_DURATION),
    (Z.eqb_spec (now - t) CACHE_DURATION); cbn; try reflexivity; lia.
Qed.

Lemma isCacheValid_isCacheExpired_witness :
  isCacheExpired 1700086400000 boundary_world
    = (Normal (negb (truthy (Utils.isCacheValid 1700086400000 1700000000000))
               && negb (1700086400000 - 1700000000000 =? CACHE_DURATION)),
       boundary_world).
Proof.
  apply (isCacheValid_isCacheExpired 1700086400000 1700000000000 boundary_world);
    [discriminate|reflexivity].
Defined.

(** X12. [clearCache] never throws and empties the cache for good: it
    completes normally, and in the store it leaves neither the payload
    key nor the timestamp key is present, while every other key keeps
    its value (quota and call log are untouched); run again it changes
    nothing; after it a read returns [null] without touching the store
    and [isCacheExpired] says expired, at any time. *)
Theorem clearCache_empties_cache (now : Z) (w : world) :
  exists w',
    clearCache w = (Normal tt, w')
    /\ storage w' !! CACHE_KEY = None
    /\ storage w' !! CACHE_TIMESTAMP_KEY = None
    /\ (forall k, k <> CACHE_KEY -> k <> CACHE_TIMESTAMP_KEY ->
          storage w' !! k = storage w !! k)
    /\ quota w' = quota w
    /\ calls w' = calls w
    /\ clearCache w' = (Normal tt, w')
    /\ getCachedTeams now w' = (Normal VNull, w')
    /\ isCacheExpired now w' = (Normal true, w').
Proof.
  exists (purged w). split; [apply clearCache_run|].
  assert (Hts : storage (purged w) !! CACHE_TIMESTAMP_KEY = None).
  { unfold purged. cbn [storage with_storage]. apply lookup_delete_eq. }
  assert (Hkey : storage (purged w) !! CACHE_KEY = None).
  { unfold purged. cbn [storage with_storage].
    rewrite lookup_delete_ne by discriminate. apply lookup_delete_eq. }
  split; [exact Hkey|]. split; [exact Hts|]. split; [intros k; apply purged_frame|].
  split; [reflexivity|]. split; [reflexivity|]. split; [|split].
  - rewrite clearCache_run, purged_twice. reflexivity.
  - apply getCachedTeams_no_timestamp. rewrite Hts. reflexivity.
  - rewrite isCacheExpired_run, Hts. reflexivity.
Qed.

Lemma clearCache_empties_cache_witness :
  exists w',
    clearCache boundary_world = (Normal tt, w')
    /\ storage w' !! CACHE_KEY = None
    /\ storage w' !! CACHE_TIMESTAMP_KEY = None
    /\ getCachedTeams 1700000000100 w' = (Normal VNull, w').
Proof.
  destruct (clearCache_empties_cache 1700000000100 boundary_world)
    as (w' & Hrun & Hkey & Hts & _ & _ & _ & _ & Hread & _).
  exists w'. repeat split; assumption.
Defined.

(** ** Slugs and accent colours *)

Section Slug.

Lemma is_space_lower_char (c : ascii) : is_space (lower_char c) = is_space c.
Proof. ascii_cases c; reflexivity. Qed.

Lemma lower_char_fixed (c : ascii) : is_upper c = false -> lower_char c = c.
Proof. unfold lower_char. intros ->. reflexivity. Qed.

Lemma toLowerCase_fixed (s : string) : has_upper s = false -> toLowerCase s = s.
Proof.
  induction s as [|c s IH]; [reflexivity|].
  cbn [has_upper toLowerCase]. intros H. apply orb_false_iff in H as [Hc Hs].
  rewrite (lower_char_fixed c Hc), (IH Hs). reflexivity.
Qed.

Lemma toLowerCase_twice (s : string) : toLowerCase (toLowerCase s) = toLowerCase s.
Proof. apply toLowerCase_fixed, toLowerCase_no_upper. Qed.

Lemma replace_ws_go_no_space (in_run : bool) (s : string) :
  has_space (replace_ws_go in_run s) = false.
Proof.
  revert in_run. induction s as [|c s IH]; intros in_run; [reflexivity|].
  cbn [replace_ws_go]. destruct (is_space c) eqn:Hc.
  - destruct in_run; [apply IH|]. cbn [has_space]. rewrite IH. reflexivity.
  - cbn [has_space]. rewrite Hc, IH. reflexivity.
Qed.

Lemma replace_ws_go_no_upper (in_run : bool) (s : string) :
  has_upper s = false -> has_upper (replace_ws_go in_run s) = false.
Proof.
  revert in_run. induction s as [|c s IH]; intros in_run; [reflexivity|].
  cbn [has_upper replace_ws_go]. intros H. apply orb_false_iff in H as [Hc Hs].
  destruct (is_space c).
  - destruct in_run; [apply IH, Hs|]. cbn [has_upper]. rewrite (IH true Hs). reflexivity.
  - cbn [has_upper]. rewrite Hc, (IH false Hs). reflexivity.
Qed.

Lemma replace_ws_go_fixed (in_run : bool) (s : string) :
  has_space s = false -> replace_ws_go in_run s = s.
Proof.
  revert in_run. induction s as [|c s IH]; intros in_run; [reflexivity|].
  cbn [has_space replace_ws_go]. intros H. apply orb_false_iff in H as [Hc Hs].
  rewrite Hc, (IH false Hs). reflexivity.
Qed.

Lemma getTeamId_no_upper (s : string) : has_upper (Utils.getTeamId s) = false.
Proof. apply replace_ws_go_no_upper, toLowerCase_no_upper. Qed.

Lemma getTeamId_no_space (s : string) : has_space (Utils.getTeamId s) = false.
Proof. apply replace_ws_go_no_space. Qed.

Lemma getTeamId_fixed (s : string) :
  has_upper s = false -> has_space s = false -> Utils.getTeamId s = s.
Proof.
  intros Hu Hs. unfold Utils.getTeamId, replace_ws_hyphen.
  rewrite (toLowerCase_fixed s Hu). apply replace_ws_go_fixed, Hs.
Qed.

End Slug.

(** X13. The id slug [getTeamId] makes of a name (the expression
    [fetchFromErgastAPI] uses for the [id] of a record) has no upper-case
    letter and no white space; a slug is its own slug; and the slug
    does not depend on the case of the name. *)
Theorem getTeamId_slug (teamName : string) :
  has_upper (Utils.getTeamId teamName) = false
  /\ has_space (Utils.getTeamId teamName) = false
  /\ Utils.getTeamId (Utils.getTeamId teamName) = Utils.getTeamId teamName
  /\ Utils.getTeamId (toLowerCase teamName) = Utils.getTeamId teamName.
Proof.
  split; [apply getTeamId_no_upper|]. split; [apply getTeamId_no_space|]. split.
  - apply getTeamId_fixed; [apply getTeamId_no_upper|apply getTeamId_no_space].
  - unfold Utils.getTeamId. rewrite toLowerCase_twice. reflexivity.
Qed.

Section Colours.

Lemma own_prop_cons (k' k : string) (v : value) (rest : list (string * value)) :
  own_prop ((k', v) :: rest) k
    = match own_prop rest k with
      | Some v' => Some v'
      | None => if String.eqb k' k then Some v else None
      end.
Proof. reflexivity. Qed.

Lemma colors_copies_agree (k : string) :
  k <> "redbull" -> k <> "astonmartin" -> k <> "alfaromeo" -> k <> "alphatauri" ->
  get_prop Utils.colors k = get_prop colors k.
Proof.
  intros H1 H2 H3 H4. unfold Utils.colors, colors. cbn [get_prop].
  rewrite !own_prop_cons. cbn [own_prop].
  assert (E1 : String.eqb "redbull" k = false) by (apply String.eqb_neq; congruence).
  assert (E2 : String.eqb "astonmartin" k = false) by (apply String.eqb_neq; congruence).
  assert (E3 : String.eqb "alfaromeo" k = false) by (apply String.eqb_neq; congruence).
  assert (E4 : String.eqb "alphatauri" k = false) by (apply String.eqb_neq; congruence).
  rewrite E1, E2, E3, E4.
  destruct (String.eqb "alpha tauri" k); [reflexivity|].
  destruct (String.eqb "haas" k); [reflexivity|].
  destruct (String.eqb "alfa romeo" k); [reflexivity|].
  destruct (String.eqb "williams" k); [reflexivity|].
  destruct (String.eqb "aston martin" k); [reflexivity|].
  destruct (String.eqb "alpine" k); [reflexivity|].
  destruct (String.eqb "mclaren" k); [reflexivity|].
  destruct (String.eqb "ferrari" k); [reflexivity|].
  destruct (String.eqb "red bull" k); [reflexivity|].
  destruct (String.eqb "mercedes" k); reflexivity.
Qed.

Lemma toLowerCase_trimStart (s : string) :
  toLowerCase (trimStart s) = trimStart (toLowerCase s).
Proof.
  induction s as [|c s IH]; [reflexivity|].
  cbn [trimStart toLowerCase]. rewrite is_space_lower_char.
  destruct (is_space c); [exact IH|reflexivity].
Qed.

Lemma toLowerCase_trimEnd (s : string) :
  toLowerCase (trimEnd s) = trimEnd (toLowerCase s).
Proof.
  induction s as [|c s IH]; [reflexivity|].
  cbn [trimEnd toLowerCase]. rewrite <- IH, is_space_lower_char.
  destruct (trimEnd s) as [|a r]; cbn [toLowerCase].
  - destruct (is_space c); reflexivity.
  - reflexivity.
Qed.

Lemma toLowerCase_trim (s : string) : toLowerCase (trim s) = trim (toLowerCase s).
Proof. unfold trim. rewrite toLowerCase_trimEnd, toLowerCase_trimStart. reflexivity. Qed.

Lemma trimEnd_twice (s : string) : trimEnd (trimEnd s) = trimEnd s.
Proof.
  induction s as [|c s IH]; [reflexivity|].
  cbn [trimEnd]. destruct (trimEnd s) as [|a r] eqn:E.
  - destruct (is_space c) eqn:Hc; [reflexivity|]. cbn [trimEnd]. rewrite Hc. reflexivity.
  - cbn [trimEnd] in *. rewrite IH. reflexivity.
Qed.

Lemma trimStart_trimEnd (s : string) :
  trimStart s = s -> trimStart (trimEnd s) = trimEnd s.
Proof.
  destruct s as [|c s]; [reflexivity|].
  cbn [trimStart trimEnd]. destruct (is_space c) eqn:Hc.
  - intros H. exfalso.
    assert (L : forall t, (String.length (trimStart t) <= String.length t)%nat).
    { clear. induction t as [|a t IH]; [constructor|].
      cbn [trimStart]. destruct (is_space a); cbn [String.length]; lia. }
    pose proof (L s) as Hl. rewrite H in Hl. cbn [String.length] in Hl. lia.
  - intros _. destruct (trimEnd s); cbn [trimStart]; rewrite Hc; reflexivity.
Qed.

Lemma trimStart_twice (s : string) : trimStart (trimStart s) = trimStart s.
Proof.
  induction s as [|c s IH]; [reflexivity|].
  cbn [trimStart]. destruct (is_space c) eqn:Hc; [exact IH|].
  cbn [trimStart]. rewrite Hc. reflexivity.
Qed.

Lemma trim_twice (s : string) : trim (trim s) = trim s.
Proof.
  unfold trim. rewrite (trimStart_trimEnd (trimStart s) (trimStart_twice s)).
  apply trimEnd_twice.
Qed.

Lemma normalized_of_lower (s : string) :
  trim (toLowerCase (toLowerCase s)) = trim (toLowerCase s).
Proof. rewrite toLowerCase_twice. reflexivity. Qed.

Lemma normalized_of_trim (s : string) :
  trim (toLowerCase (trim s)) = trim (toLowerCase s).
Proof. rewrite toLowerCase_trim. apply trim_twice. Qed.

End Colours.

(** X14. The two copies of [getTeamAccentColor] differ by four keys
    only: the table of [utils.js] also knows the names written without
    a blank ([redbull], [astonmartin], [alfaromeo], [alphatauri]). For
    every name whose normalized form is none of these four the copies
    return the same value; for [RedBull] the copy of [data-fetcher.js]
    returns the default and the copy of [utils.js] the colour of the
    team. *)
Theorem getTeamAccentColor_copies (teamName : string) :
  trim (toLowerCase teamName) <> "redbull" ->
  trim (toLowerCase teamName) <> "astonmartin" ->
  trim (toLowerCase teamName) <> "alfaromeo" ->
  trim (toLowerCase teamName) <> "alphatauri" ->
  Utils.getTeamAccentColor teamName = getTeamAccentColor teamName
  /\ getTeamAccentColor "RedBull" = VStr "#FF1801"
  /\ Utils.getTeamAccentColor "RedBull" = VStr "#0600EF".
Proof.
  intros H1 H2 H3 H4. split; [|split; reflexivity].
  unfold Utils.getTeamAccentColor, getTeamAccentColor. cbv zeta.
  rewrite (colors_copies_agree _ H1 H2 H3 H4). reflexivity.
Qed.

Lemma getTeamAccentColor_copies_witness :
  Utils.getTeamAccentColor " Aston Martin" = getTeamAccentColor " Aston Martin"
  /\ getTeamAccentColor "RedBull" = VStr "#FF1801"
  /\ Utils.getTeamAccentColor "RedBull" = VStr "#0600EF".
Proof.
  apply (getTeamAccentColor_copies " Aston Martin"); vm_compute; discriminate.
Defined.

(** X15. The accent colour of a name depends neither on its case nor on
    the white space around it: both copies of [getTeamAccentColor]
    return for the lower-cased name and for the trimmed name what they
    return for the name. *)
Theorem getTeamAccentColor_ignores_case_and_blanks (teamName : string) :
  getTeamAccentColor (toLowerCase teamName) = getTeamAccentColor teamName
  /\ getTeamAccentColor (trim teamName) = getTeamAccentColor teamName
  /\ Utils.getTeamAccentColor (toLowerCase teamName) = Utils.getTeamAccentColor teamName
  /\ Utils.getTeamAccentColor (trim teamName) = Utils.getTeamAccentColor teamName.
Proof.
  unfold getTeamAccentColor, Utils.getTeamAccentColor. cbv zeta.
  rewrite normalized_of_lower, normalized_of_trim. repeat split.
Qed.
(** ** The lookups on a list of teams *)

Section Lookups.

Lemma array_find_world (f : value -> M bool) (l : list value) (w : world) :
  (forall x w0, snd (f x w0) = w0) -> snd (array_find f l w) = w.
Proof.
  intros Hf. induction l as [|x l IH]; [reflexivity|].
  cbn [array_find]. unfold bind. pose proof (Hf x w) as Hx.
  destruct (f x w) as [[[|]|err] w1]; cbn [snd] in Hx; subst w1; [reflexivity|exact IH|reflexivity].
Qed.

Lemma array_find_ext (f g : value -> M bool) (l : list value) (w : world) :
  (forall x w0, f x w0 = g x w0) -> array_find f l w = array_find g l w.
Proof.
  intros Hfg. revert w. induction l as [|x l IH]; intros w; [reflexivity|].
  cbn [array_find]. unfold bind. rewrite (Hfg x w).
  destruct (g x w) as [[[|]|err] w1]; [reflexivity|apply IH|reflexivity].
Qed.

Lemma array_find_found (f : value -> M bool) (l : list value) (w w' : world) (v : value) :
  (forall x w0, snd (f x w0) = w0) ->
  array_find f l w = (Normal v, w') ->
  w' = w /\ (v = VUndefined \/ (In v l /\ f v w = (Normal true, w))).
Proof.
  intros Hf. induction l as [|x l IH].
  - intros [= <- <-]. split; [reflexivity|left; reflexivity].
  - cbn [array_find]. unfold bind. pose proof (Hf x w) as Hx.
    destruct (f x w) as [[[|]|err] w1] eqn:Hfx; cbn [snd] in Hx; subst w1.
    + intros [= <- <-]. split; [reflexivity|]. right. split; [left; reflexivity|exact Hfx].
    + intros H. destruct (IH H) as [-> [->|[Hin Hv]]]; (split; [reflexivity|]).
      * left; reflexivity.
      * right. split; [right; exact Hin|exact Hv].
    + intros H. discriminate H.
Qed.

Lemma array_filter_ext (f g : value -> M bool) (l : list value) (w : world) :
  (forall x w0, f x w0 = g x w0) -> array_filter f l w = array_filter g l w.
Proof.
  intros Hfg. revert w. induction l as [|x l IH]; intros w; [reflexivity|].
  cbn [array_filter]. unfold bind. rewrite (Hfg x w).
  destruct (g x w) as [[b|err] w1]; [|reflexivity]. rewrite (IH w1). reflexivity.
Qed.

(** What [filter] keeps when its callback has no effect: a sublist,
    made of the elements the callback accepts. *)
Lemma array_filter_kept (f : value -> M bool) (l kept : list value) (w w' : world) :
  (forall x w0, snd (f x w0) = w0) ->
  array_filter f l w = (Normal kept, w') ->
  w' = w /\ sublist kept l
  /\ Forall (fun x => f x w = (Normal true, w)) kept
  /\ (forall x, In x l -> f x w = (Normal true, w) -> In x kept).
Proof.
  intros Hf. revert kept w'. induction l as [|x l IH]; intros kept w'.
  - intros [= <- <-]. repeat split; [constructor|constructor|intros x []].
  - cbn [array_filter]. unfold bind. pose proof (Hf x w) as Hx.
    destruct (f x w) as [[b|err] w1] eqn:Hfx; cbn [snd] in Hx; subst w1; [|discriminate].
    destruct (array_filter f l w) as [[rest|err] w1] eqn:Hrest; [|discriminate].
    destruct (IH rest w1 eq_refl) as (-> & Hsub & Hall & Hin).
    unfold ret. intros [= <- <-]. split; [reflexivity|].
    destruct b.
    + split; [constructor; exact Hsub|]. split; [constructor; assumption|].
      intros y [->|Hy] Hfy; [left; reflexivity|right; exact (Hin y Hy Hfy)].
    + split; [constructor; exact Hsub|]. split; [exact Hall|].
      intros y [->|Hy] Hfy; [congruence|exact (Hin y Hy Hfy)].
Qed.

Lemma id_matches_world (teamId x : value) (w : world) : snd (id_matches teamId x w) = w.
Proof.
  unfold id_matches, bind. pose proof (member_world x "id" w) as H1.
  destruct (member x "id" w) as [[id|err] w1]; cbn [snd] in H1; subst w1; [|reflexivity].
  pose proof (as_string_world teamId w) as H2.
  destruct (as_string teamId w) as [[s|err] w1]; cbn [snd] in H2; subst w1; reflexivity.
Qed.

Lemma name_matches_world (teamName x : value) (w : world) :
  snd (name_matches teamName x w) = w.
Proof.
  unfold name_matches, bind. pose proof (member_world x "name" w) as H1.
  destruct (member x "name" w) as [[n0|err] w1]; cbn [snd] in H1; subst w1; [|reflexivity].
  pose proof (as_string_world n0 w) as H2.
  destruct (as_string n0 w) as [[n|err] w1]; cbn [snd] in H2; subst w1; [|reflexivity].
  pose proof (as_string_world teamName w) as H3.
  destruct (as_string teamName w) as [[s|err] w1]; cbn [snd] in H3; subst w1; reflexivity.
Qed.

Lemma team_matches_world (q : string) (x : value) (w : world) :
  snd (team_matches q x w) = w.
Proof.
  unfold team_matches, bind. pose proof (member_world x "name" w) as H1.
  destruct (member x "name" w) as [[n0|err] w1]; cbn [snd] in H1; subst w1; [|reflexivity].
  pose proof (as_string_world n0 w) as H2.
  destruct (as_string n0 w) as [[n|err] w1]; cbn [snd] in H2; subst w1; [|reflexivity].
  destruct (includes (toLowerCase n) q); [reflexivity|].
  pose proof (member_world x "country" w) as H3.
  destruct (member x "country" w) as [[c0|err] w1]; cbn [snd] in H3; subst w1; [|reflexivity].
  pose proof (as_string_world c0 w) as H4.
  destruct (as_string c0 w) as [[c|err] w1]; cbn [snd] in H4; subst w1; reflexivity.
Qed.

(** A value with a string member is neither [null] nor [undefined]. *)
Lemma member_string (x : value) (k s : string) (w : world) :
  get_prop x k = VStr s -> member x k w = (Normal (VStr s), w).
Proof. destruct x; cbn [get_prop member]; try discriminate; intros ->; reflexivity. Qed.

Lemma has_id_truthy (x : value) (s : string) :
  get_prop x "id" = VStr s -> truthy x = true.
Proof. destruct x; try reflexivity; discriminate. Qed.

(** The callback of [getTeamById] accepts exactly the values whose
    [id] is the lower-cased query. *)
Lemma id_matches_true (teamId x : value) (w : world) :
  id_matches teamId x w = (Normal true, w) ->
  exists s, teamId = VStr s /\ get_prop x "id" = VStr (toLowerCase s).
Proof.
  unfold id_matches, bind. intros H.
  assert (Hx : member x "id" w = (Normal (get_prop x "id"), w)
               \/ exists err, member x "id" w = (Throw err, w)).
  { destruct x; cbn [member]; unfold throw, ret; eauto. }
  destruct Hx as [Hx|[err Hx]]; rewrite Hx in H; [|discriminate H].
  destruct teamId; cbn [as_string] in H; unfold throw, ret in H; try discriminate H.
  injection H as H. unfold strict_equals_string in H.
  destruct (get_prop x "id") eqn:Hg; try discriminate H.
  apply String.eqb_eq in H. subst. eexists. split; reflexivity.
Qed.

Lemma id_matches_string (s : string) (x : value) (id : string) (w : world) :
  get_prop x "id" = VStr id ->
  id_matches (VStr s) x w = (Normal (String.eqb id (toLowerCase s)), w).
Proof.
  intros Hid. unfold id_matches, bind. rewrite (member_string x "id" id w Hid).
  reflexivity.
Qed.

Lemma getTeamById_result (teamId teamsArray v : value) (w w' : world) :
  getTeamById teamId teamsArray w = (Normal v, w') ->
  w' = w
  /\ (v = VNull
      \/ exists l s, teamsArray = VArr l /\ teamId = VStr s /\ In v l
           /\ get_prop v "id" = VStr (toLowerCase s)).
Proof.
  unfold getTeamById.
  destruct teamsArray as [| | | | |l| |]; cbn [truthy isArray negb orb];
    try (destruct (negb _)); try (intros [= <- <-]; split; [reflexivity|left; reflexivity]).
  unfold bind at 1. cbn [as_array]. unfold ret at 1. unfold bind.
  destruct (array_find (id_matches teamId) l w) as [[found|err] w1] eqn:Hfind; [|discriminate].
  destruct (array_find_found _ l w w1 found (id_matches_world teamId) Hfind)
    as [-> [->|[Hin Hm]]].
  - intros [= <- <-]. split; [reflexivity|left; reflexivity].
  - destruct (id_matches_true teamId found w Hm) as (s & -> & Hid).
    unfold ret, js_or. rewrite (has_id_truthy found _ Hid).
    intros [= <- <-]. split; [reflexivity|]. right. exists l, s. auto.
Qed.

End Lookups.

(** X16. What [getTeamById] returns: it leaves the world alone, and
    its result is [null] or an element of the list whose [id] is the
    lower-cased query; so it never returns [undefined], never a team
    from anything that is not a list, and (the query is lower-cased,
    the stored ids are not) never a team whose [id] has an upper-case
    letter. *)
Theorem getTeamById_found (teamId teamsArray v : value) (w w' : world) :
  getTeamById teamId teamsArray w = (Normal v, w') ->
  w' = w
  /\ (v = VNull
      \/ exists l s, teamsArray = VArr l /\ teamId = VStr s /\ In v l
           /\ get_prop v "id" = VStr (toLowerCase s))
  /\ (forall id, get_prop v "id" = VStr id -> has_upper id = false).
Proof.
  intros H. destruct (getTeamById_result _ _ _ _ _ H) as [Hw Hv].
  split; [exact Hw|]. split; [exact Hv|].
  intros id Hid. destruct Hv as [->|(l & s & _ & _ & _ & Hid')]; [discriminate Hid|].
  rewrite Hid in Hid'. injection Hid' as ->. apply toLowerCase_no_upper.
Qed.

Lemma getTeamById_found_witness :
  (red_bull = VNull
   \/ exists l s, VArr [ferrari; red_bull] = VArr l /\ VStr "Red-Bull" = VStr s
        /\ In red_bull l /\ get_prop red_bull "id" = VStr (toLowerCase s))
  /\ fst (getTeamById (VStr "McLaren") (VArr [ferrari; capital_id]) empty_world)
     = Normal VNull.
Proof.
  split.
  - apply (getTeamById_found (VStr "Red-Bull") (VArr [ferrari; red_bull]) red_bull
             empty_world empty_world).
    reflexivity.
  - reflexivity.
Defined.
Section LookupsOfRecords.

Lemma getTeamById_list (teamId : value) (l : list value) (w : world) :
  getTeamById teamId (VArr l) w
    = (let* found := array_find (id_matches teamId) l in ret (js_or found VNull)) w.
Proof. reflexivity. Qed.

Lemma find_normalized (q : string) (names : list string) (records : list value)
    (name : string) (w : world) :
  Forall2 normalized_from names records -> In name names ->
  toLowerCase q = Utils.getTeamId name ->
  exists record,
    array_find (id_matches (VStr q)) records w = (Normal record, w)
    /\ In record records
    /\ get_prop record "id" = VStr (Utils.getTeamId name).
Proof.
  intros Hall Hin Hq. induction Hall as [|name' record names records Hrec _ IH];
    [destruct Hin|].
  pose proof Hrec as (Hid & _).
  fold (Utils.getTeamId name') in Hid.
  cbn [array_find]. unfold bind.
  rewrite (id_matches_string q record _ w Hid), Hq.
  destruct (String.eqb_spec (Utils.getTeamId name') (Utils.getTeamId name)) as [E|E].
  - exists record. split; [reflexivity|]. split; [left; reflexivity|].
    rewrite Hid, E. reflexivity.
  - destruct Hin as [->|Hin]; [contradiction|].
    destruct (IH Hin) as (r & Hr & Hinr & Hidr).
    exists r. split; [exact Hr|]. split; [right; exact Hinr|exact Hidr].
Qed.

End LookupsOfRecords.

(** X17. Every record the remote source produces can be looked up by
    its id: in the records normalized from a list of names,
    [getTeamById] with the slug of one of these names, in any case,
    returns a record of the list with that id. (The query is
    lower-cased but its blanks are not replaced: the display name
    itself is no key.) *)
Theorem getTeamById_finds_normalized
    (q : string) (names : list string) (records : list value) (name : string) (w : world) :
  Forall2 normalized_from names records -> In name names ->
  toLowerCase q = Utils.getTeamId name ->
  exists record,
    getTeamById (VStr q) (VArr records) w = (Normal record, w)
    /\ In record records
    /\ get_prop record "id" = VStr (Utils.getTeamId name).
Proof.
  intros Hall Hin Hq.
  destruct (find_normalized q names records name w Hall Hin Hq) as (r & Hr & Hinr & Hid).
  exists r. split; [|split; assumption].
  rewrite getTeamById_list. unfold bind. rewrite Hr. unfold ret, js_or.
  rewrite (has_id_truthy r _ Hid). reflexivity.
Qed.

Lemma getTeamById_finds_normalized_witness :
  exists records record,
    fst (fetchFromErgastAPI (answering ergast_two_teams) empty_world) = Normal (VArr records)
    /\ getTeamById (VStr "RED-BULL") (VArr records) empty_world = (Normal record, empty_world)
    /\ In record records
    /\ get_prop record "id" = VStr (Utils.getTeamId "Red Bull").
Proof.
  assert (Hnamed : Forall2 named
            [VObj [("name", VStr "Red Bull"); ("nationality", VStr "Austrian")];
             VObj [("name", VStr "Ferrari"); ("nationality", VStr "Italian")]]
            ["Red Bull"; "Ferrari"]) by (repeat constructor).
  destruct (fetchFromErgastAPI_normalizes (answering ergast_two_teams) empty_world
              ergast_two_teams
              (VObj [("MRData",
                 VObj [("TeamTable",
                    VObj [("Teams",
                       VArr [VObj [("name", VStr "Red Bull"); ("nationality", VStr "Austrian")];
                             VObj [("name", VStr "Ferrari"); ("nationality", VStr "Italian")]])])])])
              [VObj [("name", VStr "Red Bull"); ("nationality", VStr "Austrian")];
               VObj [("name", VStr "Ferrari"); ("nationality", VStr "Italian")]]
              ["Red Bull"; "Ferrari"]
              eq_refl eq_refl eq_refl eq_refl eq_refl Hnamed eq_refl)
    as (records & Hrun & Hall).
  destruct (getTeamById_finds_normalized "RED-BULL" ["Red Bull"; "Ferrari"] records
              "Red Bull" empty_world Hall (or_introl eq_refl) eq_refl)
    as (record & H1 & H2 & H3).
  exists records, record. rewrite Hrun. auto.
Defined.

Section QueryCase.

Lemma toLowerCase_empty (s1 s2 : string) :
  toLowerCase s1 = toLowerCase s2 -> String.eqb s1 "" = String.eqb s2 "".
Proof. destruct s1, s2; cbn [toLowerCase]; intros H; try discriminate H; reflexivity. Qed.

End QueryCase.

(** X18. The three lookups read the query through its lower-case form
    only: two queries with the same lower-case form give the same
    outcome, result or exception, of [getTeamById], of [getTeamByName]
    and of [filterTeams], on every second argument. *)
Theorem lookups_ignore_query_case (s1 s2 : string) (teamsArray : value) (w : world) :
  toLowerCase s1 = toLowerCase s2 ->
  getTeamById (VStr s1) teamsArray w = getTeamById (VStr s2) teamsArray w
  /\ getTeamByName (VStr s1) teamsArray w = getTeamByName (VStr s2) teamsArray w
  /\ filterTeams (VStr s1) teamsArray w = filterTeams (VStr s2) teamsArray w.
Proof.
  intros H. split; [|split].
  - unfold getTeamById. destruct (negb (truthy teamsArray) || negb (isArray teamsArray));
      [reflexivity|].
    unfold bind. destruct (as_array teamsArray w) as [[l|err] w1]; [|reflexivity].
    rewrite (array_find_ext (id_matches (VStr s1)) (id_matches (VStr s2))); [reflexivity|].
    intros x w0. unfold id_matches, bind. cbn [as_string]. unfold ret. rewrite H. reflexivity.
  - unfold getTeamByName. destruct (negb (truthy teamsArray) || negb (isArray teamsArray));
      [reflexivity|].
    unfold bind. destruct (as_array teamsArray w) as [[l|err] w1]; [|reflexivity].
    rewrite (array_find_ext (name_matches (VStr s1)) (name_matches (VStr s2)));
      [reflexivity|].
    intros x w0. unfold name_matches, bind. cbn [as_string]. unfold ret. rewrite H. reflexivity.
  - unfold filterTeams. cbn [truthy as_string]. rewrite (toLowerCase_empty s1 s2 H).
    destruct (negb (negb (String.eqb s2 "")) || negb (truthy teamsArray)
              || negb (isArray teamsArray)); [reflexivity|].
    unfold bind at 1 3. unfold ret at 1 3. cbv zeta. rewrite H. reflexivity.
Qed.

Lemma lookups_ignore_query_case_witness :
  getTeamById (VStr "FERRARI") (VArr [ferrari; red_bull]) empty_world
    = getTeamById (VStr "ferrari") (VArr [ferrari; red_bull]) empty_world
  /\ getTeamByName (VStr "FERRARI") (VArr [ferrari; red_bull]) empty_world
     = getTeamByName (VStr "ferrari") (VArr [ferrari; red_bull]) empty_world
  /\ filterTeams (VStr "FERRARI") (VArr [ferrari; red_bull]) empty_world
     = filterTeams (VStr "ferrari") (VArr [ferrari; red_bull]) empty_world.
Proof.
  apply (lookups_ignore_query_case "FERRARI" "ferrari" (VArr [ferrari; red_bull]) empty_world).
  reflexivity.
Defined.

(** X19. A team without a name stops the lookup by name, a team
    without an id does not stop the lookup by id: [getTeamByName] throws
    a TypeError as soon as the first team of the list has no string
    under [name] (the team may be [null]), whatever the rest of the
    list; [getTeamById], asked with a string, completes on every list
    whose elements are neither [null] nor [undefined], with or without
    ids. *)
Theorem lookups_on_incomplete_teams (team : value) (rest : list value) (w : world) :
  (forall name, get_prop team "name" <> VStr name) ->
  (forall teamName, exists message,
      getTeamByName teamName (VArr (team :: rest)) w = (Throw (TypeError message), w))
  /\ (forall s l, forallb defined l = true ->
        exists v, getTeamById (VStr s) (VArr l) w = (Normal v, w)).
Proof.
  intros Hname. split.
  - intros teamName. unfold getTeamByName. cbn [truthy isArray negb orb as_array].
    unfold bind at 1. unfold ret at 1. unfold bind at 1. cbn [array_find].
    unfold bind at 1. unfold name_matches at 1. unfold bind at 1.
    destruct team; cbn [member]; unfold throw, ret; try (eexists; reflexivity);
      unfold bind;
      match goal with
      | |- context [as_string ?g w] =>
          destruct g eqn:Hg; cbn [as_string]; unfold throw;
          try (eexists; reflexivity)
      end;
      exfalso; eapply Hname; reflexivity.
  - intros s l Hl. rewrite getTeamById_list. unfold bind.
    assert (Hfind : exists found, array_find (id_matches (VStr s)) l w = (Normal found, w)).
    { induction l as [|x l IH]; [eexists; reflexivity|].
      cbn [forallb] in Hl. apply andb_true_iff in Hl as [Hx Hl].
      cbn [array_find]. unfold bind.
      assert (Hm : exists b, id_matches (VStr s) x w = (Normal b, w)).
      { unfold id_matches, bind. destruct x; try discriminate Hx; eexists; reflexivity. }
      destruct Hm as [b ->]. destruct b; [eexists; reflexivity|exact (IH Hl)]. }
    destruct Hfind as [found ->]. eexists. reflexivity.
Qed.

Lemma lookups_on_incomplete_teams_witness :
  (forall teamName, exists message,
      getTeamByName teamName (VArr [VObj [("id", VStr "haas")]; ferrari]) empty_world
        = (Throw (TypeError message), empty_world))
  /\ (forall s l, forallb defined l = true ->
        exists v, getTeamById (VStr s) (VArr l) empty_world = (Normal v, empty_world)).
Proof.
  apply (lookups_on_incomplete_teams (VObj [("id", VStr "haas")]) [ferrari] empty_world).
  intros name. discriminate.
Defined.
Section Filter.

Lemma team_matches_true (q : string) (team : value) (w : world) :
  team_matches q team w = (Normal true, w) <-> holds_query q team.
Proof.
  unfold team_matches, bind. split.
  - intros H.
    assert (Hx : forall k, member team k w = (Normal (get_prop team k), w)
                 \/ exists err, member team k w = (Throw err, w)).
    { intros k. destruct team; cbn [member]; unfold throw, ret; eauto. }
    destruct (Hx "name") as [Hn|[err Hn]]; rewrite Hn in H; [|discriminate H].
    destruct (get_prop team "name") as [| | | |name| | |] eqn:Hname;
      cbn [as_string] in H; unfold throw, ret in H; try discriminate H.
    exists name. split; [exact Hname|].
    destruct (includes (toLowerCase name) q); [left; reflexivity|]. right.
    destruct (Hx "country") as [Hc|[err Hc]]; rewrite Hc in H; [|discriminate H].
    destruct (get_prop team "country") as [| | | |country| | |] eqn:Hcountry;
      cbn [as_string] in H; unfold throw, ret in H; try discriminate H.
    injection H as H. exists country. split; [first [exact Hcountry|reflexivity]|exact H].
  - intros (name & Hname & Hq).
    rewrite (member_string team "name" name w Hname). cbn [as_string]. unfold ret.
    destruct (includes (toLowerCase name) q); [reflexivity|].
    destruct Hq as [Hq|(country & Hcountry & Hq)]; [discriminate Hq|].
    rewrite (member_string team "country" country w Hcountry). cbn [as_string].
    unfold ret. rewrite Hq. reflexivity.
Qed.

Lemma team_matches_complete (q : string) (team : value) (name country : string) (w : world) :
  team_texts team name country ->
  exists b, team_matches q team w = (Normal b, w).
Proof.
  intros [Hname Hcountry]. unfold team_matches, bind.
  rewrite (member_string team "name" name w Hname). cbn [as_string]. unfold ret.
  destruct (includes (toLowerCase name) q); [eexists; reflexivity|].
  rewrite (member_string team "country" country w Hcountry). cbn [as_string].
  eexists. reflexivity.
Qed.

Lemma array_filter_all (f : value -> M bool) (l : list value) (w : world) :
  Forall (fun x => f x w = (Normal true, w)) l -> array_filter f l w = (Normal l, w).
Proof.
  induction 1 as [|x l Hx _ IH]; [reflexivity|].
  cbn [array_filter]. unfold bind. rewrite Hx, IH. reflexivity.
Qed.

Lemma filterTeams_list (query : string) (l : list value) (w : world) :
  query <> "" ->
  filterTeams (VStr query) (VArr l) w
    = (let* kept := array_filter (team_matches (toLowerCase query)) l in ret (VArr kept)) w.
Proof.
  intros Hq. unfold filterTeams. cbn [truthy isArray negb orb].
  rewrite (eqb_empty_false query Hq). reflexivity.
Qed.

Lemma team_matches_no_country (q name : string) (team : value) (w : world) :
  get_prop team "name" = VStr name ->
  (forall country, get_prop team "country" <> VStr country) ->
  (includes (toLowerCase name) q = true -> team_matches q team w = (Normal true, w))
  /\ (includes (toLowerCase name) q = false ->
      exists message, team_matches q team w = (Throw (TypeError message), w)).
Proof.
  intros Hname Hcountry. unfold team_matches, bind.
  rewrite (member_string team "name" name w Hname). cbn [as_string]. unfold ret.
  split; intros Hinc; rewrite Hinc; [reflexivity|].
  destruct team; cbn [member]; unfold throw, ret; try discriminate Hname;
    match goal with
    | |- context [as_string ?g w] =>
        destruct g eqn:Hg; cbn [as_string]; unfold throw;
        try (eexists; reflexivity)
    end;
    exfalso; eapply Hcountry; reflexivity.
Qed.

End Filter.

(** X20. What [filterTeams] keeps: for a query that is a non-empty
    string and a list, a call that completes leaves the world alone and
    returns a list whose elements are elements of the given list, in
    the same order; each of them holds the lower-cased query in its
    lower-cased name or country, and every team of the given list that
    does is in the result. *)
Theorem filterTeams_keeps_matches
    (query : string) (l : list value) (v : value) (w w' : world) :
  query <> "" ->
  filterTeams (VStr query) (VArr l) w = (Normal v, w') ->
  w' = w
  /\ exists kept, v = VArr kept /\ sublist kept l
       /\ Forall (holds_query (toLowerCase query)) kept
       /\ (forall team, In team l -> holds_query (toLowerCase query) team -> In team kept).
Proof.
  intros Hq. rewrite (filterTeams_list query l w Hq). unfold bind.
  destruct (array_filter (team_matches (toLowerCase query)) l w) as [[kept|err] w1] eqn:Hf;
    [|discriminate].
  destruct (array_filter_kept _ l kept w w1 (team_matches_world (toLowerCase query)) Hf)
    as (-> & Hsub & Hall & Hin).
  unfold ret. intros [= <- <-]. split; [reflexivity|].
  exists kept. split; [reflexivity|]. split; [exact Hsub|]. split.
  - eapply Forall_impl; [exact Hall|]. intros x Hx. apply (team_matches_true _ x w), Hx.
  - intros team Ht Hh. apply (Hin team Ht). apply team_matches_true, Hh.
Qed.

Lemma filterTeams_keeps_matches_witness :
  empty_world = empty_world
  /\ exists kept, VArr [red_bull] = VArr kept /\ sublist kept [ferrari; red_bull]
       /\ Forall (holds_query (toLowerCase "AUSTRIA")) kept
       /\ (forall team, In team [ferrari; red_bull] ->
             holds_query (toLowerCase "AUSTRIA") team -> In team kept).
Proof.
  apply (filterTeams_keeps_matches "AUSTRIA" [ferrari; red_bull] (VArr [red_bull])
           empty_world empty_world); [discriminate|reflexivity].
Defined.

(** X21. On teams that all have a name and a country, [filterTeams]
    with a string query never throws and returns a list, and filtering
    that list again with the same query returns it unchanged. *)
Theorem filterTeams_on_complete_teams (query : string) (l : list value) (w : world) :
  Forall (fun team => exists name country, team_texts team name country) l ->
  exists kept,
    filterTeams (VStr query) (VArr l) w = (Normal (VArr kept), w)
    /\ filterTeams (VStr query) (VArr kept) w = (Normal (VArr kept), w).
Proof.
  intros Hl. destruct (String.eqb_spec query "") as [->|Hq].
  { exists l. split; reflexivity. }
  assert (Hrun : exists kept,
            array_filter (team_matches (toLowerCase query)) l w = (Normal kept, w)).
  { induction Hl as [|x l (name & country & Hx) _ IH]; [eexists; reflexivity|].
    cbn [array_filter]. unfold bind.
    destruct (team_matches_complete (toLowerCase query) x name country w Hx) as [b ->].
    destruct IH as [kept ->]. eexists. reflexivity. }
  destruct Hrun as [kept Hrun]. exists kept.
  rewrite !(filterTeams_list query _ w Hq). unfold bind. rewrite Hrun. split; [reflexivity|].
  destruct (array_filter_kept _ l kept w w (team_matches_world (toLowerCase query)) Hrun)
    as (_ & _ & Hall & _).
  rewrite (array_filter_all _ kept w Hall). reflexivity.
Qed.

Lemma filterTeams_on_complete_teams_witness :
  exists kept,
    filterTeams (VStr "it") (VArr [ferrari; red_bull; capital_id]) empty_world
      = (Normal (VArr kept), empty_world)
    /\ filterTeams (VStr "it") (VArr kept) empty_world = (Normal (VArr kept), empty_world).
Proof.
  apply (filterTeams_on_complete_teams "it" [ferrari; red_bull; capital_id] empty_world).
  repeat constructor; eexists; eexists; split; reflexivity.
Defined.

(** X22. The country of a team is read only when its name does not hold
    the query: a team with a name and without a string under [country]
    (a record made from an upstream team without a nationality) is kept
    when its name holds the query, and makes [filterTeams] throw a
    TypeError when it does not, whatever the rest of the list. *)
Theorem filterTeams_reads_country_lazily
    (query name : string) (team : value) (rest : list value) (w : world) :
  query <> "" -> get_prop team "name" = VStr name ->
  (forall country, get_prop team "country" <> VStr country) ->
  (includes (toLowerCase name) (toLowerCase query) = true ->
   filterTeams (VStr query) (VArr [team]) w = (Normal (VArr [team]), w))
  /\ (includes (toLowerCase name) (toLowerCase query) = false ->
      exists message,
        filterTeams (VStr query) (VArr (team :: rest)) w = (Throw (TypeError message), w)).
Proof.
  intros Hq Hname Hcountry.
  destruct (team_matches_no_country (toLowerCase query) name team w Hname Hcountry)
    as [Hyes Hno].
  rewrite !(filterTeams_list query _ w Hq). cbn [array_filter]. unfold bind. split.
  - intros Hinc. rewrite (Hyes Hinc). reflexivity.
  - intros Hinc. destruct (Hno Hinc) as [message ->]. exists message. reflexivity.
Qed.

Lemma filterTeams_reads_country_lazily_witness :
  filterTeams (VStr "HA") (VArr [stateless]) empty_world
    = (Normal (VArr [stateless]), empty_world)
  /\ exists message,
       filterTeams (VStr "Italy") (VArr [stateless; ferrari]) empty_world
         = (Throw (TypeError message), empty_world).
Proof.
  assert (Hcountry : forall country, get_prop stateless "country" <> VStr country)
    by (intros country; discriminate).
  assert (Hq1 : "HA" <> "") by discriminate.
  assert (Hq2 : "Italy" <> "") by discriminate.
  split.
  - exact (proj1 (filterTeams_reads_country_lazily "HA" "Haas" stateless [] empty_world
                    Hq1 eq_refl Hcountry) eq_refl).
  - exact (proj2 (filterTeams_reads_country_lazily "Italy" "Haas" stateless [ferrari]
                    empty_world Hq2 eq_refl Hcountry) eq_refl).
Defined.
(** ** The drivers: [fetchDriverData] and [extractAllDrivers] *)

Section DriverData.

Lemma string_of_world (v : value) (w : world) : snd (string_of v w) = w.
Proof. unfold string_of. destruct (to_primitive_string v); reflexivity. Qed.

Lemma ergast_driver_world (driver : value) (w : world) :
  snd (ergast_driver driver w) = w.
Proof.
  unfold ergast_driver, bind.
  pose proof (member_world driver "driverId" w) as H1.
  destruct (member driver "driverId" w) as [[id|err] w1]; cbn [snd] in H1; subst w1;
    [|reflexivity].
  pose proof (string_of_world (get_prop driver "givenName") w) as H2.
  destruct (string_of (get_prop driver "givenName") w) as [[g|err] w1];
    cbn [snd] in H2; subst w1; [|reflexivity].
  pose proof (string_of_world (get_prop driver "familyName") w) as H3.
  destruct (string_of (get_prop driver "familyName") w) as [[f|err] w1];
    cbn [snd] in H3; subst w1; [|reflexivity].
  pose proof (string_of_world id w) as H4.
  destruct (string_of id w) as [[t|err] w1]; cbn [snd] in H4; subst w1; reflexivity.
Qed.

(** The part of [fetchDriverData] that runs on the parsed body. *)
Lemma fetchDriverData_run (e : env) (teamId : value) (w : world) :
  fetchDriverData e teamId w
    = if timer_first e then (Normal (VArr []), with_call ERGAST_DRIVERS_URL w)
      else match network e ERGAST_DRIVERS_URL with
           | None => (Normal (VArr []), with_call ERGAST_DRIVERS_URL w)
           | Some r =>
               if ok r
               then match body r with
                    | None => (Normal (VArr []), with_call ERGAST_DRIVERS_URL w)
                    | Some data =>
                        match drivers_member data with
                        | VArr l =>
                            match mapM ergast_driver l (with_call ERGAST_DRIVERS_URL w) with
                            | (Normal records, w') => (Normal (VArr records), w')
                            | (Throw _, w') => (Normal (VArr []), w')
                            end
                        | _ => (Normal (VArr []), with_call ERGAST_DRIVERS_URL w)
                        end
                    end
               else (Normal (VArr []), with_call ERGAST_DRIVERS_URL w)
           end.
Proof.
  unfold fetchDriverData, try_catch, bind at 1, race_timeout, fetch.
  destruct (network e ERGAST_DRIVERS_URL) as [r|]; destruct (timer_first e);
    try reflexivity.
  destruct (ok r); cbn [negb]; [|reflexivity].
  unfold bind at 1, response_json. destruct (body r) as [data|]; [|reflexivity].
  unfold ret at 1. unfold bind at 1, drivers_member.
  assert (Hx : member data "MRData" (with_call ERGAST_DRIVERS_URL w)
               = (Normal (get_prop data "MRData"), with_call ERGAST_DRIVERS_URL w)
               \/ (get_prop data "MRData" = VUndefined
                   /\ exists err, member data "MRData" (with_call ERGAST_DRIVERS_URL w)
                                  = (Throw err, with_call ERGAST_DRIVERS_URL w))).
  { destruct data; cbn [member]; unfold throw, ret; eauto. }
  destruct Hx as [->|(-> & err & ->)]; [|reflexivity].
  set (mrdata := get_prop data "MRData").
  destruct (get_prop (get_prop mrdata "DriverTable") "Drivers") as [| | | | |l| |] eqn:Hd.
  6:{ rewrite (get_prop_array_truthy _ _ _ Hd).
      assert (Hm : truthy mrdata = true).
      { destruct mrdata; try reflexivity; discriminate Hd. }
      rewrite Hm. cbn [andb truthy]. unfold bind at 1. cbn [as_array]. unfold ret at 1.
      unfold bind. destruct (mapM ergast_driver l _) as [[records|err] w']; reflexivity. }
  all: match goal with
       | |- context [if ?c then _ else _] => destruct c
       end; reflexivity.
Qed.

Lemma mapM_throws {A B} (f : A -> M B) (l : list A) (x : A) (w : world) :
  (forall y w0, snd (f y w0) = w0) -> In x l ->
  (exists err, f x w = (Throw err, w)) ->
  exists err, mapM f l w = (Throw err, w).
Proof.
  intros Hf Hin [err Hx]. induction l as [|y l IH]; [destruct Hin|].
  cbn [mapM]. unfold bind. pose proof (Hf y w) as Hy.
  destruct (f y w) as [[b|err'] w1] eqn:Hfy; cbn [snd] in Hy; subst w1;
    [|eexists; reflexivity].
  destruct Hin as [->|Hin]; [congruence|].
  destruct (IH Hin) as [err'' ->]. eexists. reflexivity.
Qed.

Lemma ergast_driver_record (driver : value) (id given family : string) (w : world) :
  driver_texts driver id given family ->
  exists record, ergast_driver driver w = (Normal record, w) /\ driver_record driver record.
Proof.
  intros (Hid & Hgiven & Hfamily). unfold ergast_driver, bind.
  rewrite (member_string driver "driverId" id w Hid), Hgiven, Hfamily.
  cbn [string_of to_primitive_string toString]. unfold ret.
  eexists. split; [reflexivity|].
  exists id, given, family. split; [repeat split; assumption|]. repeat split.
Qed.

Lemma mapM_ergast_driver (l : list value) (w : world) :
  Forall (fun driver => exists id given family, driver_texts driver id given family) l ->
  exists records, mapM ergast_driver l w = (Normal records, w)
    /\ Forall2 driver_record l records.
Proof.
  induction 1 as [|driver l (id & given & family & Hd) _ IH].
  - exists []. split; [reflexivity|constructor].
  - destruct (ergast_driver_record driver id given family w Hd) as (rec & Hrec & Hfields).
    destruct IH as (recs & Hrecs & Hall).
    exists (rec :: recs). split; [|constructor; assumption].
    cbn [mapM]. unfold bind. rewrite Hrec, Hrecs. reflexivity.
Qed.

End DriverData.

(** X23. [fetchDriverData] never throws and always returns a list: in
    every environment and for every argument it completes with a list
    after exactly one request, to the drivers URL, and it leaves
    [localStorage] alone. Its parameter [teamId] plays no part: the
    outcome is the one of a call without argument. *)
Theorem fetchDriverData_total (e : env) (teamId : value) (w : world) :
  (exists records,
     fetchDriverData e teamId w = (Normal (VArr records), with_call ERGAST_DRIVERS_URL w))
  /\ fetchDriverData e teamId w = fetchDriverData e VUndefined w.
Proof.
  split; [|reflexivity].
  rewrite fetchDriverData_run.
  destruct (timer_first e); [eexists; reflexivity|].
  destruct (network e ERGAST_DRIVERS_URL) as [r|]; [|eexists; reflexivity].
  destruct (ok r); [|eexists; reflexivity].
  destruct (body r) as [data|]; [|eexists; reflexivity].
  destruct (drivers_member data); try (eexists; reflexivity).
  pose proof (mapM_world ergast_driver elems (with_call ERGAST_DRIVERS_URL w)
                ergast_driver_world) as Hw.
  destruct (mapM ergast_driver elems _) as [[records|err] w']; cbn [snd] in Hw; subst w';
    eexists; reflexivity.
Qed.

(** X24. Every failure of the drivers request is an empty list: when
    the timer settles first, when there is no response, when the status
    is not a success, when the body is no JSON, when the body has no
    list under [MRData.DriverTable.Drivers], and also when that list
    holds one driver that is [null] or [undefined]: one driver that
    cannot be read costs the records of all the others. *)
Theorem fetchDriverData_failure (e : env) (teamId : value) (w : world) :
  timer_first e = true
  \/ network e ERGAST_DRIVERS_URL = None
  \/ (exists r, network e ERGAST_DRIVERS_URL = Some r
        /\ (ok r = false \/ body r = None
            \/ exists data, body r = Some data
                 /\ (isArray (drivers_member data) = false
                     \/ exists l driver, drivers_member data = VArr l
                          /\ In driver l /\ defined driver = false))) ->
  fetchDriverData e teamId w = (Normal (VArr []), with_call ERGAST_DRIVERS_URL w).
Proof.
  rewrite fetchDriverData_run.
  intros [->|[Hnet|(r & Hnet & Hr)]]; [reflexivity| |];
    (destruct (timer_first e); [reflexivity|]); rewrite Hnet; [reflexivity|].
  destruct Hr as [->|[Hb|(data & Hb & Hd)]]; [reflexivity| |];
    (destruct (ok r); [|reflexivity]); rewrite Hb; [reflexivity|].
  destruct Hd as [Hd|(l & driver & Hl & Hin & Hdef)].
  - destruct (drivers_member data); try reflexivity. discriminate Hd.
  - rewrite Hl.
    destruct (mapM_throws ergast_driver l driver (with_call ERGAST_DRIVERS_URL w)
                ergast_driver_world Hin) as [err ->]; [|reflexivity].
    destruct driver; try discriminate Hdef; eexists; reflexivity.
Qed.

Lemma fetchDriverData_failure_witness :
  fetchDriverData slow_network (VStr "ferrari") empty_world
    = (Normal (VArr []), with_call ERGAST_DRIVERS_URL empty_world)
  /\ fetchDriverData (answering (drivers_response [verstappen; VNull])) VUndefined
       empty_world
     = (Normal (VArr []), with_call ERGAST_DRIVERS_URL empty_world).
Proof.
  split.
  - apply (fetchDriverData_failure slow_network (VStr "ferrari") empty_world).
    left. reflexivity.
  - apply (fetchDriverData_failure (answering (drivers_response [verstappen; VNull]))
             VUndefined empty_world).
    right. right. exists (drivers_response [verstappen; VNull]). split; [reflexivity|].
    right. right.
    exists (VObj [("MRData", VObj [("DriverTable",
                     VObj [("Drivers", VArr [verstappen; VNull])])])]).
    split; [reflexivity|]. right. exists [verstappen; VNull], VNull.
    split; [reflexivity|]. split; [right; left; reflexivity|reflexivity].
Defined.

(** X25. A well-formed answer in time gives one record per driver, in
    order: its [id] is the driver's [driverId], its [name] the given
    name, a blank and the family name, its [image] the path made of
    the [driverId], its [number] the permanent number or the text [0]
    when the driver has none, and its [points], [races] and [wins] are
    zero. *)
Theorem fetchDriverData_records
    (e : env) (teamId : value) (w : world) (r : response) (data : value) (l : list value) :
  timer_first e = false -> network e ERGAST_DRIVERS_URL = Some r ->
  ok r = true -> body r = Some data -> drivers_member data = VArr l ->
  Forall (fun driver => exists id given family, driver_texts driver id given family) l ->
  exists records,
    fetchDriverData e teamId w = (Normal (VArr records), with_call ERGAST_DRIVERS_URL w)
    /\ Forall2 driver_record l records.
Proof.
  intros Ht Hnet Hok Hbody Hl Hall.
  rewrite fetchDriverData_run, Ht, Hnet, Hok, Hbody, Hl.
  destruct (mapM_ergast_driver l (with_call ERGAST_DRIVERS_URL w) Hall)
    as (records & -> & Hrec).
  exists records. split; [reflexivity|exact Hrec].
Qed.

Lemma fetchDriverData_records_witness :
  exists records,
    fetchDriverData (answering (drivers_response [verstappen; rookie])) (VStr "red_bull")
        empty_world
      = (Normal (VArr records), with_call ERGAST_DRIVERS_URL empty_world)
    /\ Forall2 driver_record [verstappen; rookie] records.
Proof.
  apply (fetchDriverData_records (answering (drivers_response [verstappen; rookie]))
           (VStr "red_bull") empty_world (drivers_response [verstappen; rookie])
           (VObj [("MRData", VObj [("DriverTable",
                     VObj [("Drivers", VArr [verstappen; rookie])])])]));
    try reflexivity.
  repeat constructor; eexists; eexists; eexists; repeat split.
Defined.
Section ExtractDrivers.

Lemma own_prop_app (ps qs : list (string * value)) (k : string) :
  own_prop (ps ++ qs)%list k
    = match own_prop qs k with
      | Some v => Some v
      | None => own_prop ps k
      end.
Proof.
  induction ps as [|[k' v] ps IH]; cbn [app own_prop].
  - destruct (own_prop qs k); reflexivity.
  - rewrite IH. destruct (own_prop qs k); reflexivity.
Qed.

Lemma drivers_of_team_run (team : value) (w : world) :
  defined team = true ->
  Drivers.drivers_of_team team w
    = (Normal (List.map (Drivers.driver_of_team team) (listed_drivers team)), w).
Proof.
  intros Hdef. unfold Drivers.drivers_of_team, listed_drivers, bind.
  assert (Hm : member team "drivers" w = (Normal (get_prop team "drivers"), w)).
  { destruct team; try discriminate Hdef; reflexivity. }
  rewrite Hm. destruct (get_prop team "drivers"); cbn [truthy isArray andb];
    rewrite ?andb_false_r; reflexivity.
Qed.

Lemma extractAllDrivers_run (teams : list value) (w : world) :
  forallb defined teams = true ->
  Drivers.extractAllDrivers (VArr teams) w
    = (Normal (VArr (concat (List.map
         (fun team => List.map (Drivers.driver_of_team team) (listed_drivers team))
         teams))), w).
Proof.
  intros Hdef. unfold Drivers.extractAllDrivers, bind at 1. cbn [as_array].
  unfold ret at 1. unfold bind.
  assert (Hmap : mapM Drivers.drivers_of_team teams w
            = (Normal (List.map
                 (fun team => List.map (Drivers.driver_of_team team) (listed_drivers team))
                 teams), w)).
  { induction teams as [|team teams IH]; [reflexivity|].
    cbn [forallb] in Hdef. apply andb_true_iff in Hdef as [Ht Hts].
    cbn [mapM List.map]. unfold bind.
    rewrite (drivers_of_team_run team w Ht), (IH Hts). reflexivity. }
  rewrite Hmap. reflexivity.
Qed.

End ExtractDrivers.

(** X26. The drivers page has nothing to show for teams that came from
    the remote source: the records [fetchFromErgastAPI] makes all have
    an empty [drivers] list, so [extractAllDrivers] returns the empty
    list for them, however many teams there are. *)
Theorem extractAllDrivers_of_normalized
    (names : list string) (records : list value) (w : world) :
  Forall2 normalized_from names records ->
  Drivers.extractAllDrivers (VArr records) w = (Normal (VArr []), w).
Proof.
  intros Hall.
  assert (Hdef : forallb defined records = true
                 /\ concat (List.map
                      (fun team => List.map (Drivers.driver_of_team team) (listed_drivers team))
                      records) = []).
  { induction Hall as [|name record names records Hrec _ [IH1 IH2]]; [split; reflexivity|].
    destruct Hrec as (Hid & _ & _ & _ & _ & Hdrivers & _).
    cbn [forallb List.map concat]. rewrite IH1, IH2.
    unfold listed_drivers. rewrite Hdrivers. split; [|reflexivity].
    destruct record; try reflexivity; discriminate Hid. }
  destruct Hdef as [Hdef Hnil]. rewrite (extractAllDrivers_run records w Hdef), Hnil.
  reflexivity.
Qed.

Lemma extractAllDrivers_of_normalized_witness :
  exists records,
    fst (fetchFromErgastAPI (answering ergast_two_teams) empty_world) = Normal (VArr records)
    /\ Drivers.extractAllDrivers (VArr records) empty_world = (Normal (VArr []), empty_world).
Proof.
  assert (Hnamed : Forall2 named
            [VObj [("name", VStr "Red Bull"); ("nationality", VStr "Austrian")];
             VObj [("name", VStr "Ferrari"); ("nationality", VStr "Italian")]]
            ["Red Bull"; "Ferrari"]) by (repeat constructor).
  destruct (fetchFromErgastAPI_normalizes (answering ergast_two_teams) empty_world
              ergast_two_teams
              (VObj [("MRData",
                 VObj [("TeamTable",
                    VObj [("Teams",
                       VArr [VObj [("name", VStr "Red Bull"); ("nationality", VStr "Austrian")];
                             VObj [("name", VStr "Ferrari"); ("nationality", VStr "Italian")]])])])])
              [VObj [("name", VStr "Red Bull"); ("nationality", VStr "Austrian")];
               VObj [("name", VStr "Ferrari"); ("nationality", VStr "Italian")]]
              ["Red Bull"; "Ferrari"]
              eq_refl eq_refl eq_refl eq_refl eq_refl Hnamed eq_refl)
    as (records & Hrun & Hall).
  exists records. rewrite Hrun. split; [reflexivity|].
  exact (extractAllDrivers_of_normalized ["Red Bull"; "Ferrari"] records empty_world Hall).
Defined.

Section TaggedDrivers.

Lemma driver_of_team_tagged (team driver : value) :
  tagged team driver (Drivers.driver_of_team team driver).
Proof.
  unfold tagged, Drivers.driver_of_team. cbn [get_prop]. rewrite !own_prop_app.
  repeat split. intros ps k -> Hk. cbn [spread get_prop].
  assert (Htags : own_prop [("teamId", get_prop team "id");
                            ("teamName", get_prop team "name");
                            ("teamColor", get_prop team "accent_color");
                            ("teamLogo", get_prop team "logo")] k = None).
  { cbn [own_prop]. unfold tag_names in Hk. cbn [In] in Hk.
    destruct (String.eqb_spec "teamLogo" k) as [E|_]; [exfalso; apply Hk; auto|].
    destruct (String.eqb_spec "teamColor" k) as [E|_]; [exfalso; apply Hk; auto|].
    destruct (String.eqb_spec "teamName" k) as [E|_]; [exfalso; apply Hk; auto|].
    destruct (String.eqb_spec "teamId" k) as [E|_]; [exfalso; apply Hk; auto|].
    reflexivity. }
  rewrite own_prop_app, Htags. reflexivity.
Qed.

Lemma drivers_of_teams_tagged (teams : list value) :
  Forall2 (fun team group => Forall2 (tagged team) (listed_drivers team) group)
    teams
    (List.map (fun team => List.map (Drivers.driver_of_team team) (listed_drivers team))
       teams).
Proof.
  induction teams as [|team teams IH]; [constructor|].
  cbn [List.map]. constructor; [|exact IH].
  induction (listed_drivers team) as [|driver l IHl]; [constructor|].
  cbn [List.map]. constructor; [apply driver_of_team_tagged|exact IHl].
Qed.

End TaggedDrivers.

(** X27. [extractAllDrivers] on teams that are neither [null] nor
    [undefined] never throws; its result is made of one group of
    objects per team, in the order of the teams, and the group of a
    team has one object per driver that team lists, in the order of the
    list: the object of a driver carries the [id], [name],
    [accent_color] and [logo] of the team that lists it under [teamId],
    [teamName], [teamColor] and [teamLogo], also when the driver had
    members of these names of its own, and under every other name the
    member of that driver. A team whose [drivers] member is not a list
    has an empty group. *)
Theorem extractAllDrivers_tags_drivers (teams : list value) (w : world) :
  forallb defined teams = true ->
  exists groups,
    Drivers.extractAllDrivers (VArr teams) w = (Normal (VArr (concat groups)), w)
    /\ Forall2 (fun team group => Forall2 (tagged team) (listed_drivers team) group)
         teams groups.
Proof.
  intros Hdef. rewrite (extractAllDrivers_run teams w Hdef).
  eexists. split; [reflexivity|]. apply drivers_of_teams_tagged.
Qed.

Lemma extractAllDrivers_tags_drivers_witness :
  exists groups,
    Drivers.extractAllDrivers
      (VArr [VObj [("id", VStr "red-bull");
                   ("drivers", VArr [verstappen; VObj [("teamId", VStr "other")]])];
             ferrari]) empty_world
      = (Normal (VArr (concat groups)), empty_world)
    /\ Forall2 (fun team group => Forall2 (tagged team) (listed_drivers team) group)
         [VObj [("id", VStr "red-bull");
                ("drivers", VArr [verstappen; VObj [("teamId", VStr "other")]])];
          ferrari]
         groups.
Proof.
  apply (extractAllDrivers_tags_drivers
           [VObj [("id", VStr "red-bull");
                  ("drivers", VArr [verstappen; VObj [("teamId", VStr "other")]])];
            ferrari] empty_world).
  reflexivity.
Defined.

(** ** [formatNumber] *)

Section Grouping.

Lemma digit_run_app (a b : string) :
  all_digits a = true -> digit_run (a ++ b) = (String.length a + digit_run b)%nat.
Proof.
  induction a as [|c a IH]; [reflexivity|].
  cbn [all_digits]. intros H. apply andb_true_iff in H as [Hc Ha].
  rewrite append_cons. cbn [digit_run String.length]. rewrite Hc, (IH Ha). reflexivity.
Qed.

Lemma digit_run_all (a : string) :
  all_digits a = true -> digit_run a = String.length a.
Proof.
  intros H. rewrite <- (append_nil_r a) at 1. rewrite (digit_run_app a "" H).
  cbn [digit_run]. lia.
Qed.

Lemma is_digit_word (c : ascii) : is_digit c = true -> is_word c = true.
Proof. unfold is_word. intros ->. reflexivity. Qed.

(** Three digits after a word character: one comma, before them. *)
Lemma group_three (b : string) :
  all_digits b = true -> String.length b = 3%nat ->
  group_digits_go true b = String "," b.
Proof.
  destruct b as [|x [|y [|z [|]]]]; try discriminate. intros H _.
  cbn [all_digits] in H.
  apply andb_true_iff in H as [Hx H]. apply andb_true_iff in H as [Hy H].
  apply andb_true_iff in H as [Hz _].
  cbn [group_digits_go digit_run]. rewrite Hx, Hy, Hz. cbn. rewrite !andb_false_r.
  reflexivity.
Qed.

Lemma group_digits_go_app (prev : bool) (a b : string) :
  all_digits a = true -> a <> "" -> all_digits b = true -> String.length b = 3%nat ->
  group_digits_go prev (a ++ b) = group_digits_go prev a ++ String "," b.
Proof.
  intros Ha Hne Hb Hlen. revert prev. induction a as [|c a IH]; [contradiction|].
  intros prev. cbn [all_digits] in Ha. apply andb_true_iff in Ha as [Hc Ha].
  rewrite append_cons. cbn [group_digits_go].
  assert (Hrun : digit_run (String c (a ++ b)) = (digit_run (String c a) + 1 * 3)%nat).
  { cbn [digit_run]. rewrite Hc, (digit_run_app a b Ha), (digit_run_all a Ha),
      (digit_run_all b Hb), Hlen. lia. }
  assert (Hmod : Nat.modulo (digit_run (String c (a ++ b))) 3
                 = Nat.modulo (digit_run (String c a)) 3).
  { rewrite Hrun. apply Nat.Div0.mod_add. }
  assert (Hpos : Nat.eqb (digit_run (String c (a ++ b))) 0 = false
                 /\ Nat.eqb (digit_run (String c a)) 0 = false).
  { cbn [digit_run]. rewrite Hc. split; reflexivity. }
  destruct Hpos as [Hp1 Hp2]. rewrite Hmod, Hp1, Hp2.
  assert (Hrest : group_digits_go (is_word c) (a ++ b)
                  = group_digits_go (is_word c) a ++ String "," b).
  { destruct a as [|c' a'].
    - rewrite (is_digit_word c Hc). exact (group_three b Hb Hlen).
    - apply IH; [exact Ha|discriminate]. }
  rewrite Hrest.
  destruct (prev && negb false && Nat.eqb (Nat.modulo (digit_run (String c a)) 3) 0);
    rewrite !append_cons; reflexivity.
Qed.

Lemma strip_group_digits_go (prev : bool) (s : string) :
  strip_commas (group_digits_go prev s) = strip_commas s.
Proof.
  revert prev. induction s as [|c s IH]; intros prev; [reflexivity|].
  cbn [group_digits_go].
  destruct (prev && _ && _); cbn [strip_commas]; rewrite ?IH;
    try change (Ascii.eqb "," ",") with true; cbn [strip_commas]; rewrite ?IH; reflexivity.
Qed.

Lemma text_uint_digits (d : Decimal.uint) : all_digits (NilEmpty.string_of_uint d) = true.
Proof. induction d; cbn [NilEmpty.string_of_uint all_digits]; try exact IHd; reflexivity. Qed.

Lemma number_text_pos (p : positive) :
  number_toString (Z.pos p) = NilEmpty.string_of_uint (Pos.to_uint p).
Proof.
  unfold number_toString. cbn [Z.to_int NilZero.string_of_int].
  apply uint_text_nonnil, Unsigned.to_uint_nonnil.
Qed.

Lemma number_text_neg (p : positive) :
  number_toString (Z.neg p) = String "-" (number_toString (Z.pos p)).
Proof.
  rewrite number_text_pos. unfold number_toString. cbn [Z.to_int NilZero.string_of_int].
  rewrite (uint_text_nonnil _ (Unsigned.to_uint_nonnil p)). reflexivity.
Qed.

Lemma number_text_digits (n : Z) :
  0 <= n -> all_digits (number_toString n) = true /\ number_toString n <> "".
Proof.
  intros Hn. split; [|apply number_toString_nonempty].
  destruct n as [|p|p]; [reflexivity| |lia].
  rewrite number_text_pos. apply text_uint_digits.
Qed.

(** The digits and the text of two numerals put one after the other. *)
Lemma udigits_app (a b : Decimal.uint) :
  udigits (Decimal.app a b) = (udigits a ++ udigits b)%list.
Proof.
  unfold Decimal.app. rewrite <- (DecimalFacts.rev_rev a) at 2.
  generalize (Decimal.rev a). clear a. intros a.
  unfold Decimal.rev at 1.
  assert (G : forall acc, udigits (revapp a acc) = (udigits (revapp a Nil) ++ udigits acc)%list).
  { induction a; intros acc; cbn [revapp];
      try (rewrite (IHa (_ acc)), (IHa (_ Nil)), <- app_assoc; reflexivity).
    reflexivity. }
  apply G.
Qed.

Lemma text_app (a b : Decimal.uint) :
  NilEmpty.string_of_uint (Decimal.app a b)
    = NilEmpty.string_of_uint a ++ NilEmpty.string_of_uint b.
Proof.
  unfold Decimal.app. rewrite <- (DecimalFacts.rev_rev a) at 2.
  generalize (Decimal.rev a). clear a. intros a.
  unfold Decimal.rev at 1.
  assert (G : forall acc, NilEmpty.string_of_uint (revapp a acc)
                = NilEmpty.string_of_uint (revapp a Nil) ++ NilEmpty.string_of_uint acc).
  { induction a; intros acc; cbn [revapp];
      try (rewrite (IHa (_ acc)), (IHa (_ Nil)), append_assoc; reflexivity).
    reflexivity. }
  apply G.
Qed.

End Grouping.

Section DecimalDigits.

Lemma to_uint_nzhead (p : positive) : nzhead (Pos.to_uint p) = Pos.to_uint p.
Proof.
  pose proof (Unsigned.to_of (Pos.to_uint p)) as H.
  rewrite Unsigned.of_to in H. cbn [N.to_uint] in H.
  pose proof (Unsigned.to_uint_nonzero p) as Hnz.
  unfold unorm in H. destruct (nzhead (Pos.to_uint p)) eqn:E; try (symmetry; exact H).
  exfalso. apply Hnz. exact H.
Qed.

Lemma to_uint_unorm (p : positive) : unorm (Pos.to_uint p) = Pos.to_uint p.
Proof.
  unfold unorm. rewrite to_uint_nzhead.
  pose proof (Unsigned.to_uint_nonnil p) as Hn.
  destruct (Pos.to_uint p); [contradiction|reflexivity..].
Qed.

Lemma fold_left_step10_snoc (ds : list Z) (r : Z) :
  fold_left step10 (ds ++ [r])%list 0 = 10 * fold_left step10 ds 0 + r.
Proof. rewrite fold_left_app. cbn [fold_left]. unfold step10. lia. Qed.

(** The numeral of a number is the numeral of its tenth followed by
    its last digit. *)
Lemma to_uint_snoc (p q : positive) (r : Z) (d1 : Decimal.uint) :
  Z.pos p = 10 * Z.pos q + r -> udigits d1 = [r] -> nb_digits d1 = 1%nat ->
  Pos.to_uint p = Decimal.app (Pos.to_uint q) d1.
Proof.
  intros Hp Hd1 Hn1.
  set (a := Pos.to_uint q). set (d := Decimal.app a d1).
  assert (Hval : Pos.of_uint (Pos.to_uint p) = Pos.of_uint d).
  { rewrite Unsigned.of_to. apply N2Z.inj. rewrite <- (fold_uint d).
    unfold d. rewrite udigits_app, Hd1, fold_left_step10_snoc, (fold_uint a).
    unfold a. rewrite Unsigned.of_to. cbn [Z.of_N]. exact Hp. }
  apply Unsigned.of_inj in Hval. rewrite to_uint_unorm in Hval. rewrite Hval.
  assert (Hlong : (nb_digits d1 < nb_digits (nzhead d))%nat).
  { destruct (Nat.lt_ge_cases (nb_digits d1) (nb_digits (nzhead d))) as [H|H]; [exact H|].
    exfalso. apply (nzhead_app_nil a d1) in H. unfold a in H.
    rewrite to_uint_nzhead in H. exact (Unsigned.to_uint_nonnil q H). }
  pose proof (nzhead_app_l a d1 Hlong) as Hhead.
  unfold a in Hhead at 2. rewrite to_uint_nzhead in Hhead. fold a in Hhead. fold d in Hhead.
  unfold unorm. rewrite Hhead in *.
  destruct d; [cbn in Hlong; lia|reflexivity..].
Qed.

Lemma digit_numeral (r : Z) :
  0 <= r < 10 ->
  exists d1, udigits d1 = [r] /\ nb_digits d1 = 1%nat
    /\ NilEmpty.string_of_uint d1 = String (digit_char r) EmptyString.
Proof.
  intros Hr.
  assert (H : r = 0 \/ r = 1 \/ r = 2 \/ r = 3 \/ r = 4 \/ r = 5 \/ r = 6 \/ r = 7
              \/ r = 8 \/ r = 9) by lia.
  destruct H as [->|[->|[->|[->|[->|[->|[->|[->|[->| ->]]]]]]]]].
  - exists (D0 Nil). repeat split.
  - exists (D1 Nil). repeat split.
  - exists (D2 Nil). repeat split.
  - exists (D3 Nil). repeat split.
  - exists (D4 Nil). repeat split.
  - exists (D5 Nil). repeat split.
  - exists (D6 Nil). repeat split.
  - exists (D7 Nil). repeat split.
  - exists (D8 Nil). repeat split.
  - exists (D9 Nil). repeat split.
Qed.

(** The decimal text of a number of two digits or more: the text of its
    tenth, then its last digit. *)
Lemma number_text_snoc (n : Z) :
  10 <= n ->
  number_toString n
    = number_toString (n / 10) ++ String (digit_char (n mod 10)) EmptyString.
Proof.
  intros Hn.
  pose proof (Z.div_mod n 10 ltac:(lia)) as Hdm.
  pose proof (Z.mod_pos_bound n 10 ltac:(lia)) as Hr.
  assert (Hq : 1 <= n / 10) by (apply Z.div_le_lower_bound; lia).
  destruct n as [|p|p]; try lia.
  destruct (Z.pos p / 10) as [|q|q] eqn:Eq; try lia.
  destruct (digit_numeral (Z.pos p mod 10) Hr) as (d1 & Hd1 & Hn1 & Ht1).
  rewrite !number_text_pos, (to_uint_snoc p q (Z.pos p mod 10) d1 Hdm Hd1 Hn1).
  rewrite text_app, Ht1. reflexivity.
Qed.

Lemma number_text_thousands (n : Z) :
  1000 <= n -> number_toString n = number_toString (n / 1000) ++ last_three n.
Proof.
  intros Hn.
  assert (H1 : 100 <= n / 10) by (apply Z.div_le_lower_bound; lia).
  assert (H2 : 10 <= n / 10 / 10) by (apply Z.div_le_lower_bound; lia).
  rewrite (number_text_snoc n) by lia.
  rewrite (number_text_snoc (n / 10)) by lia. rewrite (number_text_snoc (n / 10 / 10) H2).
  rewrite !Z.div_div by lia. change (10 * 10) with 100. change (100 * 10) with 1000.
  rewrite !append_assoc. reflexivity.
Qed.

Lemma last_three_digits (n : Z) :
  all_digits (last_three n) = true /\ String.length (last_three n) = 3%nat.
Proof.
  split; [|reflexivity]. unfold last_three. cbn [all_digits].
  assert (D : forall r, 0 <= r < 10 -> is_digit (digit_char r) = true).
  { intros r Hr.
    assert (H : r = 0 \/ r = 1 \/ r = 2 \/ r = 3 \/ r = 4 \/ r = 5 \/ r = 6 \/ r = 7
                \/ r = 8 \/ r = 9) by lia.
    destruct H as [->|[->|[->|[->|[->|[->|[->|[->|[->| ->]]]]]]]]]; reflexivity. }
  rewrite !D by (apply Z.mod_pos_bound; lia). reflexivity.
Qed.

Lemma small_numbers_plain :
  forallb (fun k => String.eqb (group_digits (number_toString (Z.of_nat k)))
                      (number_toString (Z.of_nat k))) (seq 0 1000) = true.
Proof. vm_compute. reflexivity. Qed.

Lemma formatNumber_number (n : Z) (w : world) :
  n <> 0 -> Utils.formatNumber (VNum n) w = (Normal (group_digits (number_toString n)), w).
Proof.
  intros Hn. unfold Utils.formatNumber. cbn [truthy].
  destruct (Z.eqb_spec n 0) as [|_]; [contradiction|]. reflexivity.
Qed.

End DecimalDigits.

(** X28. [formatNumber] on the whole numbers the host holds exactly
    (up to [MAX_SAFE_INTEGER] in absolute value): below one thousand
    the result is the decimal text of the number (the text [0] for
    zero, which the guard returns); from one thousand on it is the
    result for the number of its thousands, a comma, and its last three
    digits, so the digits are grouped in threes from the right; and
    the result for a negative number is the minus sign before the
    result for its absolute value. *)
Theorem formatNumber_integers (n : Z) (w : world) :
  (0 <= n < 1000 -> Utils.formatNumber (VNum n) w = (Normal (number_toString n), w))
  /\ (1000 <= n <= MAX_SAFE_INTEGER ->
      exists high,
        Utils.formatNumber (VNum (n / 1000)) w = (Normal high, w)
        /\ Utils.formatNumber (VNum n) w = (Normal (high ++ "," ++ last_three n), w))
  /\ (0 < n <= MAX_SAFE_INTEGER ->
      exists text,
        Utils.formatNumber (VNum n) w = (Normal text, w)
        /\ Utils.formatNumber (VNum (- n)) w = (Normal (String "-" text), w)).
Proof.
  split; [|split].
  - intros Hn. destruct (Z.eqb_spec n 0) as [->|Hz]; [reflexivity|].
    rewrite (formatNumber_number n w Hz). do 2 f_equal.
    pose proof (proj1 (forallb_forall _ _) small_numbers_plain (Z.to_nat n)) as H.
    cbv beta in H. rewrite Z2Nat.id in H by lia.
    apply String.eqb_eq, H, in_seq. lia.
  - intros [Hn _].
    assert (Hq : 1 <= n / 1000) by (apply Z.div_le_lower_bound; lia).
    exists (group_digits (number_toString (n / 1000))).
    rewrite !formatNumber_number by lia. split; [reflexivity|].
    rewrite (number_text_thousands n Hn). unfold group_digits.
    destruct (number_text_digits (n / 1000) ltac:(lia)) as [Hd Hne].
    destruct (last_three_digits n) as [Hd3 Hl3].
    rewrite (group_digits_go_app false _ _ Hd Hne Hd3 Hl3). reflexivity.
  - intros [Hn _]. exists (group_digits (number_toString n)).
    rewrite !formatNumber_number by lia. split; [reflexivity|].
    destruct n as [|p|p]; try lia.
    change (- Z.pos p) with (Z.neg p). rewrite number_text_neg. reflexivity.
Qed.

Lemma formatNumber_integers_witness :
  Utils.formatNumber (VNum 999) empty_world = (Normal "999", empty_world)
  /\ (exists high,
        Utils.formatNumber (VNum (1234567 / 1000)) empty_world = (Normal high, empty_world)
        /\ Utils.formatNumber (VNum 1234567) empty_world
           = (Normal (high ++ "," ++ last_three 1234567), empty_world))
  /\ (exists text,
        Utils.formatNumber (VNum 4200) empty_world = (Normal text, empty_world)
        /\ Utils.formatNumber (VNum (- 4200)) empty_world
           = (Normal (String "-" text), empty_world)).
Proof.
  split; [|split].
  - apply (proj1 (formatNumber_integers 999 empty_world)). lia.
  - apply (proj1 (proj2 (formatNumber_integers 1234567 empty_world))).
    unfold MAX_SAFE_INTEGER. lia.
  - apply (proj2 (proj2 (formatNumber_integers 4200 empty_world))).
    unfold MAX_SAFE_INTEGER. lia.
Defined.

(** X29. [formatNumber] only adds commas: for a number other than zero
    and for a non-empty string, the result without its commas is the
    text of the argument without its commas. *)
Theorem formatNumber_adds_commas_only (w : world) :
  (forall n, n <> 0 ->
     exists out, Utils.formatNumber (VNum n) w = (Normal out, w)
       /\ strip_commas out = strip_commas (number_toString n))
  /\ (forall s, s <> "" ->
        exists out, Utils.formatNumber (VStr s) w = (Normal out, w)
          /\ strip_commas out = strip_commas s).
Proof.
  split.
  - intros n Hn. eexists. split; [exact (formatNumber_number n w Hn)|].
    apply strip_group_digits_go.
  - intros s Hs. exists (group_digits s). split; [|apply strip_group_digits_go].
    unfold Utils.formatNumber. cbn [truthy]. rewrite (eqb_empty_false s Hs). reflexivity.
Qed.

Lemma formatNumber_adds_commas_only_witness :
  (exists out, Utils.formatNumber (VNum 1234567) empty_world = (Normal out, empty_world)
     /\ strip_commas out = strip_commas (number_toString 1234567))
  /\ (exists out, Utils.formatNumber (VStr "1234.5678") empty_world = (Normal out, empty_world)
        /\ strip_commas out = strip_commas "1234.5678").
Proof.
  split.
  - apply (proj1 (formatNumber_adds_commas_only empty_world) 1234567). discriminate.
  - apply (proj2 (formatNumber_adds_commas_only empty_world) "1234.5678"). discriminate.
Defined.
(** ** [parseErgastData] *)

Section ParseErgast.

Lemma mapM_parse_team (year : Z) (teams : list value) (names : list string) (w : world) :
  Forall2 named teams names -> forallb year_readable teams = true ->
  exists records, mapM (Utils.parse_team year) teams w = (Normal records, w)
    /\ Forall2 (fun name record =>
                  get_prop record "id" = VStr (Utils.getTeamId name)
                  /\ get_prop record "accent_color" = Utils.getTeamAccentColor name
                  /\ get_prop record "championships" = VNum 0
                  /\ get_prop record "wins" = VNum 0
                  /\ get_prop record "podiums" = VNum 0
                  /\ get_prop record "drivers" = VArr []) names records.
Proof.
  intros H. induction H as [|team name teams names Hn _ IH]; intros Hyears.
  - exists []. split; [reflexivity|constructor].
  - cbn [forallb] in Hyears. apply andb_true_iff in Hyears as [Hyear Hyears].
    destruct (parse_team_fields year team name w Hn Hyear)
      as (rec & Hrec & Hid & Hc & Hw & Hp & Hd & Ha).
    destruct (IH Hyears) as (recs & Hrecs & Hall).
    exists (rec :: recs). split.
    + cbn [mapM]. unfold bind. rewrite Hrec, Hrecs. reflexivity.
    + constructor; [|exact Hall]. repeat split; assumption.
Qed.

Lemma parse_team_unreadable (year : Z) (team : value) (name : string) (w : world) :
  get_prop team "name" = VStr name -> year_readable team = false ->
  exists message, Utils.parse_team year team w = (Throw (TypeError message), w).
Proof.
  intros Hname Hyear. unfold Utils.parse_team, bind.
  rewrite (member_name team name w Hname). simpl as_string. cbv iota beta.
  unfold ret at 1. rewrite parseInt_run. unfold year_readable in Hyear.
  destruct (to_primitive_string (get_prop team "established")); [discriminate|].
  eexists. reflexivity.
Qed.

Lemma parseErgastData_guard (data : value) :
  negb (truthy data)
  || negb (truthy (get_prop data "MRData"))
  || negb (truthy (get_prop (get_prop data "MRData") "TeamTable"))
  || negb (truthy (get_prop (get_prop (get_prop data "MRData") "TeamTable") "Teams"))
  = envelope_missing data
  /\ (forall x, envelope_member data = Some x ->
        get_prop (get_prop (get_prop data "MRData") "TeamTable") "Teams" = x).
Proof.
  destruct data as [| |b|n|s|l|ps|f]; try (split; [reflexivity|discriminate]).
  - destruct b; split; try reflexivity; discriminate.
  - unfold envelope_missing. cbn [envelope_member truthy]. split; [|discriminate].
    destruct (negb (n =? 0)); reflexivity.
  - unfold envelope_missing. cbn [envelope_member truthy]. split; [|discriminate].
    destruct (negb (String.eqb s "")); reflexivity.
  - assert (Hd1 : VObj ps <> VNull) by discriminate.
    assert (Hd2 : VObj ps <> VUndefined) by discriminate.
    destruct (envelope_guard (VObj ps) Hd1 Hd2) as [Hg Hm].
    cbv zeta in Hg, Hm. cbn [truthy negb orb]. split; [exact Hg|exact Hm].
Qed.

End ParseErgast.

(** X30. [parseErgastData] answers a missing envelope with [null], it
    does not throw: for every value without a truthy member
    [MRData.TeamTable.Teams], [null] and [undefined] included, the
    result is [null] (where [fetchFromErgastAPI] throws). For a body
    whose member is a list of teams with a string name and a founding
    year that [parseInt] can read it returns one record per team, in
    order, with the slug of the name as [id], the accent colour of the
    [utils.js] table, zero [championships], [wins] and [podiums] and no
    [drivers]; a team whose founding year cannot be converted makes it
    throw a TypeError. *)
Theorem parseErgastData_envelope (year : Z) (data : value) (w : world) :
  (envelope_missing data = true ->
   Utils.parseErgastData year data w = (Normal VNull, w))
  /\ (forall teams names,
        envelope_teams data = Some teams -> Forall2 named teams names ->
        forallb year_readable teams = true ->
        exists records,
          Utils.parseErgastData year data w = (Normal (VArr records), w)
          /\ Forall2 (fun name record =>
                        get_prop record "id" = VStr (Utils.getTeamId name)
                        /\ get_prop record "accent_color" = Utils.getTeamAccentColor name
                        /\ get_prop record "championships" = VNum 0
                        /\ get_prop record "wins" = VNum 0
                        /\ get_prop record "podiums" = VNum 0
                        /\ get_prop record "drivers" = VArr []) names records)
  /\ (forall team name teams,
        envelope_teams data = Some (team :: teams) -> named team name ->
        year_readable team = false ->
        exists message,
          Utils.parseErgastData year data w = (Throw (TypeError message), w)).
Proof.
  destruct (parseErgastData_guard data) as [Hguard Hmember].
  unfold Utils.parseErgastData. rewrite Hguard. split; [|split].
  - intros ->. reflexivity.
  - intros teams names Henv Hnames Hyears. unfold envelope_teams in Henv.
    destruct (envelope_member data) as [x|] eqn:Hx; [|discriminate].
    destruct x; try discriminate. injection Henv as ->.
    unfold envelope_missing. rewrite Hx. cbn [truthy negb].
    rewrite (Hmember _ eq_refl). unfold bind at 1. cbn [as_array]. unfold ret at 1.
    destruct (mapM_parse_team year teams names w Hnames Hyears) as (records & Hrun & Hall).
    exists records. unfold bind. rewrite Hrun. split; [reflexivity|exact Hall].
  - intros team name teams Henv Hname Hyear. unfold envelope_teams in Henv.
    destruct (envelope_member data) as [x|] eqn:Hx; [|discriminate].
    destruct x; try discriminate. injection Henv as ->.
    unfold envelope_missing. rewrite Hx. cbn [truthy negb].
    rewrite (Hmember _ eq_refl). unfold bind at 1. cbn [as_array]. unfold ret at 1.
    destruct (parse_team_unreadable year team name w Hname Hyear) as [message Hthrow].
    exists message. cbn [mapM]. unfold bind. rewrite Hthrow. reflexivity.
Qed.

Lemma parseErgastData_envelope_witness :
  Utils.parseErgastData 2024 (VObj [("MRData", VObj [("TeamTable", VNull)])]) empty_world
    = (Normal VNull, empty_world)
  /\ (exists records,
        Utils.parseErgastData 2024
            (VObj [("MRData", VObj [("TeamTable",
               VObj [("Teams", VArr [VObj [("name", VStr "Alfa Romeo");
                                           ("established", VStr "1910")]])])])]) empty_world
          = (Normal (VArr records), empty_world)
        /\ Forall2 (fun name record =>
                      get_prop record "id" = VStr (Utils.getTeamId name)
                      /\ get_prop record "accent_color" = Utils.getTeamAccentColor name
                      /\ get_prop record "championships" = VNum 0
                      /\ get_prop record "wins" = VNum 0
                      /\ get_prop record "podiums" = VNum 0
                      /\ get_prop record "drivers" = VArr []) ["Alfa Romeo"] records)
  /\ (exists message,
        Utils.parseErgastData 2024
            (VObj [("MRData", VObj [("TeamTable",
               VObj [("Teams", VArr [unreadable_year_team])])])]) empty_world
          = (Throw (TypeError message), empty_world)).
Proof.
  split; [|split].
  - apply (proj1 (parseErgastData_envelope 2024
                    (VObj [("MRData", VObj [("TeamTable", VNull)])]) empty_world)).
    reflexivity.
  - apply (proj1 (proj2 (parseErgastData_envelope 2024
                    (VObj [("MRData", VObj [("TeamTable",
                       VObj [("Teams", VArr [VObj [("name", VStr "Alfa Romeo");
                                                   ("established", VStr "1910")]])])])])
                    empty_world))
             [VObj [("name", VStr "Alfa Romeo"); ("established", VStr "1910")]]
             ["Alfa Romeo"]); [reflexivity| |reflexivity].
    repeat constructor.
  - apply (proj2 (proj2 (parseErgastData_envelope 2024
                    (VObj [("MRData", VObj [("TeamTable",
                       VObj [("Teams", VArr [unreadable_year_team])])])])
                    empty_world))
             unreadable_year_team "Ferrari" []); reflexivity.
Defined.
